(** * znapit writing assistant: the AI analysis layer

    A shallow embedding of the analysis code of the repository:
    - the heuristic analyzer [AnalysisProcessor] and the orchestrator
      [ContentAnalyzer] with its cache;
    - the provider client [AIService] for OpenAI-compatible endpoints,
      with its JSON repair and its response parser;
    - the singleton [AIService] of services/ai.ts, which the orchestrator
      calls, with its chat methods and its request throttler;
    - the application state of [AppProvider]: its reducer, its
      [analyzeContent] action and its helpers;
    together with the fragment of the JavaScript runtime those functions
    rely on: strings, numbers, dynamically typed values, regular
    expressions and [JSON.parse].

    Conventions of the model.
    - A string is the list of its UTF-16 code units ([list N]).
    - A finite number is an exact rational; [NaN] and the two infinities
      are constructors of their own, and the sign of zero is not kept.
      Rounding to double precision is not modelled.  The code compares
      its quotients of counts with small integer constants, or rounds
      them to an integer: for any text an engine can hold, the exact
      quotient and the rounded one fall on the same side.  A number
      literal of a provider (in JSON, or in a string converted to a
      number) denotes its exact decimal value, where the engine takes the
      nearest double.
    - [Date.now()], [new Date()] and [Math.random()] are inputs of a call
      (record [Env]); an exception thrown is the [Throw] branch of
      [result]; [console] output is left out. *)

From Stdlib Require Import ZArith QArith List String Ascii Bool Lia Lqa.
From Stdlib Require Import Qround DecimalString.
From stdpp Require Import gmap.

Set Default Proof Using "Type".

(* ================================================================== *)
(** * Part I. The JavaScript fragment *)
(* ================================================================== *)

Module JS.

(** ** Strings *)

(** A JavaScript string: a sequence of 16-bit code units. *)
Abbreviation str := (list N).

(** A source literal, written as a Rocq string of ASCII characters. *)
Definition lit (s : string) : str := map N_of_ascii (list_ascii_of_string s).

(** The code unit of an ASCII character. *)
Definition cu (a : ascii) : N := N_of_ascii a.

(** The double quote, U+0022. *)
Definition dquote : N := 34%N.

(** A literal in which every apostrophe stands for a double quote. *)
Definition qlit (s : string) : str :=
  map (fun c => if N.eqb c 39 then dquote else c) (lit s).

(** WhiteSpace and LineTerminator code units: what [\s] matches and what
    [trim] strips. *)
Definition isWhiteSpace (c : N) : bool :=
  ((9 <=? c) && (c <=? 13) || (c =? 32) || (c =? 160) || (c =? 5760)
   || (8192 <=? c) && (c <=? 8202) || (c =? 8232) || (c =? 8233)
   || (c =? 8239) || (c =? 8287) || (c =? 12288) || (c =? 65279))%N.

(** LineTerminator code units: what [.] does not match. *)
Definition isLineTerminator (c : N) : bool :=
  ((c =? 10) || (c =? 13) || (c =? 8232) || (c =? 8233))%N.

Definition isDigit (c : N) : bool := ((48 <=? c) && (c <=? 57))%N.

Definition isUpper (c : N) : bool := ((65 <=? c) && (c <=? 90))%N.

Definition isLower (c : N) : bool := ((97 <=? c) && (c <=? 122))%N.

(** What [\w] matches (no [u] flag): [A-Za-z0-9_]. *)
Definition isWordChar (c : N) : bool :=
  isDigit c || isUpper c || isLower c || (c =? 95)%N.

(** [String.prototype.toLowerCase], one code unit at a time.  Exact on
    Basic Latin and Latin-1 and on the two code units outside them whose
    lower-case form contains an ASCII letter (U+0130 and U+212A); any
    other code unit is kept: its lower-case form has no ASCII letter, and
    the code below only looks for ASCII words in the result. *)
Definition lowerUnit (c : N) : str :=
  if isUpper c then [c + 32]%N
  else if ((192 <=? c) && (c <=? 222) && negb (c =? 215))%N then [c + 32]%N
  else if (c =? 304)%N then [105; 775]%N
  else if (c =? 8490)%N then [107]%N
  else if (c =? 8491)%N then [229]%N
  else [c].

Definition toLowerCase (s : str) : str := flat_map lowerUnit s.

(** Canonicalize of the [i] flag on an ASCII pattern character: a subject
    code unit equals it up to ASCII case (a non-ASCII code unit never
    canonicalizes to an ASCII one). *)
Definition upperAscii (c : N) : N := if isLower c then (c - 32)%N else c.

Fixpoint trimStart (s : str) : str :=
  match s with
  | c :: s' => if isWhiteSpace c then trimStart s' else s
  | [] => []
  end.

Definition trimEnd (s : str) : str := rev (trimStart (rev s)).

Definition trim (s : str) : str := trimEnd (trimStart s).

Fixpoint startsWith (s p : str) : bool :=
  match p, s with
  | [], _ => true
  | a :: p', b :: s' => (a =? b)%N && startsWith s' p'
  | _ :: _, [] => false
  end.

(** [s.includes(p)] *)
Fixpoint includes (s p : str) : bool :=
  startsWith s p || match s with [] => false | _ :: s' => includes s' p end.

(** [s.substring(a, b)] for [0 <= a <= b]. *)
Definition substring (a b : nat) (s : str) : str := firstn (b - a) (skipn a s).

(** [s.lastIndexOf(c)] for a one-unit needle: the index as an integer,
    [-1] when absent. *)
Fixpoint lastIndexOf_from (c : N) (s : str) (i : Z) (found : Z) : Z :=
  match s with
  | [] => found
  | x :: s' => lastIndexOf_from c s' (i + 1) (if (x =? c)%N then i else found)
  end.

Definition lastIndexOf (c : N) (s : str) : Z := lastIndexOf_from c s 0 (-1).

(** [a.join(sep)] on strings. *)
Fixpoint join (sep : str) (l : list str) : str :=
  match l with
  | [] => []
  | [x] => x
  | x :: l' => x ++ sep ++ join sep l'
  end.

(** Decimal rendering of an integer, as in a template literal. *)
Definition decimal (z : Z) : str := lit (NilZero.string_of_int (Z.to_int z)).

End JS.

Import JS.

(* ================================================================== *)
(** ** Regular expressions (backtracking, no [u] flag) *)
(* ================================================================== *)

Module RegExp.

Inductive regex : Type :=
| Eps                                   (* empty pattern *)
| Chr (p : N -> bool)                   (* one code unit: literal, class, dot *)
| Seq (r1 r2 : regex)
| Alt (r1 r2 : regex)                   (* r1|r2, left alternative first *)
| Star (greedy : bool) (r : regex)      (* r* and r*? *)
| Bol                                   (* ^ *)
| Eol                                   (* $ *)
| WordB                                 (* \b *)
| Group (n : nat) (r : regex).          (* capturing group number n *)

(** Matcher state: the code unit before the current position, the rest of
    the subject, the current index and the captures so far. *)
Record mstate : Type := MState {
  prev : option N;
  rest : str;
  pos : nat;
  caps : list (nat * (nat * nat))
}.

(** RepeatMatcher with min 0 and no upper bound: an iteration that
    consumes nothing fails.  Every iteration consumes a code unit, so
    [fuel] above the remaining length is never exhausted. *)
Fixpoint star (greedy : bool)
  (m : (mstate -> option mstate) -> mstate -> option mstate)
  (fuel : nat) (k : mstate -> option mstate) (s : mstate) : option mstate :=
  match fuel with
  | O => k s
  | S n =>
      let again (_ : unit) :=
        m (fun s' => if (pos s <? pos s')%nat then star greedy m n k s' else None) s in
      if greedy
      then match again tt with Some e => Some e | None => k s end
      else match k s with Some e => Some e | None => again tt end
  end.

Definition isWordAt (o : option N) : bool :=
  match o with Some c => isWordChar c | None => false end.

(** [mt r k s]: match [r] at state [s], then continue with [k]; the first
    success in backtracking order. *)
Fixpoint mt (r : regex) (k : mstate -> option mstate) (s : mstate) : option mstate :=
  match r with
  | Eps => k s
  | Chr p =>
      match rest s with
      | c :: t => if p c then k (MState (Some c) t (S (pos s)) (caps s)) else None
      | [] => None
      end
  | Seq a b => mt a (mt b k) s
  | Alt a b => match mt a k s with Some e => Some e | None => mt b k s end
  | Star g a => star g (mt a) (S (length (rest s))) k s
  | Bol => if (pos s =? 0)%nat then k s else None
  | Eol => match rest s with [] => k s | _ => None end
  | WordB => if xorb (isWordAt (prev s)) (isWordAt (head (rest s))) then k s else None
  | Group n a =>
      mt a (fun s' => k (MState (prev s') (rest s') (pos s') ((n, (pos s, pos s')) :: caps s'))) s
  end.

(** ** Pattern syntax *)

Definition Plus (g : bool) (r : regex) : regex := Seq r (Star g r).

(** A literal code unit. *)
Definition C (a : ascii) : regex := Chr (fun c => (c =? cu a)%N).

Fixpoint seqOf (f : N -> regex) (s : str) : regex :=
  match s with
  | [] => Eps
  | [c] => f c
  | c :: s' => Seq (f c) (seqOf f s')
  end.

(** A literal word, and a literal word under the [i] flag. *)
Definition Lit (s : string) : regex := seqOf (fun a => Chr (fun c => (c =? a)%N)) (lit s).

Definition Liti (s : string) : regex :=
  seqOf (fun a => Chr (fun c => (upperAscii c =? upperAscii a)%N)) (lit s).

Fixpoint alts (l : list regex) : regex :=
  match l with
  | [] => Chr (fun _ => false)
  | [r] => r
  | r :: l' => Alt r (alts l')
  end.

Fixpoint seqs (l : list regex) : regex :=
  match l with
  | [] => Eps
  | [r] => r
  | r :: l' => Seq r (seqs l')
  end.

Definition Space : regex := Chr isWhiteSpace.                         (* \s *)
Definition Word : regex := Chr isWordChar.                            (* \w *)
Definition Dot : regex := Chr (fun c => negb (isLineTerminator c)).   (* . *)
Definition Any : regex := Chr (fun _ => true).                        (* [\s\S] *)
Definition OneOf (s : string) : regex := Chr (fun c => existsb (N.eqb c) (lit s)).
Definition NoneOf (l : str) : regex := Chr (fun c => negb (existsb (N.eqb c) l)).

(** ** Running a pattern *)

(** A successful match: its index, the index after it, its captures. *)
Record rmatch : Type := RMatch {
  m_index : nat;
  m_end : nat;
  m_caps : list (nat * (nat * nat));
  m_prev : option N;       (* code unit before [m_end] *)
  m_rest : str             (* subject from [m_end] on *)
}.

(** Match exactly at the current position (sticky). *)
Definition matchAt (r : regex) (pv : option N) (rs : str) (i : nat) : option rmatch :=
  match mt r Some (MState pv rs i []) with
  | Some e => Some (RMatch i (pos e) (caps e) (prev e) (rest e))
  | None => None
  end.

(** Leftmost match at or after the current position. *)
Fixpoint search (r : regex) (pv : option N) (rs : str) (i : nat) : option rmatch :=
  match matchAt r pv rs i with
  | Some m => Some m
  | None =>
      match rs with
      | [] => None
      | c :: t => search r (Some c) t (S i)
      end
  end.

(** [re.exec(s)] / [s.match(re)] without the [g] flag. *)
Definition exec (r : regex) (s : str) : option rmatch := search r None s 0.

(** [re.test(s)] *)
Definition test (r : regex) (s : str) : bool :=
  match exec r s with Some _ => true | None => false end.

(** The successive matches of a [g] pattern, as [s.match(re)] collects
    them and as a [while ((m = re.exec(s)) !== null)] loop visits them:
    each search resumes at the end of the previous match.  The patterns of
    this code base never match the empty string, so the index advances at
    every round and [fuel] above the subject length is never exhausted. *)
Fixpoint matchLoop (r : regex) (fuel : nat) (pv : option N) (rs : str) (i : nat)
  : list rmatch :=
  match fuel with
  | O => []
  | S n =>
      match search r pv rs i with
      | None => []
      | Some m => m :: matchLoop r n (m_prev m) (m_rest m) (m_end m)
      end
  end.

Definition matchAll (r : regex) (s : str) : list rmatch :=
  matchLoop r (S (length s)) None s 0.

(** [(s.match(re) || []).length] for a [g] pattern. *)
Definition countMatches (r : regex) (s : str) : nat := length (matchAll r s).

(** The text of a match. *)
Definition matched (s : str) (m : rmatch) : str := substring (m_index m) (m_end m) s.

(** The text of capture [n] of a match, when the group took part. *)
Definition capture (s : str) (m : rmatch) (n : nat) : option str :=
  match find (fun c => (fst c =? n)%nat) (m_caps m) with
  | Some (_, (a, b)) => Some (substring a b s)
  | None => None
  end.

(** [s.replace(re, '')] without the [g] flag: the first match is removed. *)
Definition replaceFirst (r : regex) (s : str) : str :=
  match exec r s with
  | Some m => firstn (m_index m) s ++ skipn (m_end m) s
  | None => s
  end.

(** [s.split(re)] for a pattern without capturing groups: [p] is the end
    of the last separator, [cur] the code units since [p] (reversed), [q]
    the scan position.  A match at [q] that ends at [p] is skipped. *)
Fixpoint splitLoop (r : regex) (fuel : nat) (p : nat) (cur : str)
  (pv : option N) (rs : str) (q : nat) : list str :=
  match fuel with
  | O => [rev cur ++ rs]
  | S n =>
      match rs with
      | [] => [rev cur]
      | c :: t =>
          match matchAt r pv rs q with
          | Some m =>
              if (m_end m =? p)%nat then splitLoop r n p (c :: cur) (Some c) t (S q)
              else rev cur :: splitLoop r n (m_end m) [] (m_prev m) (m_rest m) (m_end m)
          | None => splitLoop r n p (c :: cur) (Some c) t (S q)
          end
      end
  end.

Definition split (r : regex) (s : str) : list str :=
  match s with
  | [] => match matchAt r None [] 0 with Some _ => [] | None => [ [] ] end
  | _ => splitLoop r (2 * length s + 2) 0 [] None s 0
  end.

End RegExp.

Import RegExp.

(* ================================================================== *)
(** ** Numbers and dynamically typed values *)
(* ================================================================== *)

Module Num.

(** A JavaScript number.  [Fin q] is a finite value; the sign of zero is
    not kept. *)
Inductive number : Type :=
| NaN
| NegInf
| Fin (q : Q)
| PosInf.

Definition Qltb (a b : Q) : bool := negb (Qle_bool b a).

Definition ofZ (z : Z) : number := Fin (inject_Z z).

Definition ofNat (n : nat) : number := ofZ (Z.of_nat n).

(** [a < b] *)
Definition lt (a b : number) : bool :=
  match a, b with
  | NaN, _ | _, NaN => false
  | _, NegInf => false
  | NegInf, _ => true
  | PosInf, _ => false
  | Fin _, PosInf => true
  | Fin x, Fin y => Qltb x y
  end.

(** [a > b] *)
Definition gt (a b : number) : bool := lt b a.

Definition isNaN (a : number) : bool :=
  match a with NaN => true | _ => false end.

(** [Math.max(a, b)] and [Math.min(a, b)] on numbers. *)
Definition max (a b : number) : number :=
  if isNaN a || isNaN b then NaN else if lt a b then b else a.

Definition min (a b : number) : number :=
  if isNaN a || isNaN b then NaN else if lt b a then b else a.

Definition neg (a : number) : number :=
  match a with
  | NaN => NaN
  | NegInf => PosInf
  | PosInf => NegInf
  | Fin q => Fin (- q)
  end.

(** [a + b] *)
Definition add (a b : number) : number :=
  match a, b with
  | NaN, _ | _, NaN => NaN
  | PosInf, NegInf | NegInf, PosInf => NaN
  | PosInf, _ | _, PosInf => PosInf
  | NegInf, _ | _, NegInf => NegInf
  | Fin x, Fin y => Fin (x + y)
  end.

(** [a - b] *)
Definition sub (a b : number) : number := add a (neg b).

(** [a / b]; a zero divisor counts as [+0]. *)
Definition div (a b : number) : number :=
  match a, b with
  | NaN, _ | _, NaN => NaN
  | Fin x, Fin y =>
      if Qeq_bool y 0 then
        match (x ?= 0)%Q with Eq => NaN | Gt => PosInf | Lt => NegInf end
      else Fin (x / y)
  | Fin _, _ => Fin 0
  | _, Fin y => if Qltb y 0 then neg a else a
  | _, _ => NaN
  end.

(** [Math.round(a)]: the nearest integer, halves up. *)
Definition round (a : number) : number :=
  match a with
  | Fin q => Fin (inject_Z (Qfloor (q + (1 # 2))))
  | _ => a
  end.

(** [ToInt32] of an integer. *)
Definition toInt32 (z : Z) : Z := ((z + 2 ^ 31) mod 2 ^ 32 - 2 ^ 31)%Z.

(** A finite number that is an integer. *)
Definition isInteger (a : number) : Prop :=
  match a with
  | Fin q => exists z : Z, (q == inject_Z z)%Q
  | _ => False
  end.

(** ** Strings as numbers: StringToNumber *)

Definition digitVal (base : N) (c : N) : option N :=
  let d :=
    if isDigit c then Some (c - 48)%N
    else if ((97 <=? c) && (c <=? 102))%N then Some (c - 87)%N
    else if ((65 <=? c) && (c <=? 70))%N then Some (c - 55)%N
    else None in
  match d with
  | Some v => if (v <? base)%N then Some v else None
  | None => None
  end.

(** The longest prefix of digits in [base]: its value, its length and the
    rest. *)
Fixpoint digits (base : N) (s : str) (acc : N) (len : nat) : N * nat * str :=
  match s with
  | c :: s' =>
      match digitVal base c with
      | Some v => digits base s' (acc * base + v)%N (S len)
      | None => (acc, len, s)
      end
  | [] => (acc, len, s)
  end.

(** An optional sign: [true] for a minus. *)
Definition signOf (s : str) : bool * str :=
  match s with
  | c :: s' => if (c =? 45)%N then (true, s') else if (c =? 43)%N then (false, s') else (false, s)
  | [] => (false, s)
  end.

(** ExponentPart, when present and well formed: its value and the rest. *)
Definition exponent (s : str) : option (Z * str) :=
  match s with
  | c :: s' =>
      if ((c =? 101) || (c =? 69))%N then
        let '(m, s1) := signOf s' in
        let '(v, len, s2) := digits 10 s1 0 0 in
        if (len =? 0)%nat then None
        else Some (if m then (- Z.of_N v)%Z else Z.of_N v, s2)
      else None
  | [] => None
  end.

(** [m * 10 ^ e] as an exact rational. *)
Definition scale (m : Z) (e : Z) : Q :=
  if (0 <=? e)%Z then inject_Z (m * 10 ^ e)
  else (m # Z.to_pos (10 ^ (- e)))%Q.

(** StrUnsignedDecimalLiteral without [Infinity]: digits, an optional
    fraction, an optional exponent; at least one digit; the value and the
    unread rest. *)
Definition unsignedDecimal (s : str) : option (Q * str) :=
  let '(ip, ilen, s1) := digits 10 s 0 0 in
  let '(fp, flen, s2) :=
    match s1 with
    | c :: s1' => if (c =? 46)%N then digits 10 s1' 0 0 else (0%N, 0%nat, s1)
    | [] => (0%N, 0%nat, s1)
    end in
  let dot := match s1 with c :: _ => (c =? 46)%N | [] => false end in
  if ((ilen =? 0) && (flen =? 0))%nat then None
  else
    let mant := (Z.of_N ip * 10 ^ Z.of_nat flen + Z.of_N fp)%Z in
    let s2' := if dot then s2 else s1 in
    match exponent s2' with
    | Some (e, s3) => Some (scale mant (e - Z.of_nat flen), s3)
    | None => Some (scale mant (- Z.of_nat flen), s2')
    end.

Definition nonDecimal (base : N) (s : str) : number :=
  let '(v, len, r) := digits base s 0 0 in
  if (0 <? len)%nat && bool_decide (r = []) then ofZ (Z.of_N v) else NaN.

Definition StringToNumber (s0 : str) : number :=
  let s := trim s0 in
  match s with
  | [] => Fin 0
  | _ =>
      if startsWith s (lit "0x") || startsWith s (lit "0X") then nonDecimal 16 (skipn 2 s)
      else if startsWith s (lit "0o") || startsWith s (lit "0O") then nonDecimal 8 (skipn 2 s)
      else if startsWith s (lit "0b") || startsWith s (lit "0B") then nonDecimal 2 (skipn 2 s)
      else
        let '(m, u) := signOf s in
        if bool_decide (u = lit "Infinity") then (if m then NegInf else PosInf)
        else
          match unsignedDecimal u with
          | Some (q, []) => Fin (if m then - q else q)
          | _ => NaN
          end
  end.

End Num.

Module Dyn.

Import Num.

(** A run-time value: what a variable of type [any] may hold. *)
#[warnings="-register-all"] Inductive value : Type :=
| VUndef
| VNull
| VBool (b : bool)
| VNum (n : number)
| VStr (s : str)
| VArr (l : list value)
| VObj (l : list (str * value)).

(** A thrown exception.  [TypeError] and [SyntaxError] are raised by the
    engine, with a message the language leaves to the implementation. *)
Inductive error : Type :=
| AIServiceError (message : str) (code : option str)
| Error (message : str)
| TypeError
| SyntaxError.

Inductive result (A : Type) : Type :=
| Ok (a : A)
| Throw (e : error).

Arguments Ok {A} a.
Arguments Throw {A} e.

Definition bind {A B} (r : result A) (f : A -> result B) : result B :=
  match r with
  | Ok a => f a
  | Throw e => Throw e
  end.

(** [error.message]; for an error raised by the engine, its name stands
    for the message. *)
Definition messageOf (e : error) : str :=
  match e with
  | AIServiceError m _ => m
  | Error m => m
  | TypeError => lit "TypeError"
  | SyntaxError => lit "SyntaxError"
  end.

(** [error instanceof AIServiceError] *)
Definition isAIServiceError (e : error) : bool :=
  match e with AIServiceError _ _ => true | _ => false end.

Definition num (z : Z) : value := VNum (ofZ z).

Definition vstr (s : string) : value := VStr (lit s).

(** ToBoolean *)
Definition ToBoolean (v : value) : bool :=
  match v with
  | VUndef | VNull => false
  | VBool b => b
  | VNum NaN => false
  | VNum (Fin q) => negb (Qeq_bool q 0)
  | VNum _ => true
  | VStr s => negb (bool_decide (s = []))
  | VArr _ | VObj _ => true
  end.

(** [a || b] *)
Definition or (a b : value) : value := if ToBoolean a then a else b.

(** ToNumber.  An object converts through its string form: a plain object
    gives [NaN]; an array gives the number of its joined elements, which
    is [0] when empty, that of its only element when it has one, and [NaN]
    when it has more (the join then has a comma). *)
Fixpoint ToNumber (v : value) : number :=
  match v with
  | VUndef => NaN
  | VNull => Fin 0
  | VBool b => if b then Fin 1 else Fin 0
  | VNum n => n
  | VStr s => StringToNumber s
  | VObj _ => NaN
  | VArr [] => Fin 0
  | VArr [x] =>
      match x with
      | VUndef | VNull => Fin 0
      | VBool _ | VObj _ => NaN
      | _ => ToNumber x
      end
  | VArr _ => NaN
  end.

(** [Math.max] and [Math.min] of two arguments. *)
Definition Math_max (a b : value) : number := Num.max (ToNumber a) (ToNumber b).

Definition Math_min (a b : value) : number := Num.min (ToNumber a) (ToNumber b).

(** The first binding of a key in a property list. *)
Fixpoint assoc (k : str) (l : list (str * value)) : option value :=
  match l with
  | [] => None
  | (k', v) :: l' => if bool_decide (k' = k) then Some v else assoc k l'
  end.

(** [o[k] = v] on a property list: an existing key keeps its place. *)
Fixpoint setProp (k : str) (v : value) (l : list (str * value)) : list (str * value) :=
  match l with
  | [] => [(k, v)]
  | (k', v') :: l' => if bool_decide (k' = k) then (k, v) :: l' else (k', v') :: setProp k v l'
  end.

(** [v.k] for the property names this code reads on provider data.  None
    of them is defined on a string, a number, a boolean or an array, nor
    inherited by a plain object, so only an object's own properties
    count; reading on [null] or [undefined] throws. *)
Definition get (v : value) (k : string) : result value :=
  match v with
  | VUndef | VNull => Throw TypeError
  | VObj l => Ok (default VUndef (assoc (lit k) l))
  | _ => Ok VUndef
  end.

(** [v?.k] *)
Definition getOpt (v : value) (k : string) : value :=
  match v with
  | VObj l => default VUndef (assoc (lit k) l)
  | _ => VUndef
  end.

(** [v[0]] *)
Definition index0 (v : value) : result value :=
  match v with
  | VUndef | VNull => Throw TypeError
  | VArr l => Ok (default VUndef (head l))
  | VStr s => Ok (match s with c :: _ => VStr [c] | [] => VUndef end)
  | VObj l => Ok (default VUndef (assoc (lit "0") l))
  | _ => Ok VUndef
  end.

End Dyn.

Import Num Dyn.

#[global] Instance result_bind : MBind result := fun A B f r => bind r f.

(* ================================================================== *)
(** ** [JSON.parse] *)
(* ================================================================== *)

Module JSON.

(** JSON white space: space, tab, line feed, carriage return. *)
Definition isWs (c : N) : bool := ((c =? 32) || (c =? 9) || (c =? 10) || (c =? 13))%N.

Fixpoint skipWs (s : str) : str :=
  match s with
  | c :: s' => if isWs c then skipWs s' else s
  | [] => []
  end.

(** Four hexadecimal digits of a [\u] escape. *)
Definition hex4 (s : str) : option (N * str) :=
  match s with
  | a :: b :: c :: d :: s' =>
      match digitVal 16 a, digitVal 16 b, digitVal 16 c, digitVal 16 d with
      | Some x, Some y, Some z, Some w => Some (((x * 16 + y) * 16 + z) * 16 + w, s')%N
      | _, _, _, _ => None
      end
  | _ => None
  end.

(** The characters of a string literal after its opening quote, up to and
    including the closing quote. *)
Fixpoint parseChars (fuel : nat) (s : str) (acc : str) : option (str * str) :=
  match fuel with
  | O => None
  | S n =>
      match s with
      | [] => None
      | c :: s' =>
          if (c =? dquote)%N then Some (rev acc, s')
          else if (c =? 92)%N then
            match s' with
            | e :: s'' =>
                if (e =? dquote)%N then parseChars n s'' (dquote :: acc)
                else if (e =? 92)%N then parseChars n s'' (92 :: acc)%N
                else if (e =? 47)%N then parseChars n s'' (47 :: acc)%N
                else if (e =? 98)%N then parseChars n s'' (8 :: acc)%N
                else if (e =? 102)%N then parseChars n s'' (12 :: acc)%N
                else if (e =? 110)%N then parseChars n s'' (10 :: acc)%N
                else if (e =? 114)%N then parseChars n s'' (13 :: acc)%N
                else if (e =? 116)%N then parseChars n s'' (9 :: acc)%N
                else if (e =? 117)%N then
                  match hex4 s'' with
                  | Some (u, s3) => parseChars n s3 (u :: acc)
                  | None => None
                  end
                else None
            | [] => None
            end
          else if (c <? 32)%N then None
          else parseChars n s' (c :: acc)
      end
  end.

Definition parseString (s : str) : option (str * str) := parseChars (S (length s)) s [].

(** A JSON number: an optional minus, an integer part without a leading
    zero (unless it is the digit zero alone), an optional fraction of at
    least one digit, an optional exponent. *)
Definition parseNumber (s : str) : option (number * str) :=
  let '(m, s0) := match s with
                  | c :: s' => if (c =? 45)%N then (true, s') else (false, s)
                  | [] => (false, s)
                  end in
  let '(ip, ilen, s1) := digits 10 s0 0 0 in
  let leadingZero := match s0 with c :: _ => (c =? 48)%N | [] => false end in
  if (ilen =? 0)%nat || (leadingZero && (1 <? ilen)%nat) then None
  else
    let frac :=
      match s1 with
      | c :: s1' =>
          if (c =? 46)%N then
            let '(fp, flen, s2) := digits 10 s1' 0 0 in
            if (flen =? 0)%nat then None else Some (fp, flen, s2)
          else Some (0%N, 0%nat, s1)
      | [] => Some (0%N, 0%nat, s1)
      end in
    match frac with
    | None => None
    | Some (fp, flen, s2) =>
        let mant := (Z.of_N ip * 10 ^ Z.of_nat flen + Z.of_N fp)%Z in
        let mant := if m then (- mant)%Z else mant in
        match s2 with
        | c :: _ =>
            if ((c =? 101) || (c =? 69))%N then
              match exponent s2 with
              | Some (e, s3) => Some (Fin (scale mant (e - Z.of_nat flen)), s3)
              | None => None
              end
            else Some (Fin (scale mant (- Z.of_nat flen)), s2)
        | [] => Some (Fin (scale mant (- Z.of_nat flen)), s2)
        end
    end.

(** Recursive descent.  [parseValue] reads one value after optional white
    space; [parseElements] reads the elements of an array where an element
    is due; [parseMembers] the members of an object where a key is due.
    Each call either consumes input or is entered from one that did, so
    [fuel] of twice the input length is never exhausted. *)
Fixpoint parseValue (fuel : nat) (s : str) : option (value * str) :=
  match fuel with
  | O => None
  | S n =>
      match skipWs s with
      | [] => None
      | c :: r =>
          if (c =? 123)%N then
            match skipWs r with
            | c' :: r' =>
                if (c' =? 125)%N then Some (VObj [], r') else parseMembers n (c' :: r') []
            | [] => None
            end
          else if (c =? 91)%N then
            match skipWs r with
            | c' :: r' =>
                if (c' =? 93)%N then Some (VArr [], r') else parseElements n (c' :: r') []
            | [] => None
            end
          else if (c =? dquote)%N then
            match parseString r with
            | Some (x, r') => Some (VStr x, r')
            | None => None
            end
          else if startsWith (c :: r) (lit "true") then Some (VBool true, skipn 4 (c :: r))
          else if startsWith (c :: r) (lit "false") then Some (VBool false, skipn 5 (c :: r))
          else if startsWith (c :: r) (lit "null") then Some (VNull, skipn 4 (c :: r))
          else
            match parseNumber (c :: r) with
            | Some (x, r') => Some (VNum x, r')
            | None => None
            end
      end
  end
with parseElements (fuel : nat) (s : str) (acc : list value) : option (value * str) :=
  match fuel with
  | O => None
  | S n =>
      match parseValue n s with
      | Some (v, r) =>
          match skipWs r with
          | c :: r' =>
              if (c =? 44)%N then parseElements n r' (v :: acc)
              else if (c =? 93)%N then Some (VArr (rev (v :: acc)), r')
              else None
          | [] => None
          end
      | None => None
      end
  end
with parseMembers (fuel : nat) (s : str) (acc : list (str * value)) : option (value * str) :=
  match fuel with
  | O => None
  | S n =>
      match skipWs s with
      | q :: r0 =>
          if (q =? dquote)%N then
            match parseString r0 with
            | Some (k, r1) =>
                match skipWs r1 with
                | c :: r2 =>
                    if (c =? 58)%N then
                      match parseValue n r2 with
                      | Some (v, r3) =>
                          match skipWs r3 with
                          | d :: r4 =>
                              if (d =? 44)%N then parseMembers n r4 (setProp k v acc)
                              else if (d =? 125)%N then Some (VObj (setProp k v acc), r4)
                              else None
                          | [] => None
                          end
                      | None => None
                      end
                    else None
                | [] => None
                end
            | None => None
            end
          else None
      | [] => None
      end
  end.

(** [JSON.parse(text)]: a [SyntaxError] unless the text is one JSON value
    between optional white space. *)
Definition parse (text : str) : result value :=
  match parseValue (2 * length text + 2) text with
  | Some (v, r) => match skipWs r with [] => Ok v | _ => Throw SyntaxError end
  | None => Throw SyntaxError
  end.

(** The text is valid JSON: [JSON.parse] returns. *)
Definition valid (text : str) : Prop := exists v, parse text = Ok v.

End JSON.

(* ================================================================== *)
(** * Part II. The data model (types) *)
(* ================================================================== *)

Module Types.

(** [AnalysisResult.metrics].  The provider paths store what the provider
    sent, so a field holds a run-time value. *)
Record Metrics : Type := {
  readabilityScore : value;
  clarityScore : value;
  toneAnalysis : value;
  targetAudience : value
}.

(** [AnalysisResult]; [timestamp] is the [Date] in milliseconds.
    [suggestions] and [ambiguousPhrases] hold arrays of [Suggestion] and
    [AmbiguousPhrase] objects. *)
Record AnalysisResult : Type := {
  id : str;
  postId : str;
  timestamp : Z;
  metrics : Metrics;
  suggestions : value;
  ambiguousPhrases : value
}.

(** [AnalysisResponse] *)
Record AnalysisResponse : Type := {
  success : bool;
  data : option AnalysisResult
}.

(** What one analysis reads from the clock and the random generator:
    [Date.now()] for the identifier, the nine base-36 digits taken from
    [Math.random()], and [new Date()] for the time stamp. *)
Record Env : Type := {
  dateNow : Z;
  random : str;
  newDate : Z
}.

(** [{ ...r, postId: p }] *)
Definition withPostId (r : AnalysisResult) (p : str) : AnalysisResult :=
  {| id := id r; postId := p; timestamp := timestamp r; metrics := metrics r;
     suggestions := suggestions r; ambiguousPhrases := ambiguousPhrases r |}.

(** [{ ...r, postId: p, timestamp: t }] *)
Definition withPostIdTimestamp (r : AnalysisResult) (p : str) (t : Z) : AnalysisResult :=
  {| id := id r; postId := p; timestamp := t; metrics := metrics r;
     suggestions := suggestions r; ambiguousPhrases := ambiguousPhrases r |}.

(** [postId || ''] for an optional string argument. *)
Definition postIdOrEmpty (p : option str) : str := default [] p.

(** A [{ start, end }] object. *)
Definition position (s e : number) : value :=
  VObj [(lit "start", VNum s); (lit "end", VNum e)].

(** [ChatMessage]; [context] holds [postId] and [analysisId], [metadata]
    holds [wordCount] and [processingTime]. *)
Record ChatMessage : Type := {
  message_id : str;
  message_role : str;
  message_content : str;
  message_timestamp : Z;
  message_context : option (option str * option str);
  message_metadata : option (option number * option number)
}.

(** [ChatConversation] *)
Record ChatConversation : Type := {
  conversation_id : str;
  conversation_title : str;
  messages : list ChatMessage;
  conversation_createdAt : Z;
  conversation_updatedAt : Z
}.

(** [ChatResponse]: [data] holds [message] and [stream]. *)
Record ChatResponse : Type := {
  chat_success : bool;
  chat_data : option (ChatMessage * option bool)
}.

End Types.

Import Types.

(* ================================================================== *)
(** * Part III. The heuristic analyzer: [AnalysisProcessor] *)
(* ================================================================== *)

Module AnalysisProcessor.

(** The object [calculateBasicMetrics] returns. *)
Record BasicMetrics : Type := {
  readabilityScore : number;
  clarityScore : number;
  toneAnalysis : str;
  targetAudience : str;
  wordCount : nat;
  sentenceCount : nat;
  paragraphCount : nat;
  avgWordsPerSentence : number;
  avgSentencesPerParagraph : number
}.

Definition nonBlank (s : str) : bool := (0 <? length (trim s))%nat.

(** [new RegExp(`\\b${word}\\b`, 'g')] *)
Definition wordPattern (word : string) : regex := seqs [WordB; Lit word; WordB].

Definition formalIndicators : list string :=
  ["therefore"; "however"; "furthermore"; "consequently"; "nevertheless"]%string.

Definition casualIndicators : list string :=
  ["just"; "really"; "pretty"; "kinda"; "gonna"; "wanna"]%string.

Definition technicalIndicators : list string :=
  ["implement"; "configure"; "optimize"; "analyze"; "framework"]%string.

Definition emotionalIndicators : list string :=
  ["amazing"; "terrible"; "love"; "hate"; "excited"; "frustrated"]%string.

(** [indicators.reduce((count, word) => count + (lowerContent.match(...) || []).length, 0)] *)
Definition countIndicators (indicators : list string) (lowerContent : str) : nat :=
  fold_left (fun count word => (count + countMatches (wordPattern word) lowerContent)%nat)
    indicators 0%nat.

(** The decision at the end of [analyzeTone], on the four counts. *)
Definition toneOfCounts (formalCount casualCount technicalCount emotionalCount : nat) : str :=
  if (formalCount <? technicalCount)%nat && (casualCount <? technicalCount)%nat
  then lit "Technical"
  else if (casualCount <? formalCount)%nat && (emotionalCount <? formalCount)%nat
  then lit "Formal"
  else if (formalCount <? casualCount)%nat then lit "Casual"
  else if (2 <? emotionalCount)%nat then lit "Emotional"
  else lit "Neutral".

Definition analyzeTone (content : str) : str :=
  let lowerContent := toLowerCase content in
  let formalCount := countIndicators formalIndicators lowerContent in
  let casualCount := countIndicators casualIndicators lowerContent in
  let technicalCount := countIndicators technicalIndicators lowerContent in
  let emotionalCount := countIndicators emotionalIndicators lowerContent in
  toneOfCounts formalCount casualCount technicalCount emotionalCount.

Definition technicalTerms : list string :=
  ["api"; "framework"; "database"; "algorithm"; "implementation"]%string.

Definition determineTargetAudience (content : str) (avgWordsPerSentence : number) : str :=
  let lowerContent := toLowerCase content in
  if Num.gt avgWordsPerSentence (ofZ 25) then lit "Academic/Professional"
  else if Num.lt avgWordsPerSentence (ofZ 15) then lit "General/Casual"
  else
    let technicalCount :=
      fold_left (fun count term =>
                   (count + (if includes lowerContent (lit term) then 1 else 0))%nat)
        technicalTerms 0%nat in
    if (2 <? technicalCount)%nat then lit "Technical/Developer"
    else lit "General audience".

Definition calculateBasicMetrics (content : str) : BasicMetrics :=
  let words :=
    List.filter (fun word => (0 <? length word)%nat) (split (Plus true Space) (trim content)) in
  let sentences := List.filter nonBlank (split (Plus true (OneOf ".!?")) content) in
  let paragraphs :=
    List.filter nonBlank (split (seqs [C "010"; Star true Space; C "010"]) content) in
  let wordCount := length words in
  let sentenceCount := length sentences in
  let paragraphCount := length paragraphs in
  let avgWordsPerSentence :=
    if (0 <? sentenceCount)%nat then Num.div (ofNat wordCount) (ofNat sentenceCount)
    else ofZ 0 in
  let avgSentencesPerParagraph :=
    if (0 <? paragraphCount)%nat then Num.div (ofNat sentenceCount) (ofNat paragraphCount)
    else ofZ 0 in
  let readabilityScore := ofZ 10 in
  let readabilityScore :=
    if Num.gt avgWordsPerSentence (ofZ 20) then Num.sub readabilityScore (ofZ 2)
    else readabilityScore in
  let readabilityScore :=
    if Num.gt avgWordsPerSentence (ofZ 25) then Num.sub readabilityScore (ofZ 2)
    else readabilityScore in
  let readabilityScore :=
    if Num.gt avgWordsPerSentence (ofZ 30) then Num.sub readabilityScore (ofZ 2)
    else readabilityScore in
  let clarityScore := ofZ 8 in
  let clarityScore :=
    if Num.gt avgSentencesPerParagraph (ofZ 5) then Num.sub clarityScore (ofZ 1)
    else clarityScore in
  let clarityScore :=
    if (paragraphCount =? 1)%nat && (10 <? sentenceCount)%nat
    then Num.sub clarityScore (ofZ 1)
    else clarityScore in
  let toneAnalysis := analyzeTone content in
  let targetAudience := determineTargetAudience content avgWordsPerSentence in
  {| readabilityScore := Num.max (ofZ 1) (Num.min (ofZ 10) readabilityScore);
     clarityScore := Num.max (ofZ 1) (Num.min (ofZ 10) clarityScore);
     toneAnalysis := toneAnalysis;
     targetAudience := targetAudience;
     wordCount := wordCount;
     sentenceCount := sentenceCount;
     paragraphCount := paragraphCount;
     avgWordsPerSentence := avgWordsPerSentence;
     avgSentencesPerParagraph := avgSentencesPerParagraph |}.

(** A [Suggestion] object literal of [generateBasicSuggestions]: its
    position always spans the whole content. *)
Definition suggestion (type severity : string) (description originalText suggestedText : str)
  (content : str) : value :=
  VObj [(lit "type", vstr type);
        (lit "severity", vstr severity);
        (lit "description", VStr description);
        (lit "originalText", VStr originalText);
        (lit "suggestedText", VStr suggestedText);
        (lit "position", position (ofZ 0) (ofNat (length content)))].

(** [/\b(is|are|was|were|be|been|being)\s+\w+ed\b/gi] *)
Definition passivePattern : regex :=
  seqs [WordB;
        Group 1 (alts [Liti "is"; Liti "are"; Liti "was"; Liti "were"; Liti "be";
                       Liti "been"; Liti "being"]);
        Plus true Space; Plus true Word; Liti "ed"; WordB].

(** [/\b\w+\b/g] *)
Definition wordsPattern : regex := seqs [WordB; Plus true Word; WordB].

(** [freq[word] = (freq[word] || 0) + 1] on the keys in creation order. *)
Fixpoint bump (word : str) (freq : list (str * nat)) : list (str * nat) :=
  match freq with
  | [] => [(word, 1%nat)]
  | (w, n) :: freq' =>
      if bool_decide (w = word) then (w, S n) :: freq' else (w, n) :: bump word freq'
  end.

(** The two lower-case words that name a property every object inherits.
    For them [freq[word] || 0] is the inherited value, not a number, so
    their count is never a number above five: they never reach the list
    of overused words and are left out of the table. *)
Definition inheritedName (word : str) : bool :=
  bool_decide (word = lit "constructor") || bool_decide (word = lit "__proto__").

(** A property name that is an array index (a canonical decimal integer
    below [2^32 - 1]): such keys are enumerated first, in numeric order. *)
Definition arrayIndex (k : str) : option N :=
  match k with
  | [] => None
  | c :: k' =>
      if forallb isDigit k && negb ((c =? 48)%N && (0 <? length k')%nat) then
        let '(v, _, _) := digits 10 k 0 0 in
        if (v <? 4294967295)%N then Some v else None
      else None
  end.

Fixpoint insertIndex (e : N * (str * nat)) (l : list (N * (str * nat)))
  : list (N * (str * nat)) :=
  match l with
  | [] => [e]
  | x :: l' => if (fst e <? fst x)%N then e :: l else x :: insertIndex e l'
  end.

(** [Object.entries(freq)]: array-index keys in ascending order, then the
    other keys in creation order. *)
Definition entries (freq : list (str * nat)) : list (str * nat) :=
  let indexed :=
    fold_right (fun e acc =>
                  match arrayIndex (fst e) with
                  | Some i => insertIndex (i, e) acc
                  | None => acc
                  end) [] freq in
  let named :=
    List.filter (fun e => match arrayIndex (fst e) with Some _ => false | None => true end)
      freq in
  map snd indexed ++ named.

Definition generateBasicSuggestions (content : str) (metrics : BasicMetrics) : list value :=
  let suggestions := [] in
  let suggestions :=
    if Num.gt (avgWordsPerSentence metrics) (ofZ 25) then
      suggestions ++
      [suggestion "clarity" "medium"
         (lit "Consider breaking down long sentences for better readability.")
         (lit "Long sentences detected")
         (lit "Try splitting sentences that exceed 25 words.") content]
    else suggestions in
  let suggestions :=
    if Num.gt (avgSentencesPerParagraph metrics) (ofZ 6) then
      suggestions ++
      [suggestion "structure" "low"
         (lit "Consider breaking long paragraphs into smaller chunks.")
         (lit "Long paragraphs detected")
         (lit "Aim for 3-5 sentences per paragraph for better readability.") content]
    else suggestions in
  let passiveMatches := matchAll passivePattern content in
  let suggestions :=
    if (3 <? length passiveMatches)%nat then
      suggestions ++
      [suggestion "clarity" "low"
         (lit "Consider using active voice for more engaging writing.")
         (lit "Passive voice detected")
         (lit "Try converting passive sentences to active voice.") content]
    else suggestions in
  let lower := toLowerCase content in
  let words := map (matched lower) (matchAll wordsPattern lower) in
  let wordFreq :=
    fold_left (fun freq word =>
                 if (4 <? length word)%nat && negb (inheritedName word)
                 then bump word freq else freq)
      words [] in
  let overusedWords :=
    map fst (List.filter (fun e => (5 <? snd e)%nat) (entries wordFreq)) in
  if (0 <? length overusedWords)%nat then
    suggestions ++
    [suggestion "clarity" "low"
       (lit "The words " ++ [dquote] ++ join (lit ", ") (firstn 3 overusedWords) ++ [dquote]
          ++ lit " appear frequently. Consider using synonyms.")
       (join (lit ", ") overusedWords)
       (lit "Use varied vocabulary to maintain reader interest.") content]
  else suggestions.

(** The four entries of [ambiguousPatterns]: pattern, reason, suggestions. *)
Definition ambiguousPatterns : list (regex * string * list string) :=
  [ (seqs [WordB; Group 1 (Alt (Liti "a lot") (Liti "lots")); WordB],
     "Vague quantity. Consider being more specific.",
     ["many"; "numerous"; "several"; "a specific number"]);
    (seqs [WordB; Group 1 (Alt (Liti "stuff") (Liti "things")); WordB],
     "Vague reference. Be more specific about what you mean.",
     ["items"; "elements"; "components"; "specific nouns"]);
    (seqs [WordB; Group 1 (alts [Liti "very"; Liti "really"; Liti "quite"]);
           Plus true Space; Group 2 (Plus true Word)],
     "Weak intensifiers. Consider stronger, more specific adjectives.",
     ["use stronger adjectives"; "be more specific"; "remove unnecessary intensifiers"]);
    (seqs [WordB; Group 1 (alts [Liti "maybe"; Liti "perhaps"; Liti "possibly"]); WordB],
     "Uncertain language may weaken your message.",
     ["be more definitive"; "provide evidence"; "state clearly"]) ]%string.

(** The object pushed for one match. *)
Definition ambiguousPhrase (content : str) (reason : string) (suggestions : list string)
  (m : rmatch) : value :=
  VObj [(lit "text", VStr (matched content m));
        (lit "position",
         position (ofNat (m_index m)) (ofNat (m_index m + length (matched content m))));
        (lit "reason", vstr reason);
        (lit "suggestions", VArr (map vstr suggestions))].

Definition detectAmbiguousPhrases (content : str) : list value :=
  flat_map (fun '(pattern, reason, suggestions) =>
              map (ambiguousPhrase content reason suggestions) (matchAll pattern content))
    ambiguousPatterns.

Definition createBasicAnalysis (env : Env) (content : str) (postId : option str)
  : AnalysisResult :=
  let metrics := calculateBasicMetrics content in
  let suggestions := generateBasicSuggestions content metrics in
  let ambiguousPhrases := detectAmbiguousPhrases content in
  {| id := lit "analysis-" ++ decimal (dateNow env) ++ lit "-" ++ random env;
     postId := postIdOrEmpty postId;
     timestamp := newDate env;
     metrics :=
       {| Types.readabilityScore := VNum (readabilityScore metrics);
          Types.clarityScore := VNum (clarityScore metrics);
          Types.toneAnalysis := VStr (toneAnalysis metrics);
          Types.targetAudience := VStr (targetAudience metrics) |};
     suggestions := VArr suggestions;
     ambiguousPhrases := VArr ambiguousPhrases |}.

End AnalysisProcessor.

(* ================================================================== *)
(** * Part IV. The provider client: [AIService] (configurable provider) *)
(* ================================================================== *)

Module AIService.

(** [AIProviderConfig] *)
Record AIProviderConfig : Type := {
  name : str;
  baseUrl : str;
  apiKey : str;
  model : str;
  temperature : number;
  maxTokens : number;
  enabled : bool
}.

(** A string in a condition: true unless empty. *)
Definition truthy (s : str) : bool := negb (bool_decide (s = [])).

Definition isConfigured (config : AIProviderConfig) : bool :=
  enabled config && truthy (apiKey config) && truthy (baseUrl config) && truthy (model config).

(** [response.choices[0]?.message?.content || ''], any exception replaced
    by an [AIServiceError]. *)
Definition extractTextFromResponse (response : value) : result value :=
  match
    choices ← get response "choices";
    first ← index0 choices;
    Ok (or (getOpt (getOpt first "message") "content") (VStr []))
  with
  | Ok v => Ok v
  | Throw _ => Throw (AIServiceError (lit "Invalid response format from AI provider") None)
  end.

Definition DQuote : regex := Chr (fun c => (c =? dquote)%N).

Definition NotDQuote : regex := Chr (fun c => negb (c =? dquote)%N).

(** The pattern of strategy 1: a lazy group of any characters, a quoted
    key, a colon, an opening quote and no further quote up to the end. *)
Definition incompleteStringPattern : regex :=
  seqs [Group 1 (Star false Dot); DQuote; Star true NotDQuote; DQuote; Star true Space;
        C ":"; Star true Space; DQuote; Star true NotDQuote; Eol].

(** A comma and white space at the end. *)
Definition trailingCommaPattern : regex := seqs [C ","; Star true Space; Eol].

(** The pattern of strategy 2: at the start, a quoted non-empty key, a
    colon, at least one character other than comma and closers, then a
    closing brace or bracket. *)
Definition completeMemberPattern : regex :=
  seqs [Bol; Star true Space; DQuote; Plus true NotDQuote; DQuote; Star true Space; C ":";
        Star true Space; Plus true (NoneOf (lit ",}]")); OneOf "}]"].

(** [attemptJSONRepair]: [None] is the [null] it returns both when it
    sees nothing to repair and when the repaired text does not parse. *)
Definition attemptJSONRepair (jsonString : str) : option str :=
  let repairedJSON := trim jsonString in
  let openBraces := countMatches (C "{") repairedJSON in
  let closeBraces := countMatches (C "}") repairedJSON in
  let openBrackets := countMatches (C "[") repairedJSON in
  let closeBrackets := countMatches (C "]") repairedJSON in
  if (closeBraces <? openBraces)%nat || (closeBrackets <? openBrackets)%nat then
    (* Strategy 1: remove an incomplete string value at the end *)
    let repairedJSON :=
      match exec incompleteStringPattern repairedJSON with
      | Some m => replaceFirst trailingCommaPattern (default [] (capture repairedJSON m 1))
      | None => repairedJSON
      end in
    (* Strategy 2: remove incomplete content after the last comma *)
    let lastCommaIndex := lastIndexOf (cu ",") repairedJSON in
    let lastOpenBrace := lastIndexOf (cu "{") repairedJSON in
    let lastOpenBracket := lastIndexOf (cu "[") repairedJSON in
    let repairedJSON :=
      if (Z.max lastOpenBrace lastOpenBracket <? lastCommaIndex)%Z then
        let afterComma := trim (skipn (Z.to_nat (lastCommaIndex + 1)) repairedJSON) in
        if truthy afterComma && negb (test completeMemberPattern afterComma)
        then substring 0 (Z.to_nat lastCommaIndex) repairedJSON
        else repairedJSON
      else repairedJSON in
    (* Strategy 3: close an open quoted string *)
    let quoteCount := countMatches DQuote repairedJSON in
    let repairedJSON :=
      if negb (quoteCount mod 2 =? 0)%nat then repairedJSON ++ [dquote] else repairedJSON in
    (* Strategy 4: close brackets, then braces *)
    let missingCloseBrackets := (openBrackets - closeBrackets)%nat in
    let repairedJSON := repairedJSON ++ repeat (cu "]") missingCloseBrackets in
    let missingCloseBraces := (openBraces - closeBraces)%nat in
    let repairedJSON := repairedJSON ++ repeat (cu "}") missingCloseBraces in
    match JSON.parse repairedJSON with
    | Ok _ => Some repairedJSON
    | Throw _ => None
    end
  else None.

(** The markdown fences and the extraction from the first opening brace
    to the last closing brace, at the start of [parseAnalysisResponse]. *)
Definition cleanResponse (content : str) : str :=
  let cleanContent := trim content in
  let closingFence := seqs [Star true Space; Lit "```"; Eol] in
  let cleanContent :=
    if startsWith cleanContent (lit "```json") then
      replaceFirst closingFence
        (replaceFirst (seqs [Bol; Lit "```json"; Star true Space]) cleanContent)
    else if startsWith cleanContent (lit "```") then
      replaceFirst closingFence
        (replaceFirst (seqs [Bol; Lit "```"; Star true Space]) cleanContent)
    else cleanContent in
  match exec (seqs [C "{"; Star true Any; C "}"]) cleanContent with
  | Some m => matched cleanContent m
  | None => cleanContent
  end.

Definition invalidJSON (parseError : error) (tail : str) : error :=
  Error (lit "Invalid JSON response from AI provider: " ++ messageOf parseError ++ tail).

(** [JSON.parse(cleanContent)], with one repair attempt when it throws. *)
Definition parseOrRepair (cleanContent : str) : result value :=
  match JSON.parse cleanContent with
  | Ok analysisData => Ok analysisData
  | Throw parseError =>
      let truncated :=
        lit ". Content appears to be truncated at position "
        ++ decimal (Z.of_nat (length cleanContent)) ++ lit "." in
      match attemptJSONRepair cleanContent with
      | Some fixedJSON =>
          if truthy fixedJSON then
            match JSON.parse fixedJSON with
            | Ok analysisData => Ok analysisData
            | Throw repairError =>
                Throw (invalidJSON parseError
                         (lit ". Auto-repair failed: " ++ messageOf repairError ++ lit "."))
            end
          else Throw (invalidJSON parseError truncated)
      | None => Throw (invalidJSON parseError truncated)
      end
  end.

(** [xs.map(f)] for a callback that may throw. *)
Fixpoint mapM {A B} (f : A -> result B) (l : list A) : result (list B) :=
  match l with
  | [] => Ok []
  | x :: l' => y ← f x; ys ← mapM f l'; Ok (y :: ys)
  end.

(** The [position] both callbacks build: the start is bounded below by
    zero, the end above by the content length. *)
Definition clampPosition (originalContent : str) (pos : value) : value :=
  position (Math_max (num 0) (or (getOpt pos "start") (num 0)))
           (Math_min (VNum (ofNat (length originalContent))) (or (getOpt pos "end") (num 0))).

(** The callback of [analysisData.suggestions.map]. *)
Definition processSuggestion (originalContent : str) (s : value) : result value :=
  type ← get s "type";
  severity ← get s "severity";
  description ← get s "description";
  originalText ← get s "originalText";
  suggestedText ← get s "suggestedText";
  pos ← get s "position";
  Ok (VObj [(lit "type", or type (vstr "clarity"));
            (lit "severity", or severity (vstr "low"));
            (lit "description", or description (VStr []));
            (lit "originalText", or originalText (VStr []));
            (lit "suggestedText", or suggestedText (VStr []));
            (lit "position", clampPosition originalContent pos)]).

(** The callback of [(analysisData.ambiguousPhrases || []).map]. *)
Definition processPhrase (originalContent : str) (p : value) : result value :=
  text ← get p "text";
  pos ← get p "position";
  reason ← get p "reason";
  suggestions ← get p "suggestions";
  Ok (VObj [(lit "text", or text (VStr []));
            (lit "position", clampPosition originalContent pos);
            (lit "reason", or reason (VStr []));
            (lit "suggestions",
             match suggestions with VArr _ => suggestions | _ => VArr [] end)]).

(** [Math.max(1, Math.min(10, score || 5))] *)
Definition clampScore (score : value) : value :=
  VNum (Math_max (num 1) (VNum (Math_min (num 10) (or score (num 5))))).

(** From the structure check to the returned object: what
    [parseAnalysisResponse] does with the parsed [analysisData]. *)
Definition buildAnalysis (env : Env) (analysisData : value) (originalContent postId : str)
  : result AnalysisResult :=
  metrics ← get analysisData "metrics";
  suggestionsIn ← get analysisData "suggestions";
  match suggestionsIn with
  | VArr items =>
      if negb (ToBoolean metrics)
      then Throw (Error (lit "Invalid analysis response structure"))
      else
        let analysisId := lit "analysis-" ++ decimal (dateNow env) ++ lit "-" ++ random env in
        suggestions ← mapM (processSuggestion originalContent) items;
        phrasesIn ← get analysisData "ambiguousPhrases";
        phrases ←
          match or phrasesIn (VArr []) with
          | VArr l => mapM (processPhrase originalContent) l
          | _ => Throw TypeError
          end;
        readability ← get metrics "readabilityScore";
        clarity ← get metrics "clarityScore";
        tone ← get metrics "toneAnalysis";
        audience ← get metrics "targetAudience";
        Ok {| id := analysisId;
              postId := postId;
              timestamp := newDate env;
              metrics :=
                {| readabilityScore := clampScore readability;
                   clarityScore := clampScore clarity;
                   toneAnalysis := or tone (vstr "Neutral");
                   targetAudience := or audience (vstr "General audience") |};
              suggestions := VArr suggestions;
              ambiguousPhrases := VArr phrases |}
  | _ => Throw (Error (lit "Invalid analysis response structure"))
  end.

(** The body of the [try] block of [parseAnalysisResponse]. *)
Definition parseAnalysisBody (env : Env) (response : value) (originalContent postId : str)
  : result AnalysisResult :=
  content ← extractTextFromResponse response;
  (* [content.substring] and [content.trim] exist on strings only *)
  text ← match content with VStr t => Ok t | _ => Throw TypeError end;
  if negb (ToBoolean content) || (length (trim text) =? 0)%nat
  then Throw (Error (lit "Empty response content from AI provider"))
  else
    analysisData ← parseOrRepair (cleanResponse text);
    buildAnalysis env analysisData originalContent postId.

(** [parseAnalysisResponse]: whatever the body throws is replaced by an
    [AIServiceError] that quotes its message. *)
Definition parseAnalysisResponse (env : Env) (response : value) (originalContent postId : str)
  : result AnalysisResult :=
  match parseAnalysisBody env response originalContent postId with
  | Ok r => Ok r
  | Throw error =>
      Throw (AIServiceError (lit "Failed to parse analysis results" ++ lit ": "
                             ++ messageOf error) None)
  end.

(** [analyzeContent(content, postId)], given what [makeAPICall] comes
    back with: the parsed body of a 2xx reply, or the exception it throws
    (an [AIServiceError] carrying the HTTP status for a non-2xx reply, the
    transport's own error otherwise). *)
Definition analyzeContent (config : AIProviderConfig) (env : Env) (api : result value)
  (content postId : str) : result AnalysisResult :=
  if negb (isConfigured config)
  then Throw (AIServiceError (lit "AI service is not properly configured") None)
  else if negb (truthy (trim content))
  then Throw (AIServiceError (lit "Content cannot be empty") None)
  else
    match (response ← api; parseAnalysisResponse env response content postId) with
    | Ok r => Ok r
    | Throw error =>
        if isAIServiceError error then Throw error
        else Throw (AIServiceError (lit "Failed to analyze content: " ++ messageOf error) None)
    end.

(** ** Suggestions and the connection test *)

(** A chat message of a prompt. *)
Record message : Type := Message {
  role : str;
  msg_content : str
}.

(** [buildSuggestionPrompt(content, context?)] *)
Definition buildSuggestionPrompt (content : str) (context : option str) : list message :=
  let contextText :=
    match context with
    | Some c => if truthy c then [10; 10]%N ++ lit "Context: " ++ c else []
    | None => []
    end in
  [Message (lit "system")
     (lit "You are a helpful writing assistant. Provide concise, actionable suggestions to improve the given text. Focus on clarity, engagement, and effectiveness.");
   Message (lit "user")
     (lit "Please provide a suggestion to improve this text:" ++ contextText ++ [10; 10]%N
      ++ content)].

(** [generateSuggestion(content, context?)], given how [makeAPICall]
    answers a prompt and a token limit.  Every exception of the [try]
    block is replaced by an [AIServiceError] without code. *)
Definition generateSuggestion (config : AIProviderConfig)
  (makeAPICall : list message -> Z -> result value) (content : str) (context : option str)
  : result value :=
  if negb (isConfigured config)
  then Throw (AIServiceError (lit "AI service is not properly configured") None)
  else
    match
      response ← makeAPICall (buildSuggestionPrompt content context) 200%Z;
      extractTextFromResponse response
    with
    | Ok text => Ok text
    | Throw error =>
        Throw (AIServiceError (lit "Failed to generate suggestion: " ++ messageOf error) None)
    end.

Definition testPrompt : list message :=
  [Message (lit "user") (qlit "Please respond with just 'OK' to test the connection.")].

(** [testConnection()]: [text.toLowerCase] exists on strings only. *)
Definition testConnection (config : AIProviderConfig)
  (makeAPICall : list message -> Z -> result value) : bool :=
  if negb (isConfigured config) then false
  else
    match
      response ← makeAPICall testPrompt 10%Z;
      text ← extractTextFromResponse response;
      match text with
      | VStr t => Ok (includes (toLowerCase t) (lit "ok"))
      | _ => Throw TypeError
      end
    with
    | Ok found => found
    | Throw _ => false
    end.

(** ** Provider configurations *)

(** [DEFAULT_AI_PROVIDERS] *)
Definition openai : AIProviderConfig :=
  {| name := lit "OpenAI"; baseUrl := lit "https://api.openai.com/v1"; apiKey := [];
     model := lit "gpt-3.5-turbo"; temperature := Fin (3 # 10); maxTokens := ofZ 1000;
     enabled := false |}.

Definition anthropic : AIProviderConfig :=
  {| name := lit "Anthropic (via OpenAI-compatible)";
     baseUrl := lit "https://api.anthropic.com/v1"; apiKey := [];
     model := lit "claude-3-haiku-20240307"; temperature := Fin (3 # 10);
     maxTokens := ofZ 1000; enabled := false |}.

Definition local : AIProviderConfig :=
  {| name := lit "Local LLM (Ollama)"; baseUrl := lit "http://localhost:11434/v1";
     apiKey := lit "not-required"; model := lit "llama2"; temperature := Fin (3 # 10);
     maxTokens := ofZ 1000; enabled := false |}.

Definition custom : AIProviderConfig :=
  {| name := lit "Custom Provider"; baseUrl := []; apiKey := []; model := [];
     temperature := Fin (3 # 10); maxTokens := ofZ 1000; enabled := false |}.

Definition DEFAULT_AI_PROVIDERS : list AIProviderConfig := [openai; anthropic; local; custom].

(** [validateAIConfig(config)]: [valid] and [errors].  [parsesAsURL] says
    whether [new URL(baseUrl)] returns rather than throws. *)
Definition validateAIConfig (parsesAsURL : str -> bool) (config : AIProviderConfig)
  : bool * list str :=
  let errors := [] in
  let errors :=
    if negb (truthy (baseUrl config)) then errors ++ [lit "Base URL is required"]
    else if parsesAsURL (baseUrl config) then errors
         else errors ++ [lit "Invalid base URL format"] in
  let errors :=
    if negb (truthy (model config)) then errors ++ [lit "Model name is required"]
    else errors in
  let errors :=
    if negb (truthy (apiKey config)) && negb (includes (baseUrl config) (lit "localhost"))
    then errors ++ [lit "API key is required for remote providers"]
    else errors in
  let errors :=
    if Num.lt (temperature config) (ofZ 0) || Num.gt (temperature config) (ofZ 2)
    then errors ++ [lit "Temperature must be between 0 and 2"]
    else errors in
  let errors :=
    if Num.lt (maxTokens config) (ofZ 1) || Num.gt (maxTokens config) (ofZ 4000)
    then errors ++ [lit "Max tokens must be between 1 and 4000"]
    else errors in
  ((length errors =? 0)%nat, errors).

End AIService.

(* ================================================================== *)
(** * Part V. The singleton [AIService] of services/ai.ts *)
(* ================================================================== *)

Module SingletonAIService.

(** [AIConfig] *)
Record AIConfig : Type := {
  apiKey : str;
  model : str;
  temperature : number;
  maxTokens : number;
  verbosity : str
}.

(** The fields of the service that [analyzeContent] reads: whether
    [this.client] is set, and [this.config]. *)
Record service : Type := {
  client : bool;
  config : AIConfig
}.

Definition isConfigured (s : service) : bool :=
  client s && AIService.truthy (apiKey (config s)).

(** [parseAnalysisResponse(analysisText, originalContent)]: the parsed
    fields with defaults, or, when parsing or reading the fields throws,
    an estimate from the text itself.  It never throws. *)
Definition parseAnalysisResponse (env : Env) (analysisText originalContent : str)
  : AnalysisResult :=
  match
    parsed ← JSON.parse analysisText;
    readability ← get parsed "readabilityScore";
    clarity ← get parsed "clarityScore";
    tone ← get parsed "toneAnalysis";
    audience ← get parsed "targetAudience";
    suggestions ← get parsed "suggestions";
    phrases ← get parsed "ambiguousPhrases";
    Ok {| id := lit "analysis-" ++ decimal (dateNow env);
          postId := [];
          timestamp := newDate env;
          metrics :=
            {| readabilityScore := or readability (num 7);
               clarityScore := or clarity (num 7);
               toneAnalysis := or tone (vstr "Neutral");
               targetAudience := or audience (vstr "General audience") |};
          suggestions := or suggestions (VArr []);
          ambiguousPhrases := or phrases (VArr []) |}
  with
  | Ok r => r
  | Throw _ =>
      let wordCount := length (split (Plus true Space) originalContent) in
      let sentences :=
        List.filter AnalysisProcessor.nonBlank
          (split (Plus true (OneOf ".!?")) originalContent) in
      let avgWordsPerSentence :=
        ToNumber (or (VNum (Num.div (ofNat wordCount) (ofNat (length sentences)))) (num 0)) in
      let readabilityScore :=
        Num.min (ofZ 10)
          (Num.max (ofZ 1)
             (Num.sub (ofZ 10) (Num.div (Num.sub avgWordsPerSentence (ofZ 15)) (ofZ 3)))) in
      {| id := lit "analysis-" ++ decimal (dateNow env);
         postId := [];
         timestamp := newDate env;
         metrics :=
           {| readabilityScore := VNum (Num.round readabilityScore);
              clarityScore := num 7;
              toneAnalysis := vstr "Unable to analyze tone";
              targetAudience := vstr "General audience" |};
         suggestions :=
           VArr [VObj [(lit "type", vstr "clarity");
                       (lit "severity", vstr "low");
                       (lit "description",
                        vstr "Analysis could not be completed. Please try again.");
                       (lit "originalText", VStr []);
                       (lit "suggestedText", VStr []);
                       (lit "position", position (ofZ 0) (ofZ 0))]];
         ambiguousPhrases := VArr [] |}
  end.

(** [analyzeContent(content)], given how the throttled request to the
    chat-completions client settles: rejected with the client's error, or
    resolved with a completion, of which the message content of each
    choice is kept ([None] for [null]). *)
Definition analyzeContent (s : service) (env : Env) (request : result (list (option str)))
  (content : str) : result AnalysisResponse :=
  if negb (isConfigured s)
  then Throw (AIServiceError
                (lit "AI service not configured. Please set your OpenAI API key.") None)
  else if negb (AIService.truthy (trim content))
  then Throw (AIServiceError (lit "Content cannot be empty") None)
  else
    match
      choices ← request;
      let analysisText := default [] (mjoin (head choices)) in
      if negb (AIService.truthy analysisText)
      then Throw (AIServiceError (lit "No analysis received from AI service") None)
      else
        let analysisResult := parseAnalysisResponse env analysisText content in
        Ok {| success := true; data := Some analysisResult |}
    with
    | Ok r => Ok r
    | Throw error =>
        if isAIServiceError error then Throw error
        else Throw (AIServiceError (lit "Analysis failed: " ++ messageOf error) None)
    end.

(** ** Chat *)

(** [verbosityInstructions[this.config.verbosity]] in a template: one of
    the three instructions for the three values of the type of
    [verbosity]; for another string that names no property, the text of
    [undefined]. *)
Definition verbosityInstructions (verbosity : str) : str :=
  if bool_decide (verbosity = lit "concise")
  then lit "Keep responses brief and to the point."
  else if bool_decide (verbosity = lit "normal")
  then lit "Provide balanced responses with adequate detail."
  else if bool_decide (verbosity = lit "detailed")
  then lit "Give comprehensive responses with examples and explanations."
  else lit "undefined".

Definition getChatSystemPrompt (s : service) : str :=
  lit "You are a professional writing assistant and editor. Your role is to help users improve their writing through:

1. Answering questions about writing techniques and best practices
2. Providing feedback on content clarity and style
3. Suggesting improvements for readability and engagement
4. Explaining grammar and style rules
5. Helping with content structure and organization

Guidelines:
- " ++ verbosityInstructions (verbosity (config s)) ++ lit "
- Be supportive and constructive in your feedback
- Ask clarifying questions when needed
- Provide specific, actionable advice
- Respect the user's writing style and voice
- Never rewrite content without explicit permission

Maintain a helpful, professional tone while being approachable and encouraging.".

(** The messages sent to the chat-completions client: role and content. *)
Definition openAIMessages (s : service) (messages : list ChatMessage) (newMessage : str)
  : list (str * str) :=
  [(lit "system", getChatSystemPrompt s)]
  ++ map (fun msg => (message_role msg, message_content msg)) messages
  ++ [(lit "user", newMessage)].

(** What a chat call reads from the clock and the random generator: the
    reads of the identifier and the time stamp, and the two reads of
    [Date.now() - Date.now()]. *)
Record ChatEnv : Type := {
  chat_env : Env;
  firstNow : Z;
  secondNow : Z
}.

(** The [responseMessage] both chat methods build. *)
Definition responseMessage (env : ChatEnv) (text : str)
  (context : option (option str * option str)) : ChatMessage :=
  {| message_id := decimal (dateNow (chat_env env)) ++ lit "-" ++ random (chat_env env);
     message_role := lit "assistant";
     message_content := text;
     message_timestamp := newDate (chat_env env);
     message_context := context;
     message_metadata :=
       Some (Some (ofNat (length (split (Plus true Space) text))),
             Some (ofZ (firstNow env - secondNow env))) |}.

(** [sendChatMessage(messages, newMessage, context?)], given how the
    throttled request settles for the messages sent. *)
Definition sendChatMessage (s : service) (env : ChatEnv)
  (request : list (str * str) -> result (list (option str)))
  (messages : list ChatMessage) (newMessage : str)
  (context : option (option str * option str)) : result ChatResponse :=
  if negb (isConfigured s)
  then Throw (AIServiceError
                (lit "AI service not configured. Please set your OpenAI API key.") None)
  else
    match
      choices ← request (openAIMessages s messages newMessage);
      let aiResponse := default [] (mjoin (head choices)) in
      if negb (AIService.truthy aiResponse)
      then Throw (AIServiceError (lit "No response received from AI service") None)
      else
        Ok {| chat_success := true;
              chat_data := Some (responseMessage env aiResponse context, None) |}
    with
    | Ok r => Ok r
    | Throw error =>
        if isAIServiceError error then Throw error
        else Throw (AIServiceError (lit "Chat failed: " ++ messageOf error) None)
    end.

(** The loop over the stream: the response so far and the calls of
    [onChunk] so far, oldest first.  Of each chunk the delta content of
    each choice is kept ([None] for [null] or none). *)
Definition receive (chunks : list (list (option str))) : str * list str :=
  fold_left
    (fun '(fullResponse, calls) chunk =>
       let content := default [] (mjoin (head chunk)) in
       if AIService.truthy content then (fullResponse ++ content, calls ++ [content])
       else (fullResponse, calls))
    chunks ([], []).

(** [streamChatMessage(messages, newMessage, onChunk, context?)]: the
    outcome and the calls of [onChunk].  The request settles with the
    chunks the stream delivers and the error that ends it, if one does. *)
Definition streamChatMessage (s : service) (env : ChatEnv)
  (request : list (str * str) -> result (list (list (option str)) * option error))
  (messages : list ChatMessage) (newMessage : str)
  (context : option (option str * option str)) : result ChatResponse * list str :=
  if negb (isConfigured s)
  then (Throw (AIServiceError
                 (lit "AI service not configured. Please set your OpenAI API key.") None),
        [])
  else
    let rethrow error :=
      if isAIServiceError error then Throw error
      else Throw (AIServiceError (lit "Streaming chat failed: " ++ messageOf error) None) in
    match request (openAIMessages s messages newMessage) with
    | Ok (chunks, failure) =>
        let '(fullResponse, calls) := receive chunks in
        match failure with
        | Some error => (rethrow error, calls)
        | None =>
            (Ok {| chat_success := true;
                   chat_data := Some (responseMessage env fullResponse context, Some true) |},
             calls)
        end
    | Throw error => (rethrow error, [])
    end.

(** ** The request throttler: [rateLimitedRequest] and [processQueue]

    One event is one turn of the event loop, run to its next [await]; all
    clock reads of a turn return the time of the event.  A queued request
    is named by a number. *)

Definition requestInterval : Z := 1000.

(** Where the drain loop of [processQueue] is suspended. *)
Inductive suspension : Type :=
| Idle                      (* no loop is running *)
| Sleeping (wake : Z)       (* in [await new Promise(... setTimeout ...)] *)
| Running (request : nat).  (* in [await request()] *)

Record throttler : Type := {
  rateLimitQueue : list nat;
  isProcessingQueue : bool;
  lastRequestTime : Z;
  loop : suspension;
  clock : Z;                       (* time of the latest event *)
  submitted : list nat;            (* every request pushed, oldest first *)
  dispatched : list (nat * Z);     (* every [request()] call with its time, oldest first *)
  settled : list (nat * bool)      (* what each caller's promise got: resolve or reject *)
}.

Definition initial (now : Z) : throttler :=
  {| rateLimitQueue := []; isProcessingQueue := false; lastRequestTime := 0; loop := Idle;
     clock := now; submitted := []; dispatched := []; settled := [] |}.

(** [const request = this.rateLimitQueue.shift(); if (request) await request()] *)
Definition dispatch (now : Z) (s : throttler) : throttler :=
  match rateLimitQueue s with
  | request :: queue =>
      {| rateLimitQueue := queue; isProcessingQueue := isProcessingQueue s;
         lastRequestTime := lastRequestTime s; loop := Running request; clock := clock s;
         submitted := submitted s; dispatched := dispatched s ++ [(request, now)];
         settled := settled s |}
  | [] =>
      {| rateLimitQueue := []; isProcessingQueue := false;
         lastRequestTime := lastRequestTime s; loop := Idle; clock := clock s;
         submitted := submitted s; dispatched := dispatched s; settled := settled s |}
  end.

(** The head of the [while] loop, up to its first [await]. *)
Definition loopHead (now : Z) (s : throttler) : throttler :=
  match rateLimitQueue s with
  | [] =>
      {| rateLimitQueue := []; isProcessingQueue := false;
         lastRequestTime := lastRequestTime s; loop := Idle; clock := clock s;
         submitted := submitted s; dispatched := dispatched s; settled := settled s |}
  | _ :: _ =>
      let timeSinceLastRequest := (now - lastRequestTime s)%Z in
      if (timeSinceLastRequest <? requestInterval)%Z then
        {| rateLimitQueue := rateLimitQueue s; isProcessingQueue := isProcessingQueue s;
           lastRequestTime := lastRequestTime s;
           loop := Sleeping (now + (requestInterval - timeSinceLastRequest));
           clock := clock s; submitted := submitted s; dispatched := dispatched s;
           settled := settled s |}
      else dispatch now s
  end.

(** [processQueue()] from its entry. *)
Definition processQueue (now : Z) (s : throttler) : throttler :=
  if isProcessingQueue s || (length (rateLimitQueue s) =? 0)%nat then s
  else
    loopHead now
      {| rateLimitQueue := rateLimitQueue s; isProcessingQueue := true;
         lastRequestTime := lastRequestTime s; loop := loop s; clock := clock s;
         submitted := submitted s; dispatched := dispatched s; settled := settled s |}.

(** [rateLimitedRequest(request)]: push, then [processQueue()]. *)
Definition rateLimitedRequest (now : Z) (request : nat) (s : throttler) : throttler :=
  processQueue now
    {| rateLimitQueue := rateLimitQueue s ++ [request];
       isProcessingQueue := isProcessingQueue s; lastRequestTime := lastRequestTime s;
       loop := loop s; clock := clock s; submitted := submitted s ++ [request];
       dispatched := dispatched s; settled := settled s |}.

Inductive event : Type :=
| Enqueue (now : Z) (request : nat)   (* a caller calls [rateLimitedRequest] *)
| TimerFires (now : Z)                (* the [setTimeout] of the loop fires *)
| Settles (now : Z) (ok : bool).      (* the running request resolves or rejects *)

Definition timeOf (e : event) : Z :=
  match e with
  | Enqueue now _ | TimerFires now | Settles now _ => now
  end.

Definition tick (now : Z) (s : throttler) : throttler :=
  {| rateLimitQueue := rateLimitQueue s; isProcessingQueue := isProcessingQueue s;
     lastRequestTime := lastRequestTime s; loop := loop s; clock := now;
     submitted := submitted s; dispatched := dispatched s; settled := settled s |}.

(** One turn.  [None]: the event cannot happen in this state (the clock
    does not run backwards, a timer does not fire early, only a running
    request settles). *)
Definition step (s : throttler) (e : event) : option throttler :=
  if (timeOf e <? clock s)%Z then None
  else
    match e with
    | Enqueue now request => Some (rateLimitedRequest now request (tick now s))
    | TimerFires now =>
        match loop s with
        | Sleeping wake => if (now <? wake)%Z then None else Some (dispatch now (tick now s))
        | _ => None
        end
    | Settles now ok =>
        match loop s with
        | Running request =>
            (* the wrapper resolves or rejects the caller's promise and
               returns normally; then [this.lastRequestTime = Date.now()] *)
            Some (loopHead now
                    {| rateLimitQueue := rateLimitQueue s;
                       isProcessingQueue := isProcessingQueue s;
                       lastRequestTime := now; loop := loop s; clock := now;
                       submitted := submitted s; dispatched := dispatched s;
                       settled := settled s ++ [(request, ok)] |})
        | _ => None
        end
    end.

Fixpoint run (s : throttler) (events : list event) : option throttler :=
  match events with
  | [] => Some s
  | e :: events' =>
      match step s e with
      | Some s' => run s' events'
      | None => None
      end
  end.

End SingletonAIService.

(* ================================================================== *)
(** * Part VI. The orchestrator: [ContentAnalyzer] *)
(* ================================================================== *)

Module ContentAnalyzer.

(** [Post] *)
Record Post : Type := {
  post_id : str;
  title : str;
  content : str;
  excerpt : str;
  tags : list str;
  createdAt : Z;
  updatedAt : Z;
  wordCount : number;
  status : str;
  analysisHistory : list AnalysisResult
}.

(** [this.cache]: a [Map] from cache key to result. *)
Abbreviation Cache := (gmap str AnalysisResult).

Definition cacheTimeout : Z := 5 * 60 * 1000.

(** The loop body of [generateCacheKey]: [hash << 5] and [hash & hash]
    are 32-bit operations. *)
Definition hashStep (hash : Z) (char : N) : Z :=
  toInt32 (toInt32 (hash * 32) - hash + Z.of_N char).

Definition generateCacheKey (content : str) : str :=
  let hash := fold_left hashStep content 0%Z in
  lit "analysis_" ++ decimal (Z.abs hash) ++ lit "_" ++ decimal (Z.of_nat (length content)).

Definition isCacheValid (now : Z) (analysis : AnalysisResult) : bool :=
  (now - timestamp analysis <? cacheTimeout)%Z.

(** [clearExpiredCache()] at time [now]. *)
Definition clearExpiredCache (now : Z) (cache : Cache) : Cache :=
  filter (fun kv => ¬ (cacheTimeout < now - timestamp (snd kv))%Z) cache.

(** What one call observes of the world outside the analyzer. *)
Record World : Type := {
  checkTime : Z;                           (* [Date.now()] in [isCacheValid] *)
  aiService : SingletonAIService.service;  (* the state of the imported [aiService] *)
  request : result (list (option str));    (* how the provider request settles *)
  providerEnv : Env;                       (* clock and random reads of the provider path *)
  successDate : Z;                         (* [new Date()] of the stored result *)
  fallbackEnv : Env                        (* clock and random reads of the fallback *)
}.

Definition createBasicAnalysis (env : Env) (content : str) (postId : option str)
  : AnalysisResult :=
  AnalysisProcessor.createBasicAnalysis env content postId.

(** The [try] block shared by [analyzePost] and [analyzeContent]: the
    provider's data, or the exception that sends the call to the
    fallback. *)
Definition providerData (w : World) (content : str) : result AnalysisResult :=
  response ← SingletonAIService.analyzeContent (aiService w) (providerEnv w) (request w) content;
  match success response, data response with
  | true, Some d => Ok d
  | _, _ => Throw (Error (lit "AI analysis failed"))
  end.

(** [analyzeContent(content, postId?)]: the result or exception, and the
    cache afterwards. *)
Definition analyzeContent (w : World) (cache : Cache) (content : str) (postId : option str)
  : result AnalysisResult * Cache :=
  if negb (AIService.truthy (trim content))
  then (Throw (Error (lit "Cannot analyze empty content")), cache)
  else
    let cacheKey := generateCacheKey content in
    let cached := cache !! cacheKey in
    match cached with
    | Some c =>
        if isCacheValid (checkTime w) c
        then (Ok (withPostId c (postIdOrEmpty postId)), cache)
        else
          match providerData w content with
          | Ok d =>
              let analysisResult :=
                withPostIdTimestamp d (postIdOrEmpty postId) (successDate w) in
              (Ok analysisResult, <[cacheKey := analysisResult]> cache)
          | Throw _ => (Ok (createBasicAnalysis (fallbackEnv w) content postId), cache)
          end
    | None =>
        match providerData w content with
        | Ok d =>
            let analysisResult :=
              withPostIdTimestamp d (postIdOrEmpty postId) (successDate w) in
            (Ok analysisResult, <[cacheKey := analysisResult]> cache)
        | Throw _ => (Ok (createBasicAnalysis (fallbackEnv w) content postId), cache)
        end
    end.

(** [analyzePost(post)] *)
Definition analyzePost (w : World) (cache : Cache) (post : Post)
  : result AnalysisResult * Cache :=
  if negb (AIService.truthy (trim (content post)))
  then (Throw (Error (lit "Cannot analyze empty content")), cache)
  else
    let cacheKey := generateCacheKey (content post) in
    let cached := cache !! cacheKey in
    match cached with
    | Some c =>
        if isCacheValid (checkTime w) c
        then (Ok (withPostId c (post_id post)), cache)
        else
          match providerData w (content post) with
          | Ok d =>
              let analysisResult := withPostIdTimestamp d (post_id post) (successDate w) in
              (Ok analysisResult, <[cacheKey := analysisResult]> cache)
          | Throw _ =>
              (Ok (createBasicAnalysis (fallbackEnv w) (content post) (Some (post_id post))),
               cache)
          end
    | None =>
        match providerData w (content post) with
        | Ok d =>
            let analysisResult := withPostIdTimestamp d (post_id post) (successDate w) in
            (Ok analysisResult, <[cacheKey := analysisResult]> cache)
        | Throw _ =>
            (Ok (createBasicAnalysis (fallbackEnv w) (content post) (Some (post_id post))),
             cache)
        end
    end.

(** [createFallbackAnalysis(post)] *)
Definition createFallbackAnalysis (env : Env) (post : Post) : AnalysisResult :=
  createBasicAnalysis env (content post) (Some (post_id post)).

(** [clearCache()] *)
Definition clearCache (cache : Cache) : Cache := ∅.

(** [getCacheSize()] *)
Definition getCacheSize (cache : Cache) : nat := size cache.

End ContentAnalyzer.

(* ================================================================== *)
(** * Part VI-b. The application state: [AppProvider] *)
(* ================================================================== *)

Module AppProvider.

Import ContentAnalyzer.

(** [UserSettings], with the AI provider of this version. *)
Record UserSettings : Type := {
  theme : str;
  autoSave : bool;
  analysisThreshold : number;
  defaultVerbosity : str;
  shortcuts : list (str * str);
  aiProvider : AIService.AIProviderConfig
}.

(** [AppState] *)
Record AppState : Type := {
  posts : list Post;
  currentPost : option Post;
  chatConversations : list ChatConversation;
  currentConversation : option ChatConversation;
  isAnalyzing : bool;
  isLoading : bool;
  error : option str;
  settings : UserSettings;
  aiError : option str
}.

(** [AppAction] *)
Inductive AppAction : Type :=
| SET_POSTS (payload : list Post)
| ADD_POST (payload : Post)
| UPDATE_POST (payload : Post)
| DELETE_POST (payload : str)
| SET_CURRENT_POST (payload : option Post)
| SET_CONVERSATIONS (payload : list ChatConversation)
| ADD_CONVERSATION (payload : ChatConversation)
| UPDATE_CONVERSATION (payload : ChatConversation)
| DELETE_CONVERSATION (payload : str)
| SET_CURRENT_CONVERSATION (payload : option ChatConversation)
| SET_ANALYZING (payload : bool)
| SET_LOADING (payload : bool)
| SET_ERROR (payload : option str)
| SET_SETTINGS (payload : UserSettings)
| SET_ANALYSIS_RESULT (postId : str) (result : AnalysisResult)
| UPDATE_AI_SETTINGS (payload : AIService.AIProviderConfig)
| SET_AI_ERROR (payload : option str).

Definition defaultSettings : UserSettings :=
  {| theme := lit "system"; autoSave := true; analysisThreshold := ofZ 50;
     defaultVerbosity := lit "normal"; shortcuts := []; aiProvider := AIService.openai |}.

Definition initialState : AppState :=
  {| posts := []; currentPost := None; chatConversations := []; currentConversation := None;
     isAnalyzing := false; isLoading := false; error := None; settings := defaultSettings;
     aiError := None |}.

(** [{ ...post, analysisHistory: [...post.analysisHistory, result] }] *)
Definition withAnalysis (post : Post) (result : AnalysisResult) : Post :=
  {| post_id := post_id post; title := title post; content := content post;
     excerpt := excerpt post; tags := tags post; createdAt := createdAt post;
     updatedAt := updatedAt post; wordCount := wordCount post; status := status post;
     analysisHistory := analysisHistory post ++ [result] |}.

(** [state.currentPost?.id === id] *)
Definition isCurrentPost (state : AppState) (id : str) : bool :=
  match currentPost state with
  | Some post => bool_decide (post_id post = id)
  | None => false
  end.

Definition isCurrentConversation (state : AppState) (id : str) : bool :=
  match currentConversation state with
  | Some conv => bool_decide (conversation_id conv = id)
  | None => false
  end.

(** [{ ...state, posts, currentPost }] and the like. *)
Definition withPosts (state : AppState) (ps : list Post) (current : option Post) : AppState :=
  {| posts := ps; currentPost := current; chatConversations := chatConversations state;
     currentConversation := currentConversation state; isAnalyzing := isAnalyzing state;
     isLoading := isLoading state; error := error state; settings := settings state;
     aiError := aiError state |}.

Definition withConversations (state : AppState) (cs : list ChatConversation)
  (current : option ChatConversation) : AppState :=
  {| posts := posts state; currentPost := currentPost state; chatConversations := cs;
     currentConversation := current; isAnalyzing := isAnalyzing state;
     isLoading := isLoading state; error := error state; settings := settings state;
     aiError := aiError state |}.

Definition withFlags (state : AppState) (analyzing loading : bool)
  (err : option str) (st : UserSettings) (aiErr : option str) : AppState :=
  {| posts := posts state; currentPost := currentPost state;
     chatConversations := chatConversations state;
     currentConversation := currentConversation state; isAnalyzing := analyzing;
     isLoading := loading; error := err; settings := st; aiError := aiErr |}.

Definition appReducer (state : AppState) (action : AppAction) : AppState :=
  match action with
  | SET_POSTS payload => withPosts state payload (currentPost state)
  | ADD_POST payload => withPosts state (posts state ++ [payload]) (currentPost state)
  | UPDATE_POST payload =>
      withPosts state
        (map (fun post => if bool_decide (post_id post = post_id payload) then payload else post)
           (posts state))
        (if isCurrentPost state (post_id payload) then Some payload else currentPost state)
  | DELETE_POST payload =>
      withPosts state
        (List.filter (fun post => negb (bool_decide (post_id post = payload))) (posts state))
        (if isCurrentPost state payload then None else currentPost state)
  | SET_CURRENT_POST payload => withPosts state (posts state) payload
  | SET_CONVERSATIONS payload => withConversations state payload (currentConversation state)
  | ADD_CONVERSATION payload =>
      withConversations state (chatConversations state ++ [payload])
        (currentConversation state)
  | UPDATE_CONVERSATION payload =>
      withConversations state
        (map (fun conv =>
                if bool_decide (conversation_id conv = conversation_id payload)
                then payload else conv)
           (chatConversations state))
        (if isCurrentConversation state (conversation_id payload) then Some payload
         else currentConversation state)
  | DELETE_CONVERSATION payload =>
      withConversations state
        (List.filter (fun conv => negb (bool_decide (conversation_id conv = payload)))
           (chatConversations state))
        (if isCurrentConversation state payload then None else currentConversation state)
  | SET_CURRENT_CONVERSATION payload =>
      withConversations state (chatConversations state) payload
  | SET_ANALYZING payload =>
      withFlags state payload (isLoading state) (error state) (settings state) (aiError state)
  | SET_LOADING payload =>
      withFlags state (isAnalyzing state) payload (error state) (settings state)
        (aiError state)
  | SET_ERROR payload =>
      withFlags state (isAnalyzing state) (isLoading state) payload (settings state)
        (aiError state)
  | SET_SETTINGS payload =>
      withFlags state (isAnalyzing state) (isLoading state) (error state) payload
        (aiError state)
  | SET_ANALYSIS_RESULT postId result =>
      withPosts state
        (map (fun post =>
                if bool_decide (post_id post = postId) then withAnalysis post result else post)
           (posts state))
        (match currentPost state with
         | Some post =>
             if bool_decide (post_id post = postId) then Some (withAnalysis post result)
             else Some post
         | None => None
         end)
  | UPDATE_AI_SETTINGS payload =>
      withFlags state (isAnalyzing state) (isLoading state) (error state)
        {| theme := theme (settings state); autoSave := autoSave (settings state);
           analysisThreshold := analysisThreshold (settings state);
           defaultVerbosity := defaultVerbosity (settings state);
           shortcuts := shortcuts (settings state); aiProvider := payload |}
        (aiError state)
  | SET_AI_ERROR payload =>
      withFlags state (isAnalyzing state) (isLoading state) (error state) (settings state)
        payload
  end.

(** The state after the actions a callback dispatched, none other
    coming in between. *)
Definition dispatchAll (state : AppState) (actions : list AppAction) : AppState :=
  fold_left appReducer actions state.

(** [generateId()] *)
Definition generateId (env : Env) : str := decimal (dateNow env) ++ lit "-" ++ random env.

(** [createExcerpt(content, maxLength = 150)] *)
Definition createExcerpt (content : str) (maxLength : nat) : str :=
  if (length content <=? maxLength)%nat then content
  else trim (substring 0 maxLength content) ++ lit "...".

(** [countWords(text)]: the pattern, written [/\\s+/] in the source, is a
    backslash followed by one or more letters [s]. *)
Definition countWords (text : str) : nat :=
  length (List.filter (fun word => (0 <? length word)%nat)
            (split (Seq (C "\") (Plus true (C "s"))) (trim text))).

(** The [analyzeContent] action, for a service with the given
    configuration: what it returns ([None] for [null]) and the actions it
    dispatches, in order.  [api] is what the HTTP call of the service
    comes back with, [savePost] how the storage answers. *)
Definition analyzeContent (state : AppState) (service : AIService.AIProviderConfig)
  (env : Env) (api : result value) (savePost : Post -> result unit) (content postId : str)
  : option AnalysisResult * list AppAction :=
  if negb (AIService.truthy (trim content))
     || Num.lt (ofNat (length (split (Plus true Space) content)))
          (analysisThreshold (settings state))
  then (None, [SET_AI_ERROR (Some (lit "Content too short for analysis"))])
  else
    let started := [SET_ANALYZING true; SET_AI_ERROR None] in
    match AIService.analyzeContent service env api content postId with
    | Ok result =>
        let saved :=
          match find (fun p => bool_decide (post_id p = postId)) (posts state) with
          | Some post => savePost (withAnalysis post result)
          | None => Ok tt
          end in
        match saved with
        | Ok _ =>
            (Some result,
             started ++ [SET_ANALYSIS_RESULT postId result; SET_ANALYZING false])
        | Throw e =>
            (None,
             started ++ [SET_ANALYSIS_RESULT postId result;
                         SET_AI_ERROR (Some (messageOf e)); SET_ANALYZING false])
        end
    | Throw e =>
        (None, started ++ [SET_AI_ERROR (Some (messageOf e)); SET_ANALYZING false])
    end.

End AppProvider.

(* ================================================================== *)
(** * Part VII. Vocabulary of the statements and sample inputs *)
(* ================================================================== *)

(** The cache has an entry for the content that is still valid at the
    time of the check. *)
Definition cacheHit (now : Z) (cache : ContentAnalyzer.Cache) (content : str) : bool :=
  match cache !! ContentAnalyzer.generateCacheKey content with
  | Some c => ContentAnalyzer.isCacheValid now c
  | None => false
  end.

(** Content the analyzer accepts: not empty after trimming. *)
Definition nonEmpty (content : str) : bool := AIService.truthy (trim content).

(** ** Sample calls *)

Module Sample.

Import ContentAnalyzer.

Definition env : Env :=
  {| dateNow := 1700000000000; random := lit "k3j9x0abc"; newDate := 1700000000001 |}.

Definition service (configured : bool) : SingletonAIService.service :=
  {| SingletonAIService.client := configured;
     SingletonAIService.config :=
       {| SingletonAIService.apiKey := lit "sk-test";
          SingletonAIService.model := lit "gpt-4";
          SingletonAIService.temperature := Fin (7 # 10);
          SingletonAIService.maxTokens := ofZ 2000;
          SingletonAIService.verbosity := lit "normal" |} |}.

(** A call whose provider request is rejected by the transport. *)
Definition transportFailure : World :=
  {| checkTime := 1700000000000; aiService := service true;
     request := Throw (Error (lit "Connection error."));
     providerEnv := env; successDate := 1700000000500; fallbackEnv := env |}.

(** A call made while no API key is set. *)
Definition unconfigured : World :=
  {| checkTime := 1700000000000; aiService := service false;
     request := Throw (Error (lit "Connection error."));
     providerEnv := env; successDate := 1700000000500; fallbackEnv := env |}.

Definition content : str := lit "Hello world.".

(** A result stored one minute before the check of the sample calls. *)
Definition stored : AnalysisResult :=
  {| id := lit "analysis-1699999940000"; postId := lit "post-1";
     timestamp := 1699999940000;
     metrics := {| readabilityScore := num 9; clarityScore := num 7;
                   toneAnalysis := vstr "Neutral";
                   targetAudience := vstr "General audience" |};
     suggestions := VArr []; ambiguousPhrases := VArr [] |}.

Definition warmCache : Cache := {[ generateCacheKey content := stored ]}.

(** A cache whose only entry, for the sample content, is an hour old. *)
Definition staleCache : Cache :=
  {[ generateCacheKey content :=
       {| id := id stored; postId := postId stored; timestamp := 1699996400000;
          metrics := metrics stored; suggestions := suggestions stored;
          ambiguousPhrases := ambiguousPhrases stored |} ]}.

Definition post : Post :=
  {| post_id := lit "post-2"; title := lit "Greeting"; ContentAnalyzer.content := content;
     excerpt := lit "Hello"; tags := []; createdAt := 1690000000000;
     updatedAt := 1690000000000; wordCount := ofZ 2; status := lit "draft";
     analysisHistory := [] |}.

End Sample.


(** ** The heuristic scores, as the specification words them *)

(** How many of the thresholds the average strictly exceeds. *)
Definition exceeded (avg : number) (thresholds : list Z) : Z :=
  Z.of_nat (length (List.filter (fun t => Num.gt avg (ofZ t)) thresholds)).

(** Ten, minus two for each of 20, 25 and 30 that the average sentence
    length exceeds, floored at one. *)
Definition readabilityOf (avgWordsPerSentence : number) : Z :=
  Z.max 1 (10 - 2 * exceeded avgWordsPerSentence [20; 25; 30]%Z).

(** Eight, minus one if the average number of sentences per paragraph
    exceeds five, minus one more if the text is a single paragraph of more
    than ten sentences, floored at one. *)
Definition clarityOf (avgSentencesPerParagraph : number) (paragraphs sentences : nat) : Z :=
  Z.max 1
    (8 - (if Num.gt avgSentencesPerParagraph (ofZ 5) then 1 else 0)
       - (if (paragraphs =? 1)%nat && (10 <? sentences)%nat then 1 else 0)).

(** The four keyword counts of [analyzeTone]. *)
Definition formalCount (content : str) : nat :=
  AnalysisProcessor.countIndicators AnalysisProcessor.formalIndicators (toLowerCase content).

Definition casualCount (content : str) : nat :=
  AnalysisProcessor.countIndicators AnalysisProcessor.casualIndicators (toLowerCase content).

Definition technicalCount (content : str) : nat :=
  AnalysisProcessor.countIndicators AnalysisProcessor.technicalIndicators (toLowerCase content).

Definition emotionalCount (content : str) : nat :=
  AnalysisProcessor.countIndicators AnalysisProcessor.emotionalIndicators (toLowerCase content).


(** The position of a suggestion or phrase lies within the content:
    [0 <= start <= end <= content.length]. *)
Definition withinContent (content : str) (item : value) : Prop :=
  exists s e : nat,
    getOpt item "position" = position (ofNat s) (ofNat e)
    /\ (s <= e <= length content)%nat.

(** The sum a matcher keeps constant: index plus remaining length. *)
Definition extent (s : mstate) : nat := (pos s + length (rest s))%nat.

(** A matcher that hands its continuation a state of the same subject. *)
Definition steady (m : (mstate -> option mstate) -> mstate -> option mstate) : Prop :=
  forall k s e, m k s = Some e -> exists s', k s' = Some e /\ extent s' = extent s.

(** A matcher that looks at its continuation only on states of the same
    subject at or after the current position. *)
Definition local (m : (mstate -> option mstate) -> mstate -> option mstate) : Prop :=
  forall k1 k2 s,
    (forall s', extent s' = extent s -> (pos s <= pos s')%nat -> k1 s' = k2 s') ->
    m k1 s = m k2 s.

(** The least number of code units a match of the pattern takes. *)
Fixpoint minLen (r : regex) : nat :=
  match r with
  | Chr _ => 1
  | Seq a b => minLen a + minLen b
  | Alt a b => Nat.min (minLen a) (minLen b)
  | Group _ a => minLen a
  | Eps | Star _ _ | Bol | Eol | WordB => 0
  end.

(** A matcher that hands its continuation a state at least [n] code
    units further. *)
Definition advancing (n : nat) (m : (mstate -> option mstate) -> mstate -> option mstate)
  : Prop :=
  forall k s e, m k s = Some e -> exists s', k s' = Some e /\ (pos s + n <= pos s')%nat.

(** The patterns whose matches the code enumerates. *)
Definition enumeratedPatterns : list regex :=
  [AnalysisProcessor.passivePattern; AnalysisProcessor.wordsPattern;
   AIService.DQuote; C "{"; C "}"; C "["; C "]"]
  ++ map (fun p => fst (fst p)) AnalysisProcessor.ambiguousPatterns
  ++ map AnalysisProcessor.wordPattern
       (AnalysisProcessor.formalIndicators ++ AnalysisProcessor.casualIndicators
        ++ AnalysisProcessor.technicalIndicators ++ AnalysisProcessor.emotionalIndicators).

(** ** Vocabulary for the response parser *)


(** A rational clamped into the interval from 1 to 10. *)
Definition clamp1to10 (q : Q) : Q :=
  if Qltb q 1 then 1%Q else if Qltb 10 q then 10%Q else q.

(** What the parser makes of a provider score: 5 when the value is absent
    or counts as false; when it is a finite number other than zero, that
    number clamped into 1..10, an integer if the number is one. *)
Definition scoreOf (provided score : value) : Prop :=
  (ToBoolean provided = false -> score = num 5)
  /\ (forall q, provided = VNum (Fin q) ->
      exists q', score = VNum (Fin q')
                 /\ (1 <= q' <= 10)%Q
                 /\ (~ (q == 0)%Q -> (q' == clamp1to10 q)%Q)
                 /\ (isInteger (Fin q) -> isInteger (Fin q'))).

(** An HTTP reply body whose first choice has this message content
    (apostrophes standing for double quotes). *)
Definition reply (content : string) : value :=
  VObj [(lit "choices",
         VArr [VObj [(lit "message", VObj [(lit "content", VStr (qlit content))])]])].

(** A reply with a fractional score, a boolean score, a suggestion of an
    unlisted type and severity, and a position outside the five-character
    content it is about. *)
Definition oddReply : value :=
  reply "{'metrics': {'readabilityScore': 7.5, 'clarityScore': true},
 'suggestions': [{'type': 'style', 'severity': 'urgent',
                  'position': {'start': 50, 'end': 2}}]}".


(** A score as the specification wants it: an integer from 1 to 10. *)
Definition integerScore (score : value) : Prop :=
  exists z, (1 <= z <= 10)%Z /\ score = num z.

(** A reply whose readability score is a word, not a number. *)
Definition wordyReply : value :=
  reply "{'metrics': {'readabilityScore': 'high', 'clarityScore': 8},
 'suggestions': []}".

(** ** Vocabulary for the JSON repair *)









(** A reply that is a JSON array around an analysis object, and one that
    is an array of two objects with a closing brace inside a string. *)
Definition wrappedReply : value :=
  reply "[{'metrics': 1, 'suggestions': []}, 7]".

Definition braceInStringReply : value :=
  reply "[{'a': '}'}, {'b': 1}]".

(** ** Vocabulary for the request throttler *)

Section ThrottlerVocabulary.

Import SingletonAIService.

(** Successive times are at least one request interval apart. *)
Fixpoint spaced (times : list Z) : Prop :=
  match times with
  | [] => True
  | t :: later =>
      match head later with
      | Some t' => (t + requestInterval <= t')%Z
      | None => True
      end /\ spaced later
  end.

(** The requests the events enqueue, in order. *)
Definition enqueued (events : list event) : list nat :=
  flat_map (fun e => match e with Enqueue _ r => [r] | _ => [] end) events.

(** An event with the outcome of the request forgotten. *)
Definition eraseOutcome (e : event) : event :=
  match e with
  | Settles now _ => Settles now true
  | _ => e
  end.

(** The event that lets a suspended drain loop go on at once: the running
    request settles, with the outcome [ok] assigns to it, or the timer
    fires when it is due. *)
Definition nextEvent (ok : nat -> bool) (s : throttler) : option event :=
  match loop s with
  | Idle => None
  | Sleeping wake => Some (TimerFires (Z.max wake (clock s)))
  | Running r => Some (Settles (clock s) (ok r))
  end.

(** The events of a drain loop that is left alone, at most [fuel] of them. *)
Fixpoint drainEvents (ok : nat -> bool) (fuel : nat) (s : throttler) : list event :=
  match fuel with
  | O => []
  | S n =>
      match nextEvent ok s with
      | None => []
      | Some e =>
          e :: match step s e with
               | Some s' => drainEvents ok n s'
               | None => []
               end
      end
  end.

(** Two turns per queued request and one for the running one. *)
Definition drain (ok : nat -> bool) (s : throttler) : list event :=
  drainEvents ok (2 * length (rateLimitQueue s) + 1) s.

(** What holds in every state the throttler reaches: the log and the
    queue make up the submissions; the logged times are spaced; the latest
    of them is not after the clock, nor, unless its request is still
    running, after [lastRequestTime]; a sleeping loop wakes one interval
    after [lastRequestTime] and has work queued; an idle one has none. *)
Record Inv (s : throttler) : Prop := {
  inv_fifo : map fst (dispatched s) ++ rateLimitQueue s = submitted s;
  inv_spaced : spaced (map snd (dispatched s));
  inv_last :
    forall t, last (map snd (dispatched s)) = Some t ->
              (t <= clock s)%Z
              /\ match loop s with
                 | Running _ => True
                 | _ => (t <= lastRequestTime s)%Z
                 end;
  inv_loop :
    match loop s with
    | Idle => rateLimitQueue s = [] /\ isProcessingQueue s = false
    | Sleeping wake =>
        wake = (lastRequestTime s + requestInterval)%Z
        /\ rateLimitQueue s <> [] /\ isProcessingQueue s = true
    | Running _ => isProcessingQueue s = true
    end
}.

(** The part of the state the outcomes of requests cannot reach. *)
Definition control (s : throttler) :=
  (rateLimitQueue s, isProcessingQueue s, lastRequestTime s, loop s, clock s, submitted s,
   dispatched s).

(** What is left for the drain loop to do: two turns per queued request
    and one for a running one. *)
Definition turnsLeft (s : throttler) : nat :=
  (2 * length (rateLimitQueue s) + match loop s with Running _ => 1 | _ => 0 end)%nat.

(** Three requests submitted in a burst; the first one fails. *)
Definition burst : list event :=
  [Enqueue 5000 1; Enqueue 5000 2; Enqueue 5001 3; Settles 5200 false; TimerFires 6200;
   Settles 6300 true]%Z.

End ThrottlerVocabulary.

(** ** Vocabulary for the cache of the orchestrator *)

(** The polynomial in 31 over the code units of a text, first unit in the
    highest power, started from [h]. *)
Definition polyHash (content : str) (h : Z) : Z :=
  fold_left (fun acc c => (31 * acc + Z.of_N c)%Z) content h.

(** The cache after a call. *)
Definition cacheAfter (w : ContentAnalyzer.World) (cache : ContentAnalyzer.Cache)
  (content : str) (postId : option str) : ContentAnalyzer.Cache :=
  (ContentAnalyzer.analyzeContent w cache content postId).2.

(** A call whose provider request resolves with this message content
    (apostrophes standing for double quotes), checked and stored at the
    given times. *)
Definition answered (now : Z) (content : string) : ContentAnalyzer.World :=
  {| ContentAnalyzer.checkTime := now;
     ContentAnalyzer.aiService := Sample.service true;
     ContentAnalyzer.request := Ok [Some (qlit content)];
     ContentAnalyzer.providerEnv := Sample.env;
     ContentAnalyzer.successDate := (now + 500)%Z;
     ContentAnalyzer.fallbackEnv := Sample.env |}.

(** ** Vocabulary for the texts a pattern matches *)

(** The words a pattern can match, its assertions ([^], [$], [\b]) left
    aside: every match of the pattern is such a word. *)
Fixpoint lang (r : regex) (w : str) : Prop :=
  match r with
  | Eps | Bol | Eol | WordB => w = []
  | Chr p => exists c, w = [c] /\ p c = true
  | Seq a b => exists u v, w = u ++ v /\ lang a u /\ lang b v
  | Alt a b => lang a w \/ lang b w
  | Star _ a => exists ws, w = concat ws /\ Forall (lang a) ws
  | Group _ a => lang a w
  end.

(** A matcher whose matches are words of [L]: the continuation gets the
    subject that many code units further. *)
Definition sound (m : (mstate -> option mstate) -> mstate -> option mstate)
  (L : str -> Prop) : Prop :=
  forall k s e,
    m k s = Some e ->
    exists w s', L w /\ rest s = w ++ rest s' /\ pos s' = (pos s + length w)%nat
                 /\ k s' = Some e.

(** Equal up to the case of ASCII letters. *)
Definition sameLetters (a b : str) : Prop := map upperAscii a = map upperAscii b.

(** One of the listed words, in any letter case. *)
Definition oneOf (words : list string) (text : str) : Prop :=
  Exists (fun word => sameLetters text (lit word)) words.

(** What the four patterns of [detectAmbiguousPhrases] look for: a vague
    word, or an intensifier, white space and a word. *)
Definition vaguePhrase (text : str) : Prop :=
  oneOf ["a lot"; "lots"; "stuff"; "things"; "maybe"; "perhaps"; "possibly"]%string text
  \/ exists intensifier space word,
       text = intensifier ++ space ++ word
       /\ oneOf ["very"; "really"; "quite"]%string intensifier
       /\ space <> [] /\ forallb isWhiteSpace space = true
       /\ word <> [] /\ forallb isWordChar word = true.

(** An ambiguous-phrase object that carries the text found at its
    position in the content, a vague phrase. *)
Definition phraseAt (content : str) (item : value) : Prop :=
  exists s e : nat,
    getOpt item "position" = position (ofNat s) (ofNat e)
    /\ (s < e <= length content)%nat
    /\ getOpt item "text" = VStr (substring s e content)
    /\ vaguePhrase (substring s e content).

(** The keywords of the four tones. *)
Definition toneKeywords : list string :=
  AnalysisProcessor.formalIndicators ++ AnalysisProcessor.casualIndicators
  ++ AnalysisProcessor.technicalIndicators ++ AnalysisProcessor.emotionalIndicators.

(** The suggestion for long sentences. *)
Definition longSentences (content : str) : value :=
  AnalysisProcessor.suggestion "clarity" "medium"
    (lit "Consider breaking down long sentences for better readability.")
    (lit "Long sentences detected")
    (lit "Try splitting sentences that exceed 25 words.") content.

(** A suggestion whose type and severity are among those of the
    [Suggestion] interface. *)
Definition wellTyped (item : value) : Prop :=
  In (getOpt item "type") (map vstr ["clarity"; "tone"; "structure"; "grammar"]%string)
  /\ In (getOpt item "severity") (map vstr ["low"; "medium"; "high"]%string).

(** The number of maximal runs of code units other than white space in a
    text; [inWord] says whether such a run is under way. *)
Fixpoint runs (inWord : bool) (s : str) : nat :=
  match s with
  | [] => 0
  | c :: t =>
      if isWhiteSpace c then runs false t
      else ((if inWord then 0 else 1) + runs true t)%nat
  end.

(** The number of words of a text. *)
Definition words (s : str) : nat := runs false s.

(** The matcher state after the longest run of code units of a class. *)
Fixpoint consume (p : N -> bool) (pv : option N) (rs : str) (i : nat)
  (cs : list (nat * (nat * nat))) : mstate :=
  match rs with
  | c :: t => if p c then consume p (Some c) t (S i) cs else MState pv rs i cs
  | [] => MState pv [] i cs
  end.

(** ** Sentences and paragraphs of a text *)

(** A full stop, an exclamation mark or a question mark. *)
Definition isTerminator (c : N) : bool := existsb (N.eqb c) (lit ".!?").

(** The number of sentences of a text: of its maximal stretches without
    full stop, exclamation mark and question mark that hold a code unit
    other than white space.  [open] says whether the stretch under way
    holds one already. *)
Fixpoint stretches (open : bool) (s : str) : nat :=
  match s with
  | [] => 0
  | c :: t =>
      if isTerminator c then stretches false t
      else if isWhiteSpace c then stretches open t
      else ((if open then 0 else 1) + stretches true t)%nat
  end.

Definition sentences (s : str) : nat := stretches false s.

(** The number of paragraphs of a text: of its blocks of words, where
    white space with two or more line feeds in it separates two blocks.
    [open] says whether a block is under way, [feeds] counts the line
    feeds of the white space since its last word. *)
Fixpoint blocks (open : bool) (feeds : nat) (s : str) : nat :=
  match s with
  | [] => 0
  | c :: t =>
      if isWhiteSpace c then blocks open (if (c =? 10)%N then S feeds else feeds) t
      else ((if open && (feeds <? 2)%nat then 0 else 1) + blocks true 0 t)%nat
  end.

Definition paragraphs (s : str) : nat := blocks false 0 s.

(** The average of [total] over [parts], zero when there are no parts. *)
Definition average (total parts : nat) : number :=
  if (0 <? parts)%nat then Num.div (ofNat total) (ofNat parts) else ofZ 0.

(** The white space a text starts with has no line feed. *)
Fixpoint noFeed (s : str) : bool :=
  match s with
  | c :: t => if isWhiteSpace c then negb (c =? 10)%N && noFeed t else true
  | [] => true
  end.

(** The matcher state after the last line feed of the white space a text
    starts with, if there is one. *)
Fixpoint afterLastFeed (pv : option N) (rs : str) (i : nat)
  (cs : list (nat * (nat * nat))) : option mstate :=
  match rs with
  | c :: t =>
      if isWhiteSpace c then
        match afterLastFeed (Some c) t (S i) cs with
        | Some e => Some e
        | None => if (c =? 10)%N then Some (MState (Some c) t (S i) cs) else None
        end
      else None
  | [] => None
  end.

(** One sentence of forty words in one paragraph. *)
Definition fortyWords : str := concat (repeat (lit "word ") 39) ++ lit "word.".

(** Twelve sentences of two words each, in one paragraph. *)
Definition twelveSentences : str := concat (repeat (lit "It rains. ") 12).

(** Two paragraphs of one sentence each, with white space around. *)
Definition twoParagraphs : str :=
  [32; 10]%N ++ lit "First one." ++ [10; 32; 9; 10; 10; 32]%N ++ lit "Second one!" ++ [10]%N.

(** ** Vocabulary for the singleton service and its throttler *)

Section SingletonVocabulary.

Import SingletonAIService.

(** The request the drain loop is waiting for, if any. *)
Definition inFlight (s : throttler) : list nat :=
  match loop s with
  | Running r => [r]
  | _ => []
  end.

(** The times at which requests settled, and how, in order. *)
Definition settleTimes (events : list event) : list Z :=
  flat_map (fun e => match e with Settles now _ => [now] | _ => [] end) events.

Definition outcomes (events : list event) : list bool :=
  flat_map (fun e => match e with Settles _ ok => [ok] | _ => [] end) events.

(** What ties a state of the throttler to the turns that led to it. *)
Record Serial (events : list event) (s : throttler) : Prop := {
  ser_order : map fst (settled s) ++ inFlight s = map fst (dispatched s);
  ser_outcomes : map snd (settled s) = outcomes events;
  ser_count : length (settleTimes events) = length (settled s);
  ser_last : forall t, last (settleTimes events) = Some t -> lastRequestTime s = t;
  ser_gap :
    forall k ts td,
      settleTimes events !! k = Some ts -> map snd (dispatched s) !! S k = Some td ->
      (ts + requestInterval <= td)%Z
}.

End SingletonVocabulary.

(** The item the singleton parser reports when it could not read the
    reply. *)
Definition couldNotComplete : value :=
  VObj [(lit "type", vstr "clarity");
        (lit "severity", vstr "low");
        (lit "description", vstr "Analysis could not be completed. Please try again.");
        (lit "originalText", VStr []);
        (lit "suggestedText", VStr []);
        (lit "position", position (ofZ 0) (ofZ 0))].

(** ** Vocabulary for the provider client *)

(** [null] or [undefined]. *)
Definition nullish (v : value) : bool :=
  match v with
  | VUndef | VNull => true
  | _ => false
  end.


(** A text that has the code unit nowhere. *)
Definition without (c : N) (s : str) : Prop := Forall (fun x => x <> c) s.

(** An HTTP client that rejects every call with the given error. *)
Definition failing (e : error) : list AIService.message -> Z -> result value :=
  fun _ _ => Throw e.

(** An HTTP client that answers every call with the given message content
    (apostrophes standing for double quotes). *)
Definition answering (content : string) : list AIService.message -> Z -> result value :=
  fun _ _ => Ok (reply content).

(** A provider configuration with which the service counts as
    configured. *)
Definition configured : AIService.AIProviderConfig :=
  {| AIService.name := lit "OpenAI";
     AIService.baseUrl := lit "https://api.openai.com/v1";
     AIService.apiKey := lit "sk-test";
     AIService.model := lit "gpt-3.5-turbo";
     AIService.temperature := Fin (3 # 10);
     AIService.maxTokens := ofZ 1000;
     AIService.enabled := true |}.

(** A local provider without API key. *)
Definition keyless : AIService.AIProviderConfig :=
  {| AIService.name := lit "Local LLM (Ollama)";
     AIService.baseUrl := lit "http://localhost:11434/v1";
     AIService.apiKey := [];
     AIService.model := lit "llama2";
     AIService.temperature := Fin (3 # 10);
     AIService.maxTokens := ofZ 1000;
     AIService.enabled := true |}.

(** The three complaints of [validateAIConfig] about a field that is
    filled in. *)
Definition rangeErrors : list str :=
  [lit "Invalid base URL format"; lit "Temperature must be between 0 and 2";
   lit "Max tokens must be between 1 and 4000"].

(** A text in which the object [j] stands between a part without opening
    brace and a part without closing brace. *)
Definition framed (j t : str) : Prop :=
  exists pre post, t = pre ++ j ++ post /\ without 123 pre /\ without 125 post.

(** ** Vocabulary for the application state *)

Section AppVocabulary.

Import ContentAnalyzer AppProvider.

(** The open post is one of the posts, and the open conversation one of
    the conversations. *)
Definition inSync (state : AppState) : Prop :=
  (forall post, currentPost state = Some post -> In post (posts state))
  /\ (forall conv,
        currentConversation state = Some conv -> In conv (chatConversations state)).

(** The actions that replace a list, or the open item, by their payload. *)
Definition resets (action : AppAction) : bool :=
  match action with
  | SET_POSTS _ | SET_CURRENT_POST _ | SET_CONVERSATIONS _ | SET_CURRENT_CONVERSATION _ =>
      true
  | _ => false
  end.

(** The actions that add or remove posts. *)
Definition changesPosts (action : AppAction) : bool :=
  match action with
  | SET_POSTS _ | ADD_POST _ | DELETE_POST _ => true
  | _ => false
  end.

(** The identifiers of the posts, in order. *)
Definition postIds (state : AppState) : list str := map post_id (posts state).

(** The gate of the [analyzeContent] action: blank content, or fewer
    pieces between white space than the threshold of the settings. *)
Definition tooShort (state : AppState) (content : str) : bool :=
  negb (nonEmpty content)
  || Num.lt (ofNat (length (split (Plus true Space) content)))
       (analysisThreshold (settings state)).

(** The posts with the result appended to the history of those that have
    the identifier. *)
Definition recorded (state : AppState) (postId : str) (result : AnalysisResult)
  : list Post :=
  map (fun post => if bool_decide (post_id post = postId) then withAnalysis post result
                   else post)
    (posts state).

(** A state with one post, which is open, and a threshold of two. *)
Definition oneOpenPost : AppState :=
  {| posts := [Sample.post]; currentPost := Some Sample.post; chatConversations := [];
     currentConversation := None; isAnalyzing := false; isLoading := false; error := None;
     settings :=
       {| theme := lit "system"; autoSave := true; analysisThreshold := ofZ 2;
          defaultVerbosity := lit "normal"; shortcuts := []; aiProvider := configured |};
     aiError := None |}.

(** A storage that refuses every post. *)
Definition refusing : Post -> result unit :=
  fun _ => Throw (Error (lit "Failed to save post")).

End AppVocabulary.

(** ** Vocabulary for the chat methods *)

Section ChatVocabulary.

Import SingletonAIService.

(** What of the earlier messages reaches the provider. *)
Definition sent (messages : list ChatMessage) : list (str * str) :=
  map (fun msg => (message_role msg, message_content msg)) messages.

(** The text a chunk of a stream contributes: the delta content of its
    first choice, when there is one and it is not empty. *)
Definition delta (chunk : list (option str)) : list str :=
  match chunk with
  | Some (c :: t) :: _ => [c :: t]
  | _ => []
  end.

Definition deltas (chunks : list (list (option str))) : list str :=
  flat_map delta chunks.

(** A successful response that carries a message of the assistant with
    the given text, context and stream mark.  Its word count is at least
    one and at least the number of words of the text; its processing
    time is not positive unless the clock ran backwards. *)
Definition replies (env : ChatEnv) (r : ChatResponse) (text : str)
  (context : option (option str * option str)) (stream : option bool) : Prop :=
  chat_success r = true
  /\ exists msg wc t,
       chat_data r = Some (msg, stream)
       /\ message_role msg = lit "assistant"
       /\ message_content msg = text
       /\ message_context msg = context
       /\ message_metadata msg = Some (Some (ofNat wc), Some (ofZ t))
       /\ (1 <= wc)%nat /\ (words text <= wc)%nat
       /\ (firstNow env <= secondNow env -> t <= 0)%Z.

End ChatVocabulary.

(* ================================================================== *)
(** * Part VIII. Matches lie within the subject *)
(* ================================================================== *)

Section Matcher.

Lemma star_steady g m : steady m -> forall fuel, steady (star g m fuel).
Proof.
  intros Hm fuel. induction fuel as [|n IH]; intros k s e; cbn [star].
  - intros H. exists s. auto.
  - assert (Hagain :
      m (fun s' => if (pos s <? pos s')%nat then star g m n k s' else None) s = Some e ->
      exists s', k s' = Some e /\ extent s' = extent s).
    { intros H. apply Hm in H. destruct H as (s1 & H1 & He1).
      destruct (pos s <? pos s1)%nat; [|discriminate].
      apply IH in H1. destruct H1 as (s2 & H2 & He2).
      exists s2. split; [exact H2 | congruence]. }
    destruct g.
    + destruct (m _ s) as [e'|] eqn:Ha.
      * intros [= <-]. apply Hagain. reflexivity.
      * intros H. exists s. auto.
    + destruct (k s) as [e'|] eqn:Hk.
      * intros [= <-]. exists s. auto.
      * exact Hagain.
Qed.

Lemma mt_steady r : steady (mt r).
Proof.
  induction r as [|p|a IHa b IHb|a IHa b IHb|g a IHa| | | |n a IHa]; intros k s e;
    cbn [mt].
  - intros H. exists s. auto.
  - destruct (rest s) as [|c t] eqn:Hr; [discriminate|].
    destruct (p c); [|discriminate]. intros H.
    eexists. split; [exact H|]. unfold extent. cbn. rewrite Hr. cbn. lia.
  - intros H. apply IHa in H. destruct H as (s1 & H1 & He1).
    apply IHb in H1. destruct H1 as (s2 & H2 & He2).
    exists s2. split; [exact H2 | congruence].
  - destruct (mt a k s) as [e'|] eqn:Ha.
    + intros [= <-]. apply IHa. exact Ha.
    + apply IHb.
  - apply star_steady. exact IHa.
  - destruct (pos s =? 0)%nat; [|discriminate]. intros H. exists s. auto.
  - destruct (rest s); [|discriminate]. intros H. exists s. auto.
  - destruct (xorb _ _); [|discriminate]. intros H. exists s. auto.
  - intros H. apply IHa in H. destruct H as (s1 & H1 & He1).
    eexists. split; [exact H1|]. exact He1.
Qed.

Lemma matchAt_extent r pv rs i m :
  matchAt r pv rs i = Some m ->
  m_index m = i /\ (m_end m + length (m_rest m) = i + length rs)%nat.
Proof.
  unfold matchAt. destruct (mt r Some _) as [e|] eqn:He; [|discriminate].
  intros [= <-]. cbn. split; [reflexivity|].
  apply mt_steady in He. destruct He as (s' & [= ->] & Hext). exact Hext.
Qed.

Lemma search_extent r rs :
  forall pv i m,
    search r pv rs i = Some m ->
    (m_index m <= i + length rs)%nat
    /\ (m_end m + length (m_rest m) <= i + length rs)%nat.
Proof.
  induction rs as [|c t IH]; intros pv i m; cbn.
  - destruct (matchAt r pv [] i) as [m'|] eqn:Hm; [|discriminate].
    intros [= <-]. apply matchAt_extent in Hm. cbn in Hm. lia.
  - destruct (matchAt r pv (c :: t) i) as [m'|] eqn:Hm.
    + intros [= <-]. apply matchAt_extent in Hm. cbn in Hm. lia.
    + intros H. apply IH in H. lia.
Qed.

Lemma matchLoop_within r fuel :
  forall pv rs i,
    Forall (fun m => (m_index m <= i + length rs)%nat) (matchLoop r fuel pv rs i).
Proof.
  induction fuel as [|n IH]; intros pv rs i; cbn; [constructor|].
  destruct (search r pv rs i) as [m|] eqn:Hs; [|constructor].
  apply search_extent in Hs. constructor; [lia|].
  eapply Forall_impl; [apply IH|]. cbn. intros m' Hm'. lia.
Qed.

(** Every match of a pattern starts within the subject. *)
Lemma matchAll_within r s : Forall (fun m => (m_index m <= length s)%nat) (matchAll r s).
Proof. apply (matchLoop_within r (S (length s)) None s 0). Qed.

(** ** The fuel of the matcher is never exhausted *)

Lemma star_local g m : local m -> forall fuel, local (star g m fuel).
Proof.
  intros Hm fuel. induction fuel as [|n IH]; intros k1 k2 s Hk; cbn [star].
  - apply Hk; [reflexivity | lia].
  - assert (Hs : k1 s = k2 s) by (apply Hk; [reflexivity | lia]).
    assert (Ha :
      m (fun s' => if (pos s <? pos s')%nat then star g m n k1 s' else None) s
      = m (fun s' => if (pos s <? pos s')%nat then star g m n k2 s' else None) s).
    { apply Hm. intros s' He Hp. destruct (pos s <? pos s')%nat; [|reflexivity].
      apply IH. intros s'' He' Hp'. apply Hk; [congruence | lia]. }
    rewrite Ha, Hs. reflexivity.
Qed.

Lemma mt_local r : local (mt r).
Proof.
  induction r as [|p|a IHa b IHb|a IHa b IHb|g a IHa| | | |n a IHa]; intros k1 k2 s Hk;
    cbn [mt].
  - apply Hk; [reflexivity | lia].
  - destruct (rest s) as [|c t] eqn:Hr; [reflexivity|].
    destruct (p c); [|reflexivity].
    apply Hk; [unfold extent; cbn; rewrite Hr; cbn; lia | cbn; lia].
  - apply IHa. intros s' He Hp. apply IHb. intros s'' He' Hp'.
    apply Hk; [congruence | lia].
  - rewrite (IHa k1 k2 s Hk), (IHb k1 k2 s Hk). reflexivity.
  - apply star_local; assumption.
  - destruct (pos s =? 0)%nat; [|reflexivity]. apply Hk; [reflexivity | lia].
  - destruct (rest s); [|reflexivity]. apply Hk; [reflexivity | lia].
  - destruct (xorb _ _); [|reflexivity]. apply Hk; [reflexivity | lia].
  - apply IHa. intros s' He Hp. apply Hk; [exact He | exact Hp].
Qed.

(** Any fuel above the remaining length gives the same repetition. *)
Lemma star_fuel g m :
  local m ->
  forall n n' k s,
    (length (rest s) < n)%nat -> (length (rest s) < n')%nat ->
    star g m n k s = star g m n' k s.
Proof.
  intros Hm n. induction n as [|a IH]; intros n' k s Hn Hn'; [lia|].
  destruct n' as [|b]; [lia|]. cbn [star].
  assert (Ha :
    m (fun s' => if (pos s <? pos s')%nat then star g m a k s' else None) s
    = m (fun s' => if (pos s <? pos s')%nat then star g m b k s' else None) s).
  { apply Hm. intros s' He Hp. destruct (pos s <? pos s')%nat eqn:Hlt; [|reflexivity].
    apply Nat.ltb_lt in Hlt. unfold extent in He. apply IH; lia. }
  rewrite Ha. reflexivity.
Qed.

(** The repetition of a pattern does not depend on its fuel. *)
Lemma Star_fuel g a fuel k s :
  (length (rest s) < fuel)%nat -> mt (Star g a) k s = star g (mt a) fuel k s.
Proof.
  intros Hf. cbn [mt]. apply star_fuel; [apply mt_local | lia | exact Hf].
Qed.

Lemma star_advancing g m : advancing 0 m -> forall fuel, advancing 0 (star g m fuel).
Proof.
  intros Hm fuel. induction fuel as [|n IH]; intros k s e; cbn [star].
  - intros H. exists s. split; [exact H | lia].
  - assert (Hagain :
      m (fun s' => if (pos s <? pos s')%nat then star g m n k s' else None) s = Some e ->
      exists s', k s' = Some e /\ (pos s + 0 <= pos s')%nat).
    { intros H. apply Hm in H. destruct H as (s1 & H1 & Hp1).
      destruct (pos s <? pos s1)%nat; [|discriminate].
      apply IH in H1. destruct H1 as (s2 & H2 & Hp2).
      exists s2. split; [exact H2 | lia]. }
    destruct g.
    + destruct (m _ s) as [e'|] eqn:Ha.
      * intros [= <-]. apply Hagain. reflexivity.
      * intros H. exists s. split; [exact H | lia].
    + destruct (k s) as [e'|] eqn:Hk.
      * intros [= <-]. exists s. split; [exact Hk | lia].
      * exact Hagain.
Qed.

Lemma advancing_le n n' m : (n' <= n)%nat -> advancing n m -> advancing n' m.
Proof.
  intros Hle Hm k s e H. apply Hm in H. destruct H as (s' & Hk & Hp).
  exists s'. split; [exact Hk | lia].
Qed.

Lemma mt_advancing r : advancing (minLen r) (mt r).
Proof.
  induction r as [|p|a IHa b IHb|a IHa b IHb|g a IHa| | | |n a IHa]; intros k s e;
    cbn [mt minLen].
  - intros H. exists s. split; [exact H | lia].
  - destruct (rest s) as [|c t] eqn:Hr; [discriminate|].
    destruct (p c); [|discriminate]. intros H.
    eexists. split; [exact H | cbn; lia].
  - intros H. apply IHa in H. destruct H as (s1 & H1 & Hp1).
    apply IHb in H1. destruct H1 as (s2 & H2 & Hp2).
    exists s2. split; [exact H2 | lia].
  - destruct (mt a k s) as [e'|] eqn:Ha.
    + intros [= <-]. apply IHa in Ha. destruct Ha as (s' & Hk & Hp).
      exists s'. split; [exact Hk | lia].
    + intros H. apply IHb in H. destruct H as (s' & Hk & Hp).
      exists s'. split; [exact Hk | lia].
  - apply star_advancing. eapply advancing_le; [|exact IHa]. lia.
  - destruct (pos s =? 0)%nat; [|discriminate]. intros H. exists s. split; [exact H | lia].
  - destruct (rest s); [|discriminate]. intros H. exists s. split; [exact H | lia].
  - destruct (xorb _ _); [|discriminate]. intros H. exists s. split; [exact H | lia].
  - intros H. apply IHa in H. destruct H as (s1 & H1 & Hp1).
    eexists. split; [exact H1 | exact Hp1].
Qed.

Lemma matchAt_advances r pv rs i m :
  matchAt r pv rs i = Some m -> (i + minLen r <= m_end m)%nat.
Proof.
  unfold matchAt. destruct (mt r Some _) as [e|] eqn:He; [|discriminate].
  intros [= <-]. cbn. apply mt_advancing in He. destruct He as (s' & [= ->] & Hp).
  exact Hp.
Qed.

Lemma search_advances r rs :
  forall pv i m,
    search r pv rs i = Some m ->
    (i + minLen r <= m_end m)%nat /\ (m_end m + length (m_rest m) = i + length rs)%nat.
Proof.
  induction rs as [|c t IH]; intros pv i m; cbn.
  - destruct (matchAt r pv [] i) as [m'|] eqn:Hm; [|discriminate].
    intros [= <-]. split; [eapply matchAt_advances; eauto|].
    apply matchAt_extent in Hm. cbn in Hm. lia.
  - destruct (matchAt r pv (c :: t) i) as [m'|] eqn:Hm.
    + intros [= <-]. split; [eapply matchAt_advances; eauto|].
      apply matchAt_extent in Hm. cbn in Hm. lia.
    + intros H. apply IH in H. lia.
Qed.

(** For a pattern that cannot match the empty string, any fuel above the
    subject length gives the same list of matches. *)
Lemma matchLoop_fuel r :
  (1 <= minLen r)%nat ->
  forall n n' pv rs i,
    (length rs < n)%nat -> (length rs < n')%nat ->
    matchLoop r n pv rs i = matchLoop r n' pv rs i.
Proof.
  intros Hmin n. induction n as [|a IH]; intros n' pv rs i Hn Hn'; [lia|].
  destruct n' as [|b]; [lia|]. cbn.
  destruct (search r pv rs i) as [m|] eqn:Hs; [|reflexivity].
  apply search_advances in Hs. f_equal. apply IH; lia.
Qed.

(** None of the patterns whose matches the code enumerates can match the
    empty string. *)
Lemma enumeratedPatterns_advance : Forall (fun r => (1 <= minLen r)%nat) enumeratedPatterns.
Proof.
  unfold enumeratedPatterns. repeat (first [apply Forall_cons; split | apply Forall_nil]);
    vm_compute; lia.
Qed.

End Matcher.

(* ================================================================== *)
(** * Part IX. The orchestrator: cache hits, failures and fallback *)
(* ================================================================== *)

Section Orchestrator.

Import ContentAnalyzer.

Lemma analyzeContent_empty w cache content postId :
  nonEmpty content = false ->
  analyzeContent w cache content postId
  = (Throw (Error (lit "Cannot analyze empty content")), cache).
Proof.
  unfold nonEmpty, analyzeContent. intros ->. reflexivity.
Qed.

Lemma analyzeContent_hit w cache content postId c :
  nonEmpty content = true ->
  cache !! generateCacheKey content = Some c ->
  isCacheValid (checkTime w) c = true ->
  analyzeContent w cache content postId = (Ok (withPostId c (postIdOrEmpty postId)), cache).
Proof.
  unfold nonEmpty, analyzeContent. intros -> -> ->. reflexivity.
Qed.

Lemma analyzeContent_miss w cache content postId :
  nonEmpty content = true ->
  cacheHit (checkTime w) cache content = false ->
  analyzeContent w cache content postId
  = match providerData w content with
    | Ok d =>
        let r := withPostIdTimestamp d (postIdOrEmpty postId) (successDate w) in
        (Ok r, <[generateCacheKey content := r]> cache)
    | Throw _ => (Ok (createBasicAnalysis (fallbackEnv w) content postId), cache)
    end.
Proof.
  unfold nonEmpty, cacheHit, analyzeContent. intros -> Hmiss.
  destruct (cache !! generateCacheKey content) as [c|]; [rewrite Hmiss|]; reflexivity.
Qed.

Lemma analyzePost_hit w cache post c :
  nonEmpty (content post) = true ->
  cache !! generateCacheKey (content post) = Some c ->
  isCacheValid (checkTime w) c = true ->
  analyzePost w cache post = (Ok (withPostId c (post_id post)), cache).
Proof.
  unfold nonEmpty, analyzePost. intros -> -> ->. reflexivity.
Qed.

Lemma analyzePost_miss w cache post :
  nonEmpty (content post) = true ->
  cacheHit (checkTime w) cache (content post) = false ->
  analyzePost w cache post
  = match providerData w (content post) with
    | Ok d =>
        let r := withPostIdTimestamp d (post_id post) (successDate w) in
        (Ok r, <[generateCacheKey (content post) := r]> cache)
    | Throw _ =>
        (Ok (createBasicAnalysis (fallbackEnv w) (content post) (Some (post_id post))), cache)
    end.
Proof.
  unfold nonEmpty, cacheHit, analyzePost. intros -> Hmiss.
  destruct (cache !! generateCacheKey (content post)) as [c|]; [rewrite Hmiss|]; reflexivity.
Qed.

(** An exception of the service is an exception of the provider path. *)
Lemma providerData_throw w content e :
  SingletonAIService.analyzeContent (aiService w) (providerEnv w) (request w) content = Throw e ->
  providerData w content = Throw e.
Proof.
  unfold providerData. intros ->. reflexivity.
Qed.

(** An unconfigured service throws its configuration error. *)
Lemma unconfigured_throws s env req content :
  SingletonAIService.isConfigured s = false ->
  SingletonAIService.analyzeContent s env req content
  = Throw (AIServiceError
             (lit "AI service not configured. Please set your OpenAI API key.") None).
Proof.
  unfold SingletonAIService.analyzeContent. intros ->. reflexivity.
Qed.

(** A rejected request (transport failure) makes the configured service
    throw an [AIServiceError]. *)
Lemma rejected_request_throws s env e content :
  SingletonAIService.isConfigured s = true ->
  nonEmpty content = true ->
  exists msg code,
    SingletonAIService.analyzeContent s env (Throw e) content
    = Throw (AIServiceError msg code).
Proof.
  unfold SingletonAIService.analyzeContent, nonEmpty. intros -> ->. cbn.
  destruct e; cbn; eauto.
Qed.

(** A completion without message content (a malformed response) makes
    the configured service throw. *)
Lemma no_content_throws s env choices content :
  SingletonAIService.isConfigured s = true ->
  nonEmpty content = true ->
  mjoin (head choices) = None ->
  SingletonAIService.analyzeContent s env (Ok choices) content
  = Throw (AIServiceError (lit "No analysis received from AI service") None).
Proof.
  unfold SingletonAIService.analyzeContent, nonEmpty. intros -> -> H. cbn.
  rewrite H. reflexivity.
Qed.

End Orchestrator.

(** C10. On a cache hit (the cache holds an entry under the content's
    key that is younger than the five-minute time-out at the check),
    [analyzeContent] and [analyzePost] return the cached result with only
    [postId] replaced, by the caller's [postId] (the empty string when
    none is given) and by the post's id; every other field is the cached
    one, and the cache is left as it was. *)
Theorem cache_hit_replaces_postId_only
  (w : ContentAnalyzer.World) (cache : ContentAnalyzer.Cache)
  (post : ContentAnalyzer.Post) (postId : option str) (c : AnalysisResult) :
  trim (ContentAnalyzer.content post) <> [] ->
  cache !! ContentAnalyzer.generateCacheKey (ContentAnalyzer.content post) = Some c ->
  (ContentAnalyzer.checkTime w - timestamp c < 5 * 60 * 1000)%Z ->
  exists r r',
    ContentAnalyzer.analyzeContent w cache (ContentAnalyzer.content post) postId
    = (Ok r, cache)
    /\ ContentAnalyzer.analyzePost w cache post = (Ok r', cache)
    /\ Types.postId r = match postId with Some p => p | None => [] end
    /\ Types.postId r' = ContentAnalyzer.post_id post
    /\ id r = id c /\ timestamp r = timestamp c /\ metrics r = metrics c
    /\ suggestions r = suggestions c /\ ambiguousPhrases r = ambiguousPhrases c
    /\ id r' = id c /\ timestamp r' = timestamp c /\ metrics r' = metrics c
    /\ suggestions r' = suggestions c /\ ambiguousPhrases r' = ambiguousPhrases c.
Proof.
  intros Hne Hc Hfresh.
  assert (Hn : nonEmpty (ContentAnalyzer.content post) = true).
  { unfold nonEmpty, AIService.truthy. rewrite bool_decide_eq_false_2; auto. }
  assert (Hv : ContentAnalyzer.isCacheValid (ContentAnalyzer.checkTime w) c = true).
  { unfold ContentAnalyzer.isCacheValid, ContentAnalyzer.cacheTimeout.
    apply Z.ltb_lt. exact Hfresh. }
  exists (withPostId c (postIdOrEmpty postId)), (withPostId c (ContentAnalyzer.post_id post)).
  rewrite (analyzeContent_hit w cache _ postId c Hn Hc Hv).
  rewrite (analyzePost_hit w cache post c Hn Hc Hv).
  destruct postId; cbn; repeat split; reflexivity.
Qed.

Lemma cache_hit_replaces_postId_only_witness :
  exists r r',
    ContentAnalyzer.analyzeContent Sample.transportFailure Sample.warmCache
      (ContentAnalyzer.content Sample.post) (Some (lit "post-9"))
    = (Ok r, Sample.warmCache)
    /\ ContentAnalyzer.analyzePost Sample.transportFailure Sample.warmCache Sample.post
       = (Ok r', Sample.warmCache)
    /\ Types.postId r = lit "post-9"
    /\ Types.postId r' = lit "post-2"
    /\ id r = id Sample.stored /\ timestamp r = timestamp Sample.stored
    /\ metrics r = metrics Sample.stored
    /\ suggestions r = suggestions Sample.stored
    /\ ambiguousPhrases r = ambiguousPhrases Sample.stored
    /\ id r' = id Sample.stored /\ timestamp r' = timestamp Sample.stored
    /\ metrics r' = metrics Sample.stored
    /\ suggestions r' = suggestions Sample.stored
    /\ ambiguousPhrases r' = ambiguousPhrases Sample.stored.
Proof.
  apply (cache_hit_replaces_postId_only Sample.transportFailure Sample.warmCache Sample.post
           (Some (lit "post-9")) Sample.stored).
  - vm_compute. discriminate.
  - vm_compute. reflexivity.
  - vm_compute. reflexivity.
Defined.

(** C3, as the code has it.  When the provider path fails on a cache
    miss, [analyzeContent] and [analyzePost] return the heuristic fallback
    result and leave the cache exactly as it was: the failure path ends
    FALLBACK, DONE with no cache write. *)
Theorem fallback_leaves_cache_unchanged
  (w : ContentAnalyzer.World) (cache : ContentAnalyzer.Cache)
  (post : ContentAnalyzer.Post) (postId : option str) (e : error) :
  nonEmpty (ContentAnalyzer.content post) = true ->
  cacheHit (ContentAnalyzer.checkTime w) cache (ContentAnalyzer.content post) = false ->
  ContentAnalyzer.providerData w (ContentAnalyzer.content post) = Throw e ->
  ContentAnalyzer.analyzeContent w cache (ContentAnalyzer.content post) postId
  = (Ok (AnalysisProcessor.createBasicAnalysis (ContentAnalyzer.fallbackEnv w)
           (ContentAnalyzer.content post) postId), cache)
  /\ ContentAnalyzer.analyzePost w cache post
     = (Ok (AnalysisProcessor.createBasicAnalysis (ContentAnalyzer.fallbackEnv w)
              (ContentAnalyzer.content post) (Some (ContentAnalyzer.post_id post))), cache).
Proof.
  intros Hn Hmiss Hthrow. split.
  - rewrite analyzeContent_miss by assumption. rewrite Hthrow. reflexivity.
  - rewrite analyzePost_miss by assumption. rewrite Hthrow. reflexivity.
Qed.

Lemma fallback_leaves_cache_unchanged_witness :
  ContentAnalyzer.analyzeContent Sample.transportFailure Sample.staleCache
    (ContentAnalyzer.content Sample.post) None
  = (Ok (AnalysisProcessor.createBasicAnalysis Sample.env Sample.content None),
     Sample.staleCache)
  /\ ContentAnalyzer.analyzePost Sample.transportFailure Sample.staleCache Sample.post
     = (Ok (AnalysisProcessor.createBasicAnalysis Sample.env Sample.content
              (Some (lit "post-2"))), Sample.staleCache).
Proof.
  apply (fallback_leaves_cache_unchanged Sample.transportFailure Sample.staleCache Sample.post
           None (AIServiceError (lit "Analysis failed: Connection error.") None)).
  - vm_compute. reflexivity.
  - vm_compute. reflexivity.
  - vm_compute. reflexivity.
Defined.

(** C3, counterexample.  The provider request of this call is rejected
    by the transport; the call returns the heuristic fallback result, and
    the cache, empty before, is still empty afterwards: the result was
    not written into it. *)
Lemma fallback_result_not_cached :
  let key := ContentAnalyzer.generateCacheKey Sample.content in
  let fallback := AnalysisProcessor.createBasicAnalysis Sample.env Sample.content None in
  let out := ContentAnalyzer.analyzeContent Sample.transportFailure ∅ Sample.content None in
  ContentAnalyzer.providerData Sample.transportFailure Sample.content
  = Throw (AIServiceError (lit "Analysis failed: Connection error.") None)
  /\ out.1 = Ok fallback
  /\ out.2 !! key = None
  /\ out.2 !! key <> Some fallback.
Proof.
  cbv zeta. split; [vm_compute; reflexivity|].
  split; [vm_compute; reflexivity|].
  assert (H : (ContentAnalyzer.analyzeContent Sample.transportFailure ∅ Sample.content None).2
              = ∅) by (vm_compute; reflexivity).
  rewrite H. rewrite lookup_empty. split; [reflexivity | discriminate].
Qed.

(** C2, as the code has it.  The only exception [analyzeContent] ever
    lets out is the validation error for empty content, raised before the
    cache is consulted, with the cache untouched and no fallback.  On a
    cache miss every exception of the provider path is caught and answered
    with the heuristic fallback result; the configuration error of an
    unconfigured service is one of them. *)
Theorem only_validation_errors_propagate
  (w : ContentAnalyzer.World) (cache : ContentAnalyzer.Cache)
  (content : str) (postId : option str) :
  ((exists e, (ContentAnalyzer.analyzeContent w cache content postId).1 = Throw e)
   <-> nonEmpty content = false)
  /\ (nonEmpty content = false ->
      ContentAnalyzer.analyzeContent w cache content postId
      = (Throw (Error (lit "Cannot analyze empty content")), cache))
  /\ (nonEmpty content = true ->
      cacheHit (ContentAnalyzer.checkTime w) cache content = false ->
      forall e,
        SingletonAIService.analyzeContent (ContentAnalyzer.aiService w)
          (ContentAnalyzer.providerEnv w) (ContentAnalyzer.request w) content = Throw e ->
        ContentAnalyzer.analyzeContent w cache content postId
        = (Ok (AnalysisProcessor.createBasicAnalysis (ContentAnalyzer.fallbackEnv w)
                 content postId), cache))
  /\ (SingletonAIService.isConfigured (ContentAnalyzer.aiService w) = false ->
      SingletonAIService.analyzeContent (ContentAnalyzer.aiService w)
        (ContentAnalyzer.providerEnv w) (ContentAnalyzer.request w) content
      = Throw (AIServiceError
                 (lit "AI service not configured. Please set your OpenAI API key.") None)).
Proof.
  split; [|split; [|split]].
  - destruct (nonEmpty content) eqn:Hn.
    + split; [|discriminate]. intros [e He]. exfalso.
      destruct (cacheHit (ContentAnalyzer.checkTime w) cache content) eqn:Hh.
      * unfold cacheHit in Hh.
        destruct (cache !! ContentAnalyzer.generateCacheKey content) as [c|] eqn:Hc;
          [|discriminate].
        rewrite (analyzeContent_hit w cache content postId c Hn Hc Hh) in He.
        discriminate.
      * rewrite analyzeContent_miss in He by assumption.
        destruct (ContentAnalyzer.providerData w content); discriminate.
    + split; [reflexivity|]. intros _.
      rewrite analyzeContent_empty by assumption. eauto.
  - apply analyzeContent_empty.
  - intros Hn Hmiss e He. rewrite analyzeContent_miss by assumption.
    rewrite (providerData_throw w content e He). reflexivity.
  - apply unconfigured_throws.
Qed.

Lemma only_validation_errors_propagate_witness :
  ContentAnalyzer.analyzeContent Sample.unconfigured Sample.staleCache Sample.content
    (Some (lit "post-9"))
  = (Ok (AnalysisProcessor.createBasicAnalysis Sample.env Sample.content
           (Some (lit "post-9"))), Sample.staleCache)
  /\ ContentAnalyzer.analyzeContent Sample.unconfigured Sample.staleCache (lit "  ") None
     = (Throw (Error (lit "Cannot analyze empty content")), Sample.staleCache).
Proof.
  pose proof (only_validation_errors_propagate Sample.unconfigured Sample.staleCache
                Sample.content (Some (lit "post-9"))) as (_ & _ & Hcaught & Hconf).
  pose proof (only_validation_errors_propagate Sample.unconfigured Sample.staleCache
                (lit "  ") None) as (_ & Hempty & _).
  split.
  - eapply Hcaught.
    + vm_compute. reflexivity.
    + vm_compute. reflexivity.
    + exact (Hconf eq_refl).
  - apply Hempty. vm_compute. reflexivity.
Defined.

(** C2, counterexample.  No API key is set, so the service throws its
    configuration error; yet the call with non-empty content returns
    normally, with the heuristic fallback result. *)
Lemma configuration_error_is_caught :
  SingletonAIService.isConfigured (ContentAnalyzer.aiService Sample.unconfigured) = false
  /\ SingletonAIService.analyzeContent (ContentAnalyzer.aiService Sample.unconfigured)
       Sample.env (ContentAnalyzer.request Sample.unconfigured) Sample.content
     = Throw (AIServiceError
                (lit "AI service not configured. Please set your OpenAI API key.") None)
  /\ ContentAnalyzer.analyzeContent Sample.unconfigured ∅ Sample.content None
     = (Ok (AnalysisProcessor.createBasicAnalysis Sample.env Sample.content None), ∅).
Proof.
  split; [vm_compute; reflexivity|]. split; vm_compute; reflexivity.
Qed.

(* ================================================================== *)
(** * Part X. The heuristic analyzer: tone and positions *)
(* ================================================================== *)





(** ** Positions on the heuristic path *)

Lemma suggestion_within type severity description originalText suggestedText content :
  withinContent content
    (AnalysisProcessor.suggestion type severity description originalText suggestedText content).
Proof.
  exists 0%nat, (length content). split; [reflexivity | lia].
Qed.

Lemma generateBasicSuggestions_within content metrics :
  Forall (withinContent content) (AnalysisProcessor.generateBasicSuggestions content metrics).
Proof.
  unfold AnalysisProcessor.generateBasicSuggestions. cbv zeta.
  repeat match goal with
         | |- Forall _ (if ?b then _ else _) => destruct b
         | |- Forall _ (_ ++ _) => apply Forall_app; split
         | |- Forall _ [_] => constructor; [apply suggestion_within | constructor]
         | |- Forall _ [] => constructor
         end.
Qed.

Lemma ambiguousPhrase_within content reason suggestions m :
  (m_index m <= length content)%nat ->
  withinContent content (AnalysisProcessor.ambiguousPhrase content reason suggestions m).
Proof.
  intros Hm. exists (m_index m), (m_index m + length (matched content m))%nat.
  split; [reflexivity|].
  unfold matched, substring. rewrite length_take, length_drop. lia.
Qed.

Lemma detectAmbiguousPhrases_within content :
  Forall (withinContent content) (AnalysisProcessor.detectAmbiguousPhrases content).
Proof.
  unfold AnalysisProcessor.detectAmbiguousPhrases.
  apply Forall_flat_map, Forall_forall. intros [[pattern reason] suggestions] _.
  apply Forall_map. eapply Forall_impl; [apply matchAll_within|].
  intros m Hm. apply ambiguousPhrase_within. exact Hm.
Qed.

(** The position invariant on the heuristic path: every suggestion and
    every ambiguous phrase of a heuristic analysis has a position with
    [0 <= start <= end <= content.length]. *)
Lemma heuristic_positions_within_content env content postId :
  exists items phrases,
    suggestions (AnalysisProcessor.createBasicAnalysis env content postId) = VArr items
    /\ ambiguousPhrases (AnalysisProcessor.createBasicAnalysis env content postId)
       = VArr phrases
    /\ Forall (withinContent content) items
    /\ Forall (withinContent content) phrases.
Proof.
  do 2 eexists. split; [reflexivity|]. split; [reflexivity|].
  split; [apply generateBasicSuggestions_within | apply detectAmbiguousPhrases_within].
Qed.

(** The scenario of the specification: the intensifier match and the
    vague noun, with their offsets. *)
Example heuristic_scenario :
  AnalysisProcessor.detectAmbiguousPhrases
    (lit "This is a very very simple test sentence with stuff in it.")
  = [AnalysisProcessor.ambiguousPhrase
       (lit "This is a very very simple test sentence with stuff in it.")
       "Vague reference. Be more specific about what you mean."
       ["items"; "elements"; "components"; "specific nouns"]%string
       (RMatch 46 51 [(1, (46, 51))]%nat (Some (cu "f")) (lit " in it."));
     AnalysisProcessor.ambiguousPhrase
       (lit "This is a very very simple test sentence with stuff in it.")
       "Weak intensifiers. Consider stronger, more specific adjectives."
       ["use stronger adjectives"; "be more specific"; "remove unnecessary intensifiers"]%string
       (RMatch 10 19 [(2, (15, 19)); (1, (10, 14))]%nat (Some (cu "y"))
          (lit " simple test sentence with stuff in it."))].
Proof. vm_compute. reflexivity. Qed.

(* ================================================================== *)
(** * Part XI. The response parser: scores, defaults and positions *)
(* ================================================================== *)

Section Parser.

Import AIService.





Lemma Qltb_lt a b : Qltb a b = true <-> (a < b)%Q.
Proof.
  unfold Qltb. rewrite negb_true_iff. split.
  - intros H. apply Qnot_le_lt. intros Hle. apply Qle_bool_iff in Hle. congruence.
  - intros H. destruct (Qle_bool b a) eqn:E; [|reflexivity].
    apply Qle_bool_iff in E. exfalso. eapply Qlt_not_le; eauto.
Qed.

Lemma Qltb_ge a b : Qltb a b = false <-> (b <= a)%Q.
Proof.
  unfold Qltb. rewrite negb_false_iff. apply Qle_bool_iff.
Qed.

Lemma clamp1to10_range q : (1 <= clamp1to10 q <= 10)%Q.
Proof.
  unfold clamp1to10.
  destruct (Qltb q 1) eqn:H1; [split; [apply Qle_refl | discriminate]|].
  destruct (Qltb 10 q) eqn:H2; [split; [discriminate | apply Qle_refl]|].
  apply Qltb_ge in H1, H2. split; assumption.
Qed.

Lemma clamp1to10_integer q : isInteger (Fin q) -> isInteger (Fin (clamp1to10 q)).
Proof.
  unfold clamp1to10. intros H.
  destruct (Qltb q 1); [exists 1%Z; reflexivity|].
  destruct (Qltb 10 q); [exists 10%Z; reflexivity | exact H].
Qed.

(** [Math.max(1, Math.min(10, q))] on a finite number. *)
Lemma clamp_number q :
  exists q', Num.max (ofZ 1) (Num.min (ofZ 10) (Fin q)) = Fin q' /\ (q' == clamp1to10 q)%Q.
Proof.
  unfold clamp1to10, Num.max, Num.min, Num.lt, ofZ. cbn [isNaN orb].
  change (inject_Z 10) with 10%Q. change (inject_Z 1) with 1%Q.
  destruct (Qltb q 10) eqn:H10; cbn [isNaN orb];
    [destruct (Qltb 1 q) eqn:H1 | destruct (Qltb 1 10) eqn:H1; [|discriminate] ];
    destruct (Qltb q 1) eqn:E; destruct (Qltb 10 q) eqn:E';
    rewrite ?Qltb_lt, ?Qltb_ge in *;
    eexists; (split; [reflexivity|]); lra.
Qed.

(** What the two bounds do ensure: the default for a value that is
    absent or counts as false, and the interval for a finite number. *)
Lemma clampScore_scoreOf provided : scoreOf provided (clampScore provided).
Proof.
  unfold scoreOf, clampScore, Math_max, Math_min. split.
  - intros Hf. unfold or. rewrite Hf. reflexivity.
  - intros q ->. unfold or. cbn [ToBoolean].
    destruct (Qeq_bool q 0) eqn:Hz; cbn [negb ToNumber num].
    + exists 5%Q. split; [reflexivity|]. split; [split; discriminate|].
      apply Qeq_bool_iff in Hz. split; [intros Hn; contradiction|].
      intros _. exists 5%Z. reflexivity.
    + destruct (clamp_number q) as (q' & Hq' & Heq). rewrite Hq'.
      exists q'. split; [reflexivity|].
      pose proof (clamp1to10_range q) as [Hlo Hhi].
      split; [split; rewrite Heq; assumption|].
      split; [intros _; exact Heq|].
      intros Hint. destruct (clamp1to10_integer q Hint) as [z Hz'].
      exists z. rewrite Heq. exact Hz'.
Qed.

(** C4, on the failing input.  The parser accepts this response, whose
    readability score is the word [high]: the value is not a number, and
    the score stored is neither the default 5 nor an integer from 1 to 10
    but [NaN], which the two bounds [Math.max(1, Math.min(10, ...))] let
    through.  The clarity score 8 of the same response is stored as 8. *)
Theorem score_not_a_number :
  exists r,
    AIService.parseAnalysisResponse Sample.env wordyReply (lit "hello") (lit "post-1") = Ok r
    /\ readabilityScore (metrics r) = VNum NaN
    /\ readabilityScore (metrics r) <> num 5
    /\ ~ integerScore (readabilityScore (metrics r))
    /\ clarityScore (metrics r) = num 8.
Proof.
  eexists. split; [vm_compute; reflexivity|].
  split; [vm_compute; reflexivity|].
  split; [vm_compute; discriminate|].
  split; [|vm_compute; reflexivity].
  intros (z & _ & Hz). vm_compute in Hz. discriminate Hz.
Qed.

(** Two more values the bounds do not turn into what the specification
    wants: the provider's readability score 7.5 is stored as it is, not
    as an integer, and the provider's clarity score [true], which is not
    a number, is stored as 1, not as 5. *)
Lemma fractional_and_boolean_scores :
  exists r q,
    AIService.parseAnalysisResponse Sample.env oddReply (lit "hello") (lit "post-1") = Ok r
    /\ readabilityScore (metrics r) = VNum (Fin q)
    /\ (q == 15 # 2)%Q
    /\ ~ isInteger (Fin q)
    /\ clarityScore (metrics r) = num 1
    /\ clarityScore (metrics r) <> num 5.
Proof.
  eexists. exists (75 # 10)%Q. split; [vm_compute; reflexivity|].
  split; [vm_compute; reflexivity|].
  split; [reflexivity|].
  split; [intros [z Hz]; unfold Qeq in Hz; cbn in Hz; lia|].
  split; [vm_compute; reflexivity | vm_compute; discriminate].
Qed.






(** What the two half-clamps do ensure: a stored start is not below zero
    and a stored end is not above the content length (or it is [NaN]). *)
Lemma clampPosition_half_bounds originalContent pos :
  exists s e,
    clampPosition originalContent pos = position s e
    /\ Num.lt s (ofZ 0) = false
    /\ Num.lt (ofNat (length originalContent)) e = false.
Proof.
  unfold clampPosition, Math_max, Math_min. do 2 eexists. split; [reflexivity|].
  change (ToNumber (num 0)) with (ofZ 0).
  change (ToNumber (VNum (ofNat (length originalContent))))
    with (ofNat (length originalContent)).
  split.
  - match goal with |- context [ToNumber ?x] => generalize (ToNumber x) end. intros y.
    unfold Num.max, Num.lt, ofZ. destruct y as [| |q|]; cbn; try reflexivity.
    destruct (Qltb (inject_Z 0) q) eqn:H; cbn; [|reflexivity].
    apply Qltb_lt in H. apply Qltb_ge. apply Qlt_le_weak. exact H.
  - match goal with |- context [ToNumber ?x] => generalize (ToNumber x) end.
    generalize (length originalContent). intros n y.
    unfold Num.min, Num.lt, ofNat, ofZ. destruct y as [| |q|]; cbn; try reflexivity.
    + destruct (Qltb q (inject_Z (Z.of_nat n))) eqn:H; cbn.
      * apply Qltb_lt in H. apply Qltb_ge. apply Qlt_le_weak. exact H.
      * apply Qltb_ge. apply Qle_refl.
    + apply Qltb_ge. apply Qle_refl.
Qed.

(** C1, on the failing input.  The parser accepts this response about
    the five-character content [hello] and stores the suggestion position
    with start 50 and end 2: the start is above the end and above the
    content length. *)
Theorem position_outside_content :
  exists r o,
    AIService.parseAnalysisResponse Sample.env oddReply (lit "hello") (lit "post-1") = Ok r
    /\ suggestions r = VArr [o]
    /\ getOpt (getOpt o "position") "start" = num 50
    /\ getOpt (getOpt o "position") "end" = num 2
    /\ ~ (0 <= 50 <= 2 /\ 2 <= Z.of_nat (length (lit "hello")))%Z.
Proof.
  do 2 eexists. split; [vm_compute; reflexivity|].
  split; [vm_compute; reflexivity|].
  repeat split; try (vm_compute; reflexivity). lia.
Qed.

End Parser.

(* ================================================================== *)
(** * Part XII. The JSON repair *)
(* ================================================================== *)

Section Repair.

Import AIService.













(** The cleaning comes before the parse: of a reply that is valid JSON
    as it stands, an array around an analysis object, the parser reads
    the object inside; and a reply that is a valid array of two objects,
    with a closing brace inside a string, it cuts in the wrong place and
    throws. *)
Lemma cleaning_precedes_parsing :
  JSON.valid (qlit "[{'metrics': 1, 'suggestions': []}, 7]")
  /\ AIService.cleanResponse (qlit "[{'metrics': 1, 'suggestions': []}, 7]")
     = qlit "{'metrics': 1, 'suggestions': []}"
  /\ (exists r,
        AIService.parseAnalysisResponse Sample.env wrappedReply (lit "hello") (lit "post-1")
        = Ok r)
  /\ JSON.valid (qlit "[{'a': '}'}, {'b': 1}]")
  /\ (exists e,
        AIService.parseAnalysisResponse Sample.env braceInStringReply (lit "hello")
          (lit "post-1")
        = Throw e).
Proof.
  split; [eexists; vm_compute; reflexivity|].
  split; [vm_compute; reflexivity|].
  split; [eexists; vm_compute; reflexivity|].
  split; [eexists; vm_compute; reflexivity|].
  eexists; vm_compute; reflexivity.
Qed.


End Repair.

(* ================================================================== *)
(** * Part XIII. The request throttler *)
(* ================================================================== *)

Section Throttler.

Import SingletonAIService.

Lemma spaced_snoc times t :
  spaced (times ++ [t])
  <-> spaced times
      /\ (forall t', last times = Some t' -> (t' + requestInterval <= t)%Z).
Proof.
  induction times as [|a l IH]; cbn.
  - split; [intros _; split; [exact I | discriminate] | intros _; split; exact I].
  - rewrite IH. destruct l as [|b l']; cbn.
    + split.
      * intros [H _]. repeat split; auto. intros t' [= <-]. exact H.
      * intros [_ H]. repeat split; auto. discriminate.
    + change (last (a :: b :: l')) with (last (b :: l')). tauto.
Qed.

Lemma last_snoc_map {A B} (f : A -> B) (l : list A) (x : A) :
  last (map f (l ++ [x])) = Some (f x).
Proof. rewrite map_app. cbn. apply last_snoc. Qed.

Lemma initial_Inv now : Inv (initial now).
Proof. split; cbn; auto. discriminate. Qed.

(** The loop goes on from a state in which it is not suspended: [last]
    is the time of the latest read of the clock into [lastRequestTime]. *)
Lemma dispatch_Inv now s :
  (clock s <= now)%Z -> isProcessingQueue s = true -> rateLimitQueue s <> [] ->
  map fst (dispatched s) ++ rateLimitQueue s = submitted s ->
  spaced (map snd (dispatched s)) ->
  (forall t, last (map snd (dispatched s)) = Some t -> (t + requestInterval <= now)%Z) ->
  Inv (dispatch now (tick now s)).
Proof.
  intros Hclock Hp Hne Hfifo Hsp Hlast. unfold dispatch, tick. cbn.
  destruct (rateLimitQueue s) as [|r q] eqn:Hq; [contradiction|]. split; cbn; auto.
  - rewrite map_app, <- app_assoc. exact Hfifo.
  - rewrite map_app. apply spaced_snoc. split; [exact Hsp | exact Hlast].
  - intros t. rewrite last_snoc_map. intros [= <-]. split; [lia | exact I].
Qed.

Lemma loopHead_Inv now s :
  (clock s = now)%Z -> isProcessingQueue s = true ->
  map fst (dispatched s) ++ rateLimitQueue s = submitted s ->
  spaced (map snd (dispatched s)) ->
  (forall t, last (map snd (dispatched s)) = Some t ->
             (t <= clock s)%Z /\ (t <= lastRequestTime s)%Z) ->
  Inv (loopHead now s).
Proof.
  intros Hclock Hp Hfifo Hsp Hlast. unfold loopHead.
  destruct (rateLimitQueue s) as [|r q] eqn:Hq.
  - split; cbn; auto.
  - destruct (now - lastRequestTime s <? requestInterval)%Z eqn:Hwait.
    + split; cbn; rewrite ?Hq; auto.
      split; [lia|]. split; [discriminate | exact Hp].
    + apply Z.ltb_ge in Hwait.
      replace s with (tick now s) at 1 by (destruct s; cbn in *; subst; reflexivity).
      apply dispatch_Inv; auto.
      * lia.
      * rewrite Hq. discriminate.
      * rewrite Hq. exact Hfifo.
      * intros t Ht. destruct (Hlast t Ht). lia.
Qed.

Lemma step_Inv s e s' : Inv s -> step s e = Some s' -> Inv s'.
Proof.
  intros [Hfifo Hsp Hlast Hloop]. unfold step.
  destruct (timeOf e <? clock s)%Z eqn:Htime; [discriminate|].
  apply Z.ltb_ge in Htime. destruct e as [now r|now|now ok]; cbn in Htime.
  - intros [= <-]. unfold rateLimitedRequest, processQueue. cbn.
    rewrite length_app. cbn. replace (length (rateLimitQueue s) + 1 =? 0)%nat with false
      by (symmetry; apply Nat.eqb_neq; lia).
    rewrite orb_false_r.
    destruct (isProcessingQueue s) eqn:Hp.
    + split; cbn.
      * rewrite app_assoc, Hfifo. reflexivity.
      * exact Hsp.
      * intros t Ht. destruct (Hlast t Ht). split; [lia | assumption].
      * destruct (loop s); [destruct Hloop; discriminate | | exact Hloop].
        destruct Hloop as (Hw & Hq & _). repeat split; auto.
        destruct (rateLimitQueue s); [contradiction | discriminate].
    + assert (Hidle : loop s = Idle).
      { destruct (loop s); intuition congruence. }
      rewrite Hidle in *. destruct Hloop as [Hq _].
      apply loopHead_Inv; cbn; auto.
      * rewrite app_assoc, Hfifo. reflexivity.
      * intros t Ht. destruct (Hlast t Ht). split; [lia | assumption].
  - destruct (loop s) as [|wake|r] eqn:Hl; try discriminate.
    destruct (now <? wake)%Z eqn:Hw; [discriminate|]. apply Z.ltb_ge in Hw.
    intros [= <-]. destruct Hloop as (Hwake & Hq & Hp).
    apply dispatch_Inv; auto.
    intros t Ht. destruct (Hlast t Ht). lia.
  - destruct (loop s) as [|wake|r] eqn:Hl; try discriminate.
    intros [= <-]. apply loopHead_Inv; cbn; auto.
    intros t Ht. destruct (Hlast t Ht). split; lia.
Qed.

Lemma run_Inv events : forall s s', Inv s -> run s events = Some s' -> Inv s'.
Proof.
  induction events as [|e events IH]; intros s s' Hinv; cbn.
  - intros [= <-]. exact Hinv.
  - destruct (step s e) as [s1|] eqn:Hs; [|discriminate].
    apply IH. eapply step_Inv; eauto.
Qed.

(** The loop only moves requests from the queue to the log. *)
Lemma submitted_dispatch now s : submitted (dispatch now s) = submitted s.
Proof. unfold dispatch. destruct (rateLimitQueue s); reflexivity. Qed.

Lemma submitted_loopHead now s : submitted (loopHead now s) = submitted s.
Proof.
  unfold loopHead. destruct (rateLimitQueue s); [reflexivity|].
  destruct (_ <? _)%Z; [reflexivity | apply submitted_dispatch].
Qed.

Lemma submitted_step s e s' :
  step s e = Some s' -> submitted s' = submitted s ++ enqueued [e].
Proof.
  unfold step. destruct (timeOf e <? clock s)%Z; [discriminate|].
  destruct e as [now r|now|now ok]; cbn.
  - intros [= <-]. unfold rateLimitedRequest, processQueue. cbn.
    destruct (_ || _)%bool; [reflexivity|]. rewrite submitted_loopHead. reflexivity.
  - destruct (loop s); try discriminate. destruct (now <? _)%Z; [discriminate|].
    intros [= <-]. rewrite submitted_dispatch, app_nil_r. reflexivity.
  - destruct (loop s); try discriminate.
    intros [= <-]. rewrite submitted_loopHead, app_nil_r. reflexivity.
Qed.

Lemma submitted_run events :
  forall s s', run s events = Some s' -> submitted s' = submitted s ++ enqueued events.
Proof.
  induction events as [|e events IH]; intros s s'; cbn.
  - intros [= <-]. rewrite app_nil_r. reflexivity.
  - destruct (step s e) as [s1|] eqn:Hs; [|discriminate]. intros Hr.
    rewrite (IH _ _ Hr), (submitted_step _ _ _ Hs). cbn [enqueued flat_map].
    rewrite app_nil_r, <- app_assoc. reflexivity.
Qed.

(** Between the first and the last of [n] spaced times lie at least
    [n - 1] intervals. *)
Lemma spaced_span times first final :
  spaced times -> head times = Some first -> last times = Some final ->
  ((Z.of_nat (length times) - 1) * requestInterval <= final - first)%Z.
Proof.
  revert first. induction times as [|a l IH]; intros first Hsp Hh Hl; [discriminate|].
  cbn in Hh. injection Hh as ->. destruct l as [|b l'].
  - cbn in Hl. injection Hl as ->. cbn. lia.
  - destruct Hsp as [Hab Hsp]. cbn in Hab.
    change (last (first :: b :: l')) with (last (b :: l')) in Hl.
    specialize (IH b Hsp eq_refl Hl). cbn [length] in *. unfold requestInterval in *. lia.
Qed.

Lemma control_step s1 s2 e1 e2 :
  control s1 = control s2 -> eraseOutcome e1 = eraseOutcome e2 ->
  option_map control (step s1 e1) = option_map control (step s2 e2).
Proof.
  destruct s1, s2. unfold control. cbn. intros [= -> -> -> -> -> -> ->] He.
  destruct e1 as [now r|now|now ok], e2 as [now' r'|now'|now' ok']; cbn in He;
    try discriminate; injection He as <-; try subst r'; unfold step; cbn;
    destruct (_ <? _)%Z; cbn; try reflexivity.
  - unfold rateLimitedRequest, processQueue. cbn.
    destruct (_ || _)%bool; cbn; [reflexivity|].
    unfold loopHead. cbn. destruct (_ ++ _); cbn; [reflexivity|].
    destruct (_ <? _)%Z; cbn; reflexivity.
  - destruct loop1; cbn; try reflexivity. destruct (_ <? _)%Z; cbn; [reflexivity|].
    unfold dispatch. cbn. destruct rateLimitQueue1; reflexivity.
  - destruct loop1; cbn; try reflexivity.
    unfold loopHead. cbn. destruct rateLimitQueue1; cbn; [reflexivity|].
    destruct (_ <? _)%Z; cbn; reflexivity.
Qed.

Lemma control_run events1 :
  forall events2 s1 s2 s1',
    control s1 = control s2 -> map eraseOutcome events1 = map eraseOutcome events2 ->
    run s1 events1 = Some s1' ->
    exists s2', run s2 events2 = Some s2' /\ control s1' = control s2'.
Proof.
  induction events1 as [|e1 l1 IH]; intros [|e2 l2] s1 s2 s1' Hc He; try discriminate; cbn.
  - intros [= <-]. eauto.
  - injection He as He Hl. pose proof (control_step s1 s2 e1 e2 Hc He) as Hstep.
    destruct (step s1 e1) as [t1|]; [|discriminate].
    destruct (step s2 e2) as [t2|]; [|discriminate].
    assert (Hc' : control t1 = control t2) by (apply (inj Some); exact Hstep).
    intros Hr. eapply IH; eauto.
Qed.

(** Left alone, the drain loop dispatches every queued request, whatever
    the outcome of each request is. *)
Lemma drainEvents_all ok fuel :
  forall s, Inv s -> (turnsLeft s <= fuel)%nat ->
    exists s', run s (drainEvents ok fuel s) = Some s'
               /\ Inv s' /\ loop s' = Idle /\ submitted s' = submitted s.
Proof.
  induction fuel as [|n IH]; intros s Hinv Hfuel; unfold turnsLeft in Hfuel.
  - exists s. cbn. pose proof (inv_loop s Hinv) as Hl.
    destruct (loop s) as [|wake|r]; [auto | | lia].
    destruct Hl as (_ & Hq & _). destruct (rateLimitQueue s); [contradiction | cbn in Hfuel; lia].
  - cbn [drainEvents]. unfold nextEvent.
    destruct (loop s) as [|wake|r] eqn:Hl.
    + exists s. cbn. auto.
    + set (e := TimerFires (Z.max wake (clock s))).
      destruct (step s e) as [s1|] eqn:Hs.
      * destruct (IH s1) as (s' & Hr & Hinv' & Hidle & Hsub).
        -- eapply step_Inv; eauto.
        -- revert Hs. unfold step, e. cbn. rewrite Hl.
           destruct (_ <? _)%Z; [discriminate|]. destruct (_ <? _)%Z; [discriminate|].
           intros [= <-]. unfold turnsLeft, dispatch. cbn.
           destruct (rateLimitQueue s); cbn in *; lia.
        -- exists s'. cbn [run]. rewrite Hs.
           split; [exact Hr|]. split; [exact Hinv'|]. split; [exact Hidle|].
           rewrite Hsub, (submitted_step _ _ _ Hs). apply app_nil_r.
      * exfalso. revert Hs. unfold step, e. cbn. rewrite Hl.
        replace (Z.max wake (clock s) <? clock s)%Z with false by (symmetry; apply Z.ltb_ge; lia).
        replace (Z.max wake (clock s) <? wake)%Z with false by (symmetry; apply Z.ltb_ge; lia).
        discriminate.
    + set (e := Settles (clock s) (ok r)).
      destruct (step s e) as [s1|] eqn:Hs.
      * destruct (IH s1) as (s' & Hr & Hinv' & Hidle & Hsub).
        -- eapply step_Inv; eauto.
        -- revert Hs. unfold step, e. cbn. rewrite Hl.
           destruct (_ <? _)%Z; [discriminate|].
           intros [= <-]. unfold turnsLeft, loopHead. cbn.
           destruct (rateLimitQueue s); cbn in *; [lia|].
           rewrite Z.sub_diag. cbn. lia.
        -- exists s'. cbn [run]. rewrite Hs.
           split; [exact Hr|]. split; [exact Hinv'|]. split; [exact Hidle|].
           rewrite Hsub, (submitted_step _ _ _ Hs). apply app_nil_r.
      * exfalso. revert Hs. unfold step, e. cbn. rewrite Hl.
        rewrite Z.ltb_irrefl. discriminate.
Qed.

End Throttler.

(** C9. From the initial state, after any sequence of turns of the event
    loop: the requests pushed are those enqueued, in order; the requests
    dispatched so far, followed by those still queued, are the requests
    submitted, in submission order (first in, first out); successive
    dispatch times are at least the 1000 ms interval apart, so the first
    and the last of [n] dispatches are at least [n - 1] intervals apart;
    whether requests resolve or reject changes neither what is dispatched
    nor when; and from the state reached, whatever outcome each request
    has, the loop left alone dispatches every submitted request. *)
Theorem throttler_dispatches_in_order
  (start : Z) (events : list SingletonAIService.event) (s : SingletonAIService.throttler) :
  SingletonAIService.run (SingletonAIService.initial start) events = Some s ->
  let times := map snd (SingletonAIService.dispatched s) in
  SingletonAIService.submitted s = enqueued events
  /\ map fst (SingletonAIService.dispatched s) ++ SingletonAIService.rateLimitQueue s
     = SingletonAIService.submitted s
  /\ spaced times
  /\ (forall first final,
        head times = Some first -> last times = Some final ->
        ((Z.of_nat (length times) - 1) * 1000 <= final - first)%Z)
  /\ (forall events',
        map eraseOutcome events' = map eraseOutcome events ->
        exists s',
          SingletonAIService.run (SingletonAIService.initial start) events' = Some s'
          /\ SingletonAIService.dispatched s' = SingletonAIService.dispatched s
          /\ SingletonAIService.rateLimitQueue s' = SingletonAIService.rateLimitQueue s)
  /\ (forall ok : nat -> bool,
        exists s',
          SingletonAIService.run s (drain ok s) = Some s'
          /\ map fst (SingletonAIService.dispatched s') = SingletonAIService.submitted s
          /\ SingletonAIService.rateLimitQueue s' = []
          /\ spaced (map snd (SingletonAIService.dispatched s'))).
Proof.
  intros Hrun. cbv zeta.
  pose proof (run_Inv events _ _ (initial_Inv start) Hrun) as Hinv.
  split; [exact (submitted_run events _ _ Hrun)|].
  split; [exact (inv_fifo s Hinv)|].
  split; [exact (inv_spaced s Hinv)|].
  split; [intros first final; apply spaced_span; exact (inv_spaced s Hinv)|].
  split.
  - intros events' He.
    destruct (control_run events events' (SingletonAIService.initial start)
                (SingletonAIService.initial start) s eq_refl (eq_sym He) Hrun)
      as (s' & Hr & Hc).
    exists s'. split; [exact Hr|]. unfold control in Hc. injection Hc as Hq _ _ _ _ _ Hd.
    split; congruence.
  - intros ok. unfold drain.
    destruct (drainEvents_all ok (2 * length (SingletonAIService.rateLimitQueue s) + 1) s Hinv)
      as (s' & Hr & Hinv' & Hidle & Hsub).
    { unfold turnsLeft. destruct (SingletonAIService.loop s); lia. }
    exists s'. split; [exact Hr|].
    pose proof (inv_loop s' Hinv') as Hl. rewrite Hidle in Hl. destruct Hl as [Hq _].
    pose proof (inv_fifo s' Hinv') as Hf. rewrite Hq, app_nil_r in Hf.
    repeat split; [congruence | exact Hq | exact (inv_spaced s' Hinv')].
Qed.

Lemma throttler_dispatches_in_order_witness :
  exists s,
    SingletonAIService.run (SingletonAIService.initial 5000) burst = Some s
    /\ SingletonAIService.dispatched s = [(1%nat, 5000%Z); (2%nat, 6200%Z)]
    /\ SingletonAIService.rateLimitQueue s = [3%nat]
    /\ let times := map snd (SingletonAIService.dispatched s) in
       SingletonAIService.submitted s = enqueued burst
       /\ map fst (SingletonAIService.dispatched s) ++ SingletonAIService.rateLimitQueue s
          = SingletonAIService.submitted s
       /\ spaced times
       /\ (forall first final,
             head times = Some first -> last times = Some final ->
             ((Z.of_nat (length times) - 1) * 1000 <= final - first)%Z)
       /\ (forall events',
             map eraseOutcome events' = map eraseOutcome burst ->
             exists s',
               SingletonAIService.run (SingletonAIService.initial 5000) events' = Some s'
               /\ SingletonAIService.dispatched s' = SingletonAIService.dispatched s
               /\ SingletonAIService.rateLimitQueue s' = SingletonAIService.rateLimitQueue s)
       /\ (forall ok : nat -> bool,
             exists s',
               SingletonAIService.run s (drain ok s) = Some s'
               /\ map fst (SingletonAIService.dispatched s') = SingletonAIService.submitted s
               /\ SingletonAIService.rateLimitQueue s' = []
               /\ spaced (map snd (SingletonAIService.dispatched s'))).
Proof.
  eexists. split; [vm_compute; reflexivity|].
  split; [reflexivity|]. split; [reflexivity|].
  apply (throttler_dispatches_in_order 5000 burst). vm_compute. reflexivity.
Defined.

(* ================================================================== *)
(** * Part XIV. The cache of the orchestrator *)
(* ================================================================== *)

Section CacheKey.

Import ContentAnalyzer.

Lemma toInt32_range z : (- 2 ^ 31 <= toInt32 z < 2 ^ 31)%Z.
Proof.
  unfold toInt32. pose proof (Z.mod_pos_bound (z + 2 ^ 31) (2 ^ 32)) as H. lia.
Qed.

Lemma toInt32_shift z k : toInt32 (z + k * 2 ^ 32) = toInt32 z.
Proof.
  unfold toInt32. f_equal.
  replace (z + k * 2 ^ 32 + 2 ^ 31)%Z with (z + 2 ^ 31 + k * 2 ^ 32)%Z by lia.
  apply Z.mod_add. lia.
Qed.

Lemma toInt32_decomp z : exists k, toInt32 z = (z + k * 2 ^ 32)%Z.
Proof.
  exists (- ((z + 2 ^ 31) / 2 ^ 32))%Z. unfold toInt32.
  rewrite Z.mod_eq by lia. lia.
Qed.

Lemma toInt32_congr a b :
  (a mod 2 ^ 32 = b mod 2 ^ 32)%Z -> toInt32 a = toInt32 b.
Proof.
  intros H. rewrite !Z.mod_eq in H by lia.
  replace a with (b + (a / 2 ^ 32 - b / 2 ^ 32) * 2 ^ 32)%Z by lia.
  apply toInt32_shift.
Qed.

(** One round of the loop multiplies by 31 and adds the code unit,
    modulo [2^32]. *)
Lemma hashStep_31 h c : hashStep (toInt32 h) c = toInt32 (31 * h + Z.of_N c).
Proof.
  unfold hashStep.
  destruct (toInt32_decomp h) as [k1 ->].
  destruct (toInt32_decomp ((h + k1 * 2 ^ 32) * 32)) as [k2 ->].
  replace ((h + k1 * 2 ^ 32) * 32 + k2 * 2 ^ 32 - (h + k1 * 2 ^ 32) + Z.of_N c)%Z
    with (31 * h + Z.of_N c + (31 * k1 + k2) * 2 ^ 32)%Z by lia.
  apply toInt32_shift.
Qed.

Lemma hash_polyHash content :
  forall h, fold_left hashStep content (toInt32 h) = toInt32 (polyHash content h).
Proof.
  induction content as [|c t IH]; intros h; cbn; [reflexivity|].
  rewrite hashStep_31. apply IH.
Qed.

Lemma generateCacheKey_polyHash content :
  generateCacheKey content
  = lit "analysis_" ++ decimal (Z.abs (toInt32 (polyHash content 0))) ++ lit "_"
    ++ decimal (Z.of_nat (length content)).
Proof.
  unfold generateCacheKey. change 0%Z with (toInt32 0) at 1.
  rewrite hash_polyHash. reflexivity.
Qed.

Lemma polyHash_app a b h : polyHash (a ++ b) h = polyHash b (polyHash a h).
Proof. apply fold_left_app. Qed.

Lemma polyHash_congr s :
  forall h h', (h mod 2 ^ 32 = h' mod 2 ^ 32)%Z ->
               (polyHash s h mod 2 ^ 32 = polyHash s h' mod 2 ^ 32)%Z.
Proof.
  induction s as [|c t IH]; intros h h' H; cbn; [exact H|].
  apply IH. rewrite !Z.mod_eq in H by lia.
  replace (31 * h + Z.of_N c)%Z
    with (31 * h' + Z.of_N c + 31 * (h / 2 ^ 32 - h' / 2 ^ 32) * 2 ^ 32)%Z by lia.
  apply Z.mod_add. lia.
Qed.

(** ** Blank and non-blank content *)

Lemma trimStart_nil s : trimStart s = [] <-> forallb isWhiteSpace s = true.
Proof.
  induction s as [|c t IH]; cbn; [tauto|].
  destruct (isWhiteSpace c); cbn; [exact IH|]. split; discriminate.
Qed.

Lemma trimStart_head s c t : trimStart s = c :: t -> isWhiteSpace c = false.
Proof.
  induction s as [|x s' IH]; cbn; [discriminate|].
  destruct (isWhiteSpace x) eqn:Hx; [exact IH|]. intros [= <- _]. exact Hx.
Qed.

Lemma forallb_rev {A} (p : A -> bool) l : forallb p (rev l) = forallb p l.
Proof.
  induction l as [|x l IH]; cbn; [reflexivity|].
  rewrite forallb_app, IH. cbn. rewrite andb_true_r. apply andb_comm.
Qed.

Lemma trim_nil s : trim s = [] <-> forallb isWhiteSpace s = true.
Proof.
  unfold trim, trimEnd. split.
  - intros H. apply (f_equal (@rev N)) in H. rewrite rev_involutive in H. cbn in H.
    apply trimStart_nil in H. rewrite forallb_rev in H.
    destruct (trimStart s) as [|c t] eqn:Hs; [apply trimStart_nil; exact Hs|].
    apply trimStart_head in Hs. cbn in H. rewrite Hs in H. discriminate.
  - intros H. apply trimStart_nil in H. rewrite H. reflexivity.
Qed.

Lemma nonEmpty_blank s : nonEmpty s = negb (forallb isWhiteSpace s).
Proof.
  unfold nonEmpty, AIService.truthy. destruct (forallb isWhiteSpace s) eqn:H.
  - apply trim_nil in H. rewrite H. reflexivity.
  - case_bool_decide as Ht; [|reflexivity]. apply trim_nil in Ht. congruence.
Qed.

End CacheKey.

(** X1. The cache key is made of the polynomial hash in 31 of the code
    units, reduced to a signed 32-bit integer and taken in absolute value,
    and of the length of the content: a number between 0 and [2^31]
    (inclusive), whatever the content.  Two contents of the same length
    whose polynomials agree modulo [2^32] get the same key. *)
Theorem cache_key_is_polynomial_hash (content : str) :
  let h := toInt32 (polyHash content 0) in
  ContentAnalyzer.generateCacheKey content
  = lit "analysis_" ++ decimal (Z.abs h) ++ lit "_" ++ decimal (Z.of_nat (length content))
  /\ (0 <= Z.abs h <= 2 ^ 31)%Z
  /\ (forall content',
        length content' = length content ->
        (polyHash content' 0 mod 2 ^ 32 = polyHash content 0 mod 2 ^ 32)%Z ->
        ContentAnalyzer.generateCacheKey content' = ContentAnalyzer.generateCacheKey content).
Proof.
  cbv zeta. split; [apply generateCacheKey_polyHash|]. split.
  - pose proof (toInt32_range (polyHash content 0)). lia.
  - intros content' Hlen Hmod. rewrite !generateCacheKey_polyHash, Hlen.
    rewrite (toInt32_congr _ _ Hmod). reflexivity.
Qed.

Lemma cache_key_is_polynomial_hash_witness :
  ContentAnalyzer.generateCacheKey (lit "Hello world.") = lit "analysis_52966902_12"
  /\ ContentAnalyzer.generateCacheKey (lit "BB") = ContentAnalyzer.generateCacheKey (lit "Aa").
Proof.
  split; [vm_compute; reflexivity|].
  apply (cache_key_is_polynomial_hash (lit "Aa")); vm_compute; reflexivity.
Defined.

(** X2. The key does not determine the content: for any texts [p] and
    [s], the contents [p + "Aa" + s] and [p + "BB" + s] differ and have the
    same key.  So while the entry stored for one of them is valid, a call
    for the other is answered with that entry, and the provider is not
    asked. *)
Theorem distinct_contents_share_cache_entry
  (w : ContentAnalyzer.World) (cache : ContentAnalyzer.Cache)
  (p s : str) (postId : option str) (stored : AnalysisResult) :
  let c1 := p ++ lit "Aa" ++ s in
  let c2 := p ++ lit "BB" ++ s in
  c1 <> c2
  /\ ContentAnalyzer.generateCacheKey c1 = ContentAnalyzer.generateCacheKey c2
  /\ (cache !! ContentAnalyzer.generateCacheKey c1 = Some stored ->
      ContentAnalyzer.isCacheValid (ContentAnalyzer.checkTime w) stored = true ->
      ContentAnalyzer.analyzeContent w cache c2 postId
      = (Ok (withPostId stored (postIdOrEmpty postId)), cache)).
Proof.
  cbv zeta.
  assert (Hkey : ContentAnalyzer.generateCacheKey (p ++ lit "Aa" ++ s)
                 = ContentAnalyzer.generateCacheKey (p ++ lit "BB" ++ s)).
  { rewrite !generateCacheKey_polyHash, !length_app. cbn [length lit].
    f_equal. f_equal. f_equal. f_equal. apply toInt32_congr.
    rewrite !polyHash_app. apply polyHash_congr. f_equal. cbn. lia. }
  split; [|split; [exact Hkey|]].
  - intros H. apply app_inv_head in H. discriminate.
  - intros Hc Hv. apply analyzeContent_hit; [|rewrite <- Hkey; exact Hc|exact Hv].
    rewrite nonEmpty_blank, !forallb_app. cbn. rewrite andb_false_r. reflexivity.
Qed.

Lemma distinct_contents_share_cache_entry_witness :
  let cache : ContentAnalyzer.Cache :=
    {[ ContentAnalyzer.generateCacheKey (lit "See Aa.") := Sample.stored ]} in
  ContentAnalyzer.analyzeContent Sample.transportFailure cache (lit "See BB.") None
  = (Ok (withPostId Sample.stored []), cache).
Proof.
  cbv zeta.
  apply (distinct_contents_share_cache_entry Sample.transportFailure _ (lit "See ") (lit ".")
           None Sample.stored).
  - apply lookup_singleton_eq.
  - reflexivity.
Defined.

(** X3. Store, then look up: when a call misses the cache and the
    provider answers, the result returned is the one stored under the key
    of the content; a later call for the same content, checked less than
    five minutes after the stored time stamp, returns that result with the
    caller's [postId], whatever the provider would do, and leaves the
    cache as it is. *)
Theorem stored_analysis_is_served_again
  (w1 w2 : ContentAnalyzer.World) (cache : ContentAnalyzer.Cache)
  (content : str) (p1 p2 : option str) (d : AnalysisResult) :
  nonEmpty content = true ->
  cacheHit (ContentAnalyzer.checkTime w1) cache content = false ->
  ContentAnalyzer.providerData w1 content = Ok d ->
  (ContentAnalyzer.checkTime w2 - ContentAnalyzer.successDate w1 < 5 * 60 * 1000)%Z ->
  let r := withPostIdTimestamp d (postIdOrEmpty p1) (ContentAnalyzer.successDate w1) in
  let cache1 := cacheAfter w1 cache content p1 in
  ContentAnalyzer.analyzeContent w1 cache content p1 = (Ok r, cache1)
  /\ cache1 !! ContentAnalyzer.generateCacheKey content = Some r
  /\ ContentAnalyzer.analyzeContent w2 cache1 content p2
     = (Ok (withPostId r (postIdOrEmpty p2)), cache1).
Proof.
  intros Hne Hmiss Hd Hfresh. cbv zeta. unfold cacheAfter.
  rewrite (analyzeContent_miss _ _ _ _ Hne Hmiss), Hd. cbn.
  split; [reflexivity|]. split; [apply lookup_insert_eq|].
  apply analyzeContent_hit; [exact Hne | apply lookup_insert_eq|].
  unfold ContentAnalyzer.isCacheValid, ContentAnalyzer.cacheTimeout. cbn.
  apply Z.ltb_lt. exact Hfresh.
Qed.

Lemma stored_analysis_is_served_again_witness :
  exists r cache1,
    ContentAnalyzer.analyzeContent (answered 1700000000000 "{'readabilityScore': 9}")
      Sample.staleCache Sample.content (Some (lit "post-1")) = (Ok r, cache1)
    /\ cache1 !! ContentAnalyzer.generateCacheKey Sample.content = Some r
    /\ ContentAnalyzer.analyzeContent Sample.transportFailure cache1 Sample.content None
       = (Ok (withPostId r []), cache1).
Proof.
  eexists. eexists.
  apply (stored_analysis_is_served_again (answered 1700000000000 "{'readabilityScore': 9}")
           Sample.transportFailure Sample.staleCache Sample.content (Some (lit "post-1")) None).
  - reflexivity.
  - reflexivity.
  - vm_compute. reflexivity.
  - vm_compute. reflexivity.
Defined.

(** X4. A call reads and writes the cache under the key of its own
    content only: every other entry is left as it is, no entry is ever
    removed, and the cache grows by at most one entry. *)
Theorem analyze_touches_only_its_key
  (w : ContentAnalyzer.World) (cache : ContentAnalyzer.Cache)
  (content : str) (postId : option str) :
  let cache' := cacheAfter w cache content postId in
  (forall k, k <> ContentAnalyzer.generateCacheKey content -> cache' !! k = cache !! k)
  /\ (forall k, is_Some (cache !! k) -> is_Some (cache' !! k))
  /\ (ContentAnalyzer.getCacheSize cache <= ContentAnalyzer.getCacheSize cache'
      <= S (ContentAnalyzer.getCacheSize cache))%nat.
Proof.
  cbv zeta. unfold cacheAfter, ContentAnalyzer.getCacheSize.
  set (key := ContentAnalyzer.generateCacheKey content).
  assert (Hcases :
    (ContentAnalyzer.analyzeContent w cache content postId).2 = cache
    \/ exists r, (ContentAnalyzer.analyzeContent w cache content postId).2
                 = <[key := r]> cache).
  { unfold ContentAnalyzer.analyzeContent. fold key.
    destruct (negb _); [left; reflexivity|].
    destruct (cache !! key) as [c|].
    - destruct (ContentAnalyzer.isCacheValid _ c); [left; reflexivity|].
      destruct (ContentAnalyzer.providerData w content); [right; eauto | left; reflexivity].
    - destruct (ContentAnalyzer.providerData w content); [right; eauto | left; reflexivity]. }
  destruct Hcases as [-> | [r ->]]; [repeat split; auto|].
  split; [intros k Hk; apply lookup_insert_ne; congruence|]. split.
  - intros k Hk. destruct (decide (key = k)) as [<- | Hne].
    + rewrite lookup_insert_eq. eauto.
    + rewrite lookup_insert_ne by exact Hne. exact Hk.
  - destruct (cache !! key) as [c|] eqn:Hc.
    + rewrite (map_size_insert_Some key r cache); [lia | eauto].
    + rewrite (map_size_insert_None key r cache Hc). lia.
Qed.

Lemma analyze_touches_only_its_key_witness :
  let cache' :=
    cacheAfter (answered 1700000000000 "{'readabilityScore': 9}") Sample.warmCache
      (lit "Another text.") None in
  cache' !! ContentAnalyzer.generateCacheKey Sample.content = Some Sample.stored
  /\ ContentAnalyzer.getCacheSize cache' = 2%nat.
Proof.
  cbv zeta. split.
  - etransitivity;
      [apply (analyze_touches_only_its_key (answered 1700000000000 "{'readabilityScore': 9}")
                Sample.warmCache (lit "Another text.") None)
      | apply lookup_singleton_eq].
    vm_compute. discriminate.
  - vm_compute. reflexivity.
Defined.

Section Sweep.

Import ContentAnalyzer.

Lemma clearExpiredCache_lookup now cache k r :
  clearExpiredCache now cache !! k = Some r
  <-> cache !! k = Some r /\ (now - timestamp r <= cacheTimeout)%Z.
Proof.
  unfold clearExpiredCache. rewrite map_lookup_filter_Some. cbn. split.
  - intros [H1 H2]. split; [exact H1 | lia].
  - intros [H1 H2]. split; [exact H1 | lia].
Qed.

Lemma clearExpiredCache_twice now later cache :
  (now <= later)%Z ->
  clearExpiredCache later (clearExpiredCache now cache) = clearExpiredCache later cache.
Proof.
  intros Hle. apply map_eq. intros k. apply option_eq. intros r.
  rewrite !clearExpiredCache_lookup. split; [tauto|].
  intros [H1 H2]. repeat split; [exact H1 | lia | exact H2].
Qed.

End Sweep.

(** X5. The periodic sweep removes the entries more than five minutes
    old and no other: an entry is there afterwards exactly when it was
    there before with an age of at most five minutes.  It never removes an
    entry that a call at the same time would still serve; an entry exactly
    five minutes old is kept although it is no longer served.  A sweep
    after an earlier sweep leaves what it would have left alone. *)
Theorem sweep_removes_only_expired (now : Z) (cache : ContentAnalyzer.Cache) :
  (forall k r,
     ContentAnalyzer.clearExpiredCache now cache !! k = Some r
     <-> cache !! k = Some r /\ (now - timestamp r <= 5 * 60 * 1000)%Z)
  /\ (forall k r,
        cache !! k = Some r -> ContentAnalyzer.isCacheValid now r = true ->
        ContentAnalyzer.clearExpiredCache now cache !! k = Some r)
  /\ (forall k r,
        cache !! k = Some r -> (now - timestamp r = 5 * 60 * 1000)%Z ->
        ContentAnalyzer.isCacheValid now r = false
        /\ ContentAnalyzer.clearExpiredCache now cache !! k = Some r)
  /\ (forall later,
        (now <= later)%Z ->
        ContentAnalyzer.clearExpiredCache later (ContentAnalyzer.clearExpiredCache now cache)
        = ContentAnalyzer.clearExpiredCache later cache).
Proof.
  split; [intros k r; apply clearExpiredCache_lookup|]. split; [|split].
  - intros k r Hk Hv. apply clearExpiredCache_lookup. split; [exact Hk|].
    unfold ContentAnalyzer.isCacheValid in Hv. apply Z.ltb_lt in Hv. lia.
  - intros k r Hk Hage. split.
    + unfold ContentAnalyzer.isCacheValid, ContentAnalyzer.cacheTimeout.
      apply Z.ltb_ge. lia.
    + apply clearExpiredCache_lookup. split; [exact Hk|].
      unfold ContentAnalyzer.cacheTimeout. lia.
  - intros later Hle. apply clearExpiredCache_twice. exact Hle.
Qed.

Lemma sweep_removes_only_expired_witness :
  ContentAnalyzer.clearExpiredCache 1700000000000 Sample.warmCache
  !! ContentAnalyzer.generateCacheKey Sample.content = Some Sample.stored
  /\ ContentAnalyzer.clearExpiredCache 1700000000000 Sample.staleCache = ∅
  /\ ContentAnalyzer.clearExpiredCache 1700000240000 Sample.warmCache
     !! ContentAnalyzer.generateCacheKey Sample.content = Some Sample.stored
  /\ ContentAnalyzer.isCacheValid 1700000240000 Sample.stored = false.
Proof.
  split; [|split; [vm_compute; reflexivity|]].
  - apply (proj1 (proj2 (sweep_removes_only_expired 1700000000000 Sample.warmCache)));
      [apply lookup_singleton_eq | reflexivity].
  - apply and_comm.
    apply (proj1 (proj2 (proj2 (sweep_removes_only_expired 1700000240000 Sample.warmCache))));
      [apply lookup_singleton_eq | reflexivity].
Defined.

(** X6. A sweep is invisible to callers: a call checked at or after the
    time of the sweep returns the same result, or throws the same error,
    with and without the sweep. *)
Theorem sweep_is_transparent
  (w : ContentAnalyzer.World) (cache : ContentAnalyzer.Cache) (sweepTime : Z)
  (content : str) (postId : option str) :
  (sweepTime <= ContentAnalyzer.checkTime w)%Z ->
  (ContentAnalyzer.analyzeContent w (ContentAnalyzer.clearExpiredCache sweepTime cache)
     content postId).1
  = (ContentAnalyzer.analyzeContent w cache content postId).1.
Proof.
  intros Hle. unfold ContentAnalyzer.analyzeContent.
  destruct (negb _); [reflexivity|].
  set (key := ContentAnalyzer.generateCacheKey content).
  destruct (ContentAnalyzer.clearExpiredCache sweepTime cache !! key) as [c|] eqn:Hs.
  - apply clearExpiredCache_lookup in Hs. destruct Hs as [-> _].
    destruct (ContentAnalyzer.isCacheValid _ c); [reflexivity|].
    destruct (ContentAnalyzer.providerData w content); reflexivity.
  - destruct (cache !! key) as [c|] eqn:Hc.
    + assert (Hold : ContentAnalyzer.isCacheValid (ContentAnalyzer.checkTime w) c = false).
      { unfold ContentAnalyzer.isCacheValid. apply Z.ltb_ge.
        destruct (Z_le_gt_dec (sweepTime - timestamp c) ContentAnalyzer.cacheTimeout)
          as [Hyoung | Hexp]; [|lia].
        assert (Hin : ContentAnalyzer.clearExpiredCache sweepTime cache !! key = Some c)
          by (apply clearExpiredCache_lookup; split; assumption).
        congruence. }
      rewrite Hold. destruct (ContentAnalyzer.providerData w content); reflexivity.
    + destruct (ContentAnalyzer.providerData w content); reflexivity.
Qed.

Lemma sweep_is_transparent_witness :
  (ContentAnalyzer.analyzeContent Sample.transportFailure
     (ContentAnalyzer.clearExpiredCache 1699999990000 Sample.staleCache)
     Sample.content None).1
  = (ContentAnalyzer.analyzeContent Sample.transportFailure Sample.staleCache
       Sample.content None).1.
Proof.
  apply (sweep_is_transparent Sample.transportFailure Sample.staleCache 1699999990000).
  vm_compute. discriminate.
Defined.

(** X7. [analyzePost(post)] is [analyzeContent(post.content, post.id)]:
    the same result or error, and the same cache afterwards, in every
    case. *)
Theorem analyzePost_is_analyzeContent
  (w : ContentAnalyzer.World) (cache : ContentAnalyzer.Cache) (post : ContentAnalyzer.Post) :
  ContentAnalyzer.analyzePost w cache post
  = ContentAnalyzer.analyzeContent w cache (ContentAnalyzer.content post)
      (Some (ContentAnalyzer.post_id post)).
Proof.
  unfold ContentAnalyzer.analyzePost, ContentAnalyzer.analyzeContent.
  destruct (negb _); [reflexivity|].
  destruct (cache !! _) as [c|]; [destruct (ContentAnalyzer.isCacheValid _ c)|];
    try reflexivity; destruct (ContentAnalyzer.providerData _ _); reflexivity.
Qed.

(* ================================================================== *)
(** * Part XV. What a pattern matches *)
(* ================================================================== *)

Section MatcherSound.

Lemma star_sound g m L :
  sound m L ->
  forall fuel, sound (star g m fuel) (fun w => exists ws, w = concat ws /\ Forall L ws).
Proof.
  intros Hm fuel. induction fuel as [|n IH]; intros k s e; cbn [star].
  - intros H. exists [], s. split; [exists []; split; [reflexivity | constructor]|].
    cbn. split; [reflexivity|]. split; [lia | exact H].
  - assert (Hstop : k s = Some e ->
                    exists w s', (exists ws, w = concat ws /\ Forall L ws)
                                 /\ rest s = w ++ rest s'
                                 /\ pos s' = (pos s + length w)%nat /\ k s' = Some e).
    { intros H. exists [], s. split; [exists []; split; [reflexivity | constructor]|].
      cbn. split; [reflexivity|]. split; [lia | exact H]. }
    assert (Hagain :
      m (fun s' => if (pos s <? pos s')%nat then star g m n k s' else None) s = Some e ->
      exists w s', (exists ws, w = concat ws /\ Forall L ws)
                   /\ rest s = w ++ rest s'
                   /\ pos s' = (pos s + length w)%nat /\ k s' = Some e).
    { intros H. apply Hm in H. destruct H as (w1 & s1 & HL & Hr1 & Hp1 & H1).
      destruct (pos s <? pos s1)%nat; [|discriminate].
      apply IH in H1. destruct H1 as (w2 & s2 & (ws & -> & Hws) & Hr2 & Hp2 & H2).
      exists (w1 ++ concat ws), s2. split.
      - exists (w1 :: ws). split; [reflexivity | constructor; assumption].
      - rewrite <- app_assoc, <- Hr2, length_app. repeat split; [exact Hr1 | lia | exact H2]. }
    destruct g.
    + destruct (m _ s) as [e'|] eqn:Ha.
      * intros [= <-]. apply Hagain. reflexivity.
      * exact Hstop.
    + destruct (k s) as [e'|] eqn:Hk.
      * intros [= <-]. apply Hstop. reflexivity.
      * exact Hagain.
Qed.

(** Every match of a pattern is a word of its language. *)
Lemma mt_sound r : sound (mt r) (lang r).
Proof.
  induction r as [|p|a IHa b IHb|a IHa b IHb|g a IHa| | | |n a IHa]; intros k s e;
    cbn [mt lang].
  - intros H. exists [], s. cbn. repeat split; [lia | exact H].
  - destruct (rest s) as [|c t] eqn:Hr; [discriminate|].
    destruct (p c) eqn:Hp; [|discriminate]. intros H.
    exists [c]. eexists. split; [exists c; auto|].
    split; [|split; [|exact H]]; cbn; [reflexivity | lia].
  - intros H. apply IHa in H. destruct H as (u & s1 & Hu & Hr1 & Hp1 & H1).
    apply IHb in H1. destruct H1 as (v & s2 & Hv & Hr2 & Hp2 & H2).
    exists (u ++ v), s2. split; [exists u, v; auto|].
    rewrite <- app_assoc, <- Hr2, length_app. repeat split; [exact Hr1 | lia | exact H2].
  - destruct (mt a k s) as [e'|] eqn:Ha.
    + intros [= <-]. apply IHa in Ha. destruct Ha as (w & s' & Hw & H).
      exists w, s'. split; [left; exact Hw | exact H].
    + intros H. apply IHb in H. destruct H as (w & s' & Hw & H).
      exists w, s'. split; [right; exact Hw | exact H].
  - apply star_sound. exact IHa.
  - destruct (pos s =? 0)%nat; [|discriminate]. intros H.
    exists [], s. cbn. repeat split; [lia | exact H].
  - destruct (rest s) eqn:Hr; [|discriminate]. intros H.
    exists [], s. rewrite Hr. cbn. repeat split; [lia | exact H].
  - destruct (xorb _ _); [|discriminate]. intros H.
    exists [], s. cbn. repeat split; [lia | exact H].
  - intros H. apply IHa in H. destruct H as (w & s1 & Hw & Hr1 & Hp1 & H1).
    exists w. eexists. split; [exact Hw|]. split; [|split; [|exact H1]]; assumption.
Qed.

Lemma matchAt_sound r pv rs i m :
  matchAt r pv rs i = Some m ->
  exists w, lang r w /\ rs = w ++ m_rest m /\ m_index m = i
            /\ m_end m = (i + length w)%nat.
Proof.
  unfold matchAt. destruct (mt r Some _) as [e|] eqn:He; [|discriminate].
  intros [= <-]. cbn. apply mt_sound in He.
  destruct He as (w & s' & Hw & Hr & Hp & [= ->]). cbn in Hr, Hp. eauto.
Qed.

Lemma search_sound r rs :
  forall pv i m,
    search r pv rs i = Some m ->
    exists pre w,
      lang r w /\ rs = pre ++ w ++ m_rest m
      /\ m_index m = (i + length pre)%nat /\ m_end m = (m_index m + length w)%nat.
Proof.
  induction rs as [|c t IH]; intros pv i m; cbn [search].
  - destruct (matchAt r pv [] i) as [m'|] eqn:Hm; [|discriminate].
    intros [= <-]. apply matchAt_sound in Hm. destruct Hm as (w & Hw & Hr & Hi & He).
    exists [], w. cbn. repeat split; [exact Hw | exact Hr | lia | lia].
  - destruct (matchAt r pv (c :: t) i) as [m'|] eqn:Hm.
    + intros [= <-]. apply matchAt_sound in Hm. destruct Hm as (w & Hw & Hr & Hi & He).
      exists [], w. cbn. repeat split; [exact Hw | exact Hr | lia | lia].
    + intros H. apply IH in H. destruct H as (pre & w & Hw & Hr & Hi & He).
      exists (c :: pre), w. cbn. rewrite Hr. repeat split; [exact Hw | lia | lia].
Qed.

Lemma substring_at (done w after : str) :
  substring (length done) (length done + length w) (done ++ w ++ after) = w.
Proof.
  unfold substring. rewrite drop_app_length.
  replace (length done + length w - length done)%nat with (length w) by lia.
  apply take_app_length.
Qed.

(** Every match the loop collects is a word of the pattern, found in the
    subject between its index and its end. *)
Lemma matchLoop_sound r s fuel :
  forall done pv rs,
    s = done ++ rs ->
    Forall (fun m => lang r (matched s m)
                     /\ (m_index m <= m_end m <= length s)%nat
                     /\ m_end m = (m_index m + length (matched s m))%nat)
      (matchLoop r fuel pv rs (length done)).
Proof.
  induction fuel as [|n IH]; intros done pv rs Hs; cbn [matchLoop]; [constructor|].
  destruct (search r pv rs (length done)) as [m|] eqn:Hm; [|constructor].
  apply search_sound in Hm. destruct Hm as (pre & w & Hw & Hr & Hi & He).
  assert (Hmatched : matched s m = w).
  { unfold matched. rewrite Hs, Hr, He, Hi, app_assoc, <- length_app. apply substring_at. }
  constructor.
  - rewrite Hmatched. split; [exact Hw|]. split; [|exact He].
    rewrite Hs, Hr, !length_app. lia.
  - replace (m_end m) with (length (done ++ pre ++ w))
      by (rewrite !length_app; lia).
    apply IH. rewrite Hs, Hr, <- !app_assoc. reflexivity.
Qed.

Lemma matchAll_sound r s :
  Forall (fun m => lang r (matched s m)
                   /\ (m_index m <= m_end m <= length s)%nat
                   /\ m_end m = (m_index m + length (matched s m))%nat)
    (matchAll r s).
Proof. apply (matchLoop_sound r s (S (length s)) [] None s). reflexivity. Qed.

(** ** The languages of the building blocks *)

Lemma lang_seqOf_Chr (q : N -> N -> bool) (word w : str) :
  lang (seqOf (fun a => Chr (q a)) word) w -> Forall2 (fun a c => q a c = true) word w.
Proof.
  revert w. induction word as [|a [|b word'] IH]; intros w; cbn [seqOf lang].
  - intros ->. constructor.
  - intros (c & -> & Hc). constructor; [exact Hc | constructor].
  - intros (u & v & -> & (c & -> & Hc) & Hv). constructor; [exact Hc|].
    apply IH. exact Hv.
Qed.

Lemma lang_Liti word w : lang (Liti word) w -> sameLetters w (lit word).
Proof.
  intros H. apply lang_seqOf_Chr in H. unfold sameLetters.
  induction H as [|a c word' w' Hac _ IH]; [reflexivity|].
  cbn. apply N.eqb_eq in Hac. congruence.
Qed.

Lemma lang_Lit word w : lang (Lit word) w -> w = lit word.
Proof.
  intros H. apply lang_seqOf_Chr in H.
  induction H as [|a c word' w' Hac _ IH]; [reflexivity|].
  apply N.eqb_eq in Hac. congruence.
Qed.

Lemma lang_Star_Chr g p w : lang (Star g (Chr p)) w -> forallb p w = true.
Proof.
  intros (ws & -> & Hws). induction Hws as [|x ws' (c & -> & Hc) _ IH]; [reflexivity|].
  cbn. rewrite Hc. exact IH.
Qed.

Lemma lang_Plus_Chr g p w : lang (Plus g (Chr p)) w -> w <> [] /\ forallb p w = true.
Proof.
  intros (u & v & -> & (c & -> & Hc) & Hv). apply lang_Star_Chr in Hv.
  cbn. rewrite Hc. split; [discriminate | exact Hv].
Qed.

End MatcherSound.

(* ================================================================== *)
(** * Part XVI. The heuristic analyzer: phrases, suggestions, audience *)
(* ================================================================== *)

Section Heuristics.

Import AnalysisProcessor.

Lemma lang_minLen r : forall w, lang r w -> (minLen r <= length w)%nat.
Proof.
  induction r as [|p|a IHa b IHb|a IHa b IHb|g a IHa| | | |n a IHa]; intros w;
    cbn [lang minLen]; try lia.
  - intros (c & -> & _). cbn. lia.
  - intros (u & v & -> & Hu & Hv). apply IHa in Hu. apply IHb in Hv.
    rewrite length_app. lia.
  - intros [H | H]; [apply IHa in H | apply IHb in H]; lia.
  - apply IHa.
Qed.

Lemma sameLetters_length a b : sameLetters a b -> length a = length b.
Proof.
  unfold sameLetters. intros H. apply (f_equal (@length N)) in H.
  rewrite !length_map in H. exact H.
Qed.

(** A word between two word boundaries. *)
Lemma lang_bounded_word n r w : lang (seqs [WordB; Group n r; WordB]) w -> lang r w.
Proof.
  cbn [seqs lang]. intros (u & v & -> & -> & u' & v' & -> & Hu & ->).
  cbn. rewrite app_nil_r. exact Hu.
Qed.

Lemma vague_words w :
  lang (alts [Liti "a lot"; Liti "lots"]) w
  \/ lang (alts [Liti "stuff"; Liti "things"]) w
  \/ lang (alts [Liti "maybe"; Liti "perhaps"; Liti "possibly"]) w ->
  oneOf ["a lot"; "lots"; "stuff"; "things"; "maybe"; "perhaps"; "possibly"]%string w.
Proof.
  unfold oneOf. cbn [alts lang]. rewrite !Exists_cons.
  intros H. decompose [Logic.or] H; clear H;
    match goal with H : lang (Liti _) _ |- _ => apply lang_Liti in H end; tauto.
Qed.

Lemma intensified w :
  lang (seqs [WordB; Group 1 (alts [Liti "very"; Liti "really"; Liti "quite"]);
              Plus true Space; Group 2 (Plus true Word)]) w ->
  exists intensifier space word,
    w = intensifier ++ space ++ word
    /\ oneOf ["very"; "really"; "quite"]%string intensifier
    /\ space <> [] /\ forallb isWhiteSpace space = true
    /\ word <> [] /\ forallb isWordChar word = true.
Proof.
  cbn [seqs]. intros (u & v & -> & Hu & i & v' & -> & Hi & sp & wd & -> & Hsp & Hwd).
  cbn [lang] in Hu, Hi, Hwd. subst u.
  apply (lang_Plus_Chr true isWhiteSpace) in Hsp.
  apply (lang_Plus_Chr true isWordChar) in Hwd.
  exists i, sp, wd. split; [reflexivity|]. split; [|tauto].
  unfold oneOf. cbn [alts lang] in Hi. rewrite !Exists_cons.
  decompose [Logic.or] Hi; clear Hi;
    match goal with H : lang (Liti _) _ |- _ => apply lang_Liti in H end; tauto.
Qed.

Lemma ambiguousPatterns_vague pattern reason suggestions w :
  In (pattern, reason, suggestions) ambiguousPatterns -> lang pattern w ->
  (1 <= length w)%nat /\ vaguePhrase w.
Proof.
  intros Hin Hw. split.
  - apply lang_minLen in Hw. revert Hw.
    cbn in Hin. decompose [Logic.or] Hin; clear Hin; try contradiction;
      match goal with H : _ = (_, _, _) |- _ => injection H as <- _ _ end;
      vm_compute; lia.
  - unfold vaguePhrase.
    cbn in Hin. decompose [Logic.or] Hin; clear Hin; try contradiction;
      match goal with H : _ = (_, _, _) |- _ => injection H as <- _ _ end.
    + left. apply vague_words. left. eapply lang_bounded_word. exact Hw.
    + left. apply vague_words. right. left. eapply lang_bounded_word. exact Hw.
    + right. apply intensified. exact Hw.
    + left. apply vague_words. right. right. eapply lang_bounded_word. exact Hw.
Qed.

Lemma detectAmbiguousPhrases_phraseAt content :
  Forall (phraseAt content) (detectAmbiguousPhrases content).
Proof.
  unfold detectAmbiguousPhrases.
  apply Forall_flat_map, Forall_forall. intros [[pattern reason] suggestions] Hin.
  apply list_elem_of_In in Hin. apply Forall_map. eapply Forall_impl; [apply matchAll_sound|].
  intros m (Hlang & Hle & Hend). cbn.
  destruct (ambiguousPatterns_vague _ _ _ _ Hin Hlang) as [Hlen Hvague].
  exists (m_index m), (m_index m + length (matched content m))%nat.
  split; [reflexivity|]. split; [lia|].
  rewrite <- Hend. split; [reflexivity | exact Hvague].
Qed.

(** ** Suggestions *)

Lemma suggestion_wellTyped type severity description originalText suggestedText content :
  In type ["clarity"; "tone"; "structure"; "grammar"]%string ->
  In severity ["low"; "medium"; "high"]%string ->
  wellTyped (suggestion type severity description originalText suggestedText content).
Proof.
  intros Ht Hs. split; cbn; [apply (in_map vstr) in Ht | apply (in_map vstr) in Hs];
    assumption.
Qed.

(** ** Numbers *)

Lemma gt_mono a x y : (x <= y)%Z -> Num.gt a (ofZ y) = true -> Num.gt a (ofZ x) = true.
Proof.
  intros Hxy. destruct a as [| |q|]; cbn; auto.
  unfold Qltb. rewrite !negb_true_iff, <- !not_true_iff_false, !Qle_bool_iff.
  intros H1 H2. apply H1. eapply Qle_trans; [exact H2|].
  rewrite <- Zle_Qle. exact Hxy.
Qed.

(** ** Keywords *)

Lemma startsWith_app p b : startsWith (p ++ b) p = true.
Proof.
  induction p as [|a p IH]; cbn; [destruct b; reflexivity|].
  rewrite N.eqb_refl. exact IH.
Qed.

Lemma includes_app a p b : includes (a ++ p ++ b) p = true.
Proof.
  induction a as [|x a IH].
  - cbn [app]. destruct (p ++ b) eqn:E; cbn [includes]; rewrite <- E, startsWith_app;
      reflexivity.
  - cbn [app includes]. rewrite IH. apply orb_true_r.
Qed.

Lemma absent_word_unmatched word s :
  includes s (lit word) = false -> countMatches (wordPattern word) s = 0%nat.
Proof.
  intros Habs. unfold countMatches.
  pose proof (matchAll_sound (wordPattern word) s) as Hall.
  destruct (matchAll (wordPattern word) s) as [|m l]; [reflexivity|]. exfalso.
  apply Forall_inv in Hall. destruct Hall as (Hlang & Hle & Hend).
  unfold wordPattern in Hlang. cbn [seqs lang] in Hlang.
  destruct Hlang as (u & v & Hm & -> & u' & v' & -> & Hu & ->).
  apply lang_Lit in Hu. cbn in Hm. rewrite app_nil_r, Hu in Hm.
  assert (Hs : s = firstn (m_index m) s ++ lit word ++ skipn (m_end m) s).
  { rewrite <- Hm. unfold matched, substring.
    replace (skipn (m_end m) s)
      with (skipn (m_end m - m_index m) (skipn (m_index m) s))
      by (rewrite drop_drop; f_equal; lia).
    rewrite !take_drop. reflexivity. }
  rewrite Hs, includes_app in Habs. discriminate.
Qed.

Lemma countIndicators_absent indicators s :
  (forall word, In word indicators -> includes s (lit word) = false) ->
  countIndicators indicators s = 0%nat.
Proof.
  unfold countIndicators. generalize 0%nat as acc.
  induction indicators as [|word l IH]; intros acc Habs; cbn [fold_left]; [reflexivity|].
  rewrite (absent_word_unmatched word s) by (apply Habs; left; reflexivity).
  rewrite Nat.add_0_r. apply IH. intros w Hw. apply Habs. right. exact Hw.
Qed.

End Heuristics.

(** X8. Every ambiguous phrase the heuristic analyzer reports carries the
    text found in the content at its position, [start < end <=
    content.length]; and that text is one of the words "a lot", "lots",
    "stuff", "things", "maybe", "perhaps", "possibly" in some letter case,
    or one of "very", "really", "quite" in some letter case followed by
    white space and a word. *)
Theorem ambiguous_phrases_are_found_in_content (env : Env) (content : str)
  (postId : option str) :
  Forall (phraseAt content) (AnalysisProcessor.detectAmbiguousPhrases content)
  /\ ambiguousPhrases (AnalysisProcessor.createBasicAnalysis env content postId)
     = VArr (AnalysisProcessor.detectAmbiguousPhrases content).
Proof. split; [apply detectAmbiguousPhrases_phraseAt | reflexivity]. Qed.

(** X9. The suggestions of the heuristic analyzer are at most four; the
    type and the severity of each are among those the [Suggestion]
    interface lists. *)
Theorem heuristic_suggestions_are_well_typed (content : str)
  (metrics : AnalysisProcessor.BasicMetrics) :
  let suggestions := AnalysisProcessor.generateBasicSuggestions content metrics in
  (length suggestions <= 4)%nat /\ Forall wellTyped suggestions.
Proof.
  cbv zeta. unfold AnalysisProcessor.generateBasicSuggestions. cbv zeta.
  repeat match goal with
         | |- context [if ?b then _ ++ _ else _] => destruct b
         end;
    (split; [cbn [app length]; lia|]);
    cbn [app];
    repeat (constructor; [apply suggestion_wellTyped; cbn; tauto|]); constructor.
Qed.

(** X10. The three places where the heuristic analyzer reacts to long
    sentences agree: the average sentence length exceeds 25 words exactly
    when the readability score is below 7, exactly when the target
    audience is "Academic/Professional", and exactly when the suggestion
    to break down long sentences is among the suggestions. *)
Theorem long_sentences_are_flagged_consistently (content : str) :
  let m := AnalysisProcessor.calculateBasicMetrics content in
  let long := Num.gt (AnalysisProcessor.avgWordsPerSentence m) (ofZ 25) in
  (long = true <-> Num.lt (AnalysisProcessor.readabilityScore m) (ofZ 7) = true)
  /\ (long = true <-> AnalysisProcessor.targetAudience m = lit "Academic/Professional")
  /\ (long = true
      <-> In (longSentences content) (AnalysisProcessor.generateBasicSuggestions content m)).
Proof.
  cbv zeta. unfold AnalysisProcessor.calculateBasicMetrics. cbv zeta.
  cbn [AnalysisProcessor.avgWordsPerSentence AnalysisProcessor.readabilityScore
       AnalysisProcessor.targetAudience].
  match goal with
  | |- context [Num.gt ?a (ofZ 25)] => generalize a
  end.
  intros avg.
  pose proof (gt_mono avg 20 25 ltac:(lia)) as H20.
  pose proof (gt_mono avg 25 30 ltac:(lia)) as H25.
  split; [|split].
  - destruct (Num.gt avg (ofZ 25)) eqn:G25.
    + rewrite (H20 eq_refl). destruct (Num.gt avg (ofZ 30)); vm_compute; tauto.
    + destruct (Num.gt avg (ofZ 30)) eqn:G30; [specialize (H25 eq_refl); discriminate|].
      destruct (Num.gt avg (ofZ 20)); vm_compute; split; discriminate.
  - unfold AnalysisProcessor.determineTargetAudience.
    destruct (Num.gt avg (ofZ 25)); [tauto|].
    destruct (Num.lt avg (ofZ 15)); [split; discriminate|].
    destruct (2 <? _)%nat; split; discriminate.
  - unfold AnalysisProcessor.generateBasicSuggestions. cbv zeta.
    cbn [AnalysisProcessor.avgWordsPerSentence].
    destruct (Num.gt avg (ofZ 25)).
    + split; [intros _ | reflexivity].
      repeat match goal with
             | |- context [if ?b then _ ++ _ else _] => destruct b
             end; cbn [app]; left; reflexivity.
    + split; [discriminate|]. intros Hin. exfalso. revert Hin.
      repeat match goal with
             | |- context [if ?b then _ ++ _ else _] => destruct b
             end; cbn [app In]; intros Hin;
        repeat (destruct Hin as [Hin | Hin];
                [apply (f_equal (fun v => getOpt v "severity")) in Hin; vm_compute in Hin;
                 discriminate Hin|]);
        exact Hin.
Qed.

(** X11. A content in which none of the 22 keywords of the four tones
    occurs, in any letter case, has the tone "Neutral". *)
Theorem no_keyword_is_neutral (content : str) :
  (forall word, In word toneKeywords -> includes (toLowerCase content) (lit word) = false) ->
  AnalysisProcessor.analyzeTone content = lit "Neutral".
Proof.
  intros Habs. unfold AnalysisProcessor.analyzeTone. cbv zeta.
  rewrite !countIndicators_absent; [reflexivity | | | |];
    intros word Hw; apply Habs; unfold toneKeywords; rewrite !in_app_iff; tauto.
Qed.

Lemma no_keyword_is_neutral_witness :
  AnalysisProcessor.analyzeTone (lit "The quick brown fox jumps over the lazy dog.")
  = lit "Neutral".
Proof.
  apply no_keyword_is_neutral. intros word Hw.
  cbv [toneKeywords AnalysisProcessor.formalIndicators AnalysisProcessor.casualIndicators
       AnalysisProcessor.technicalIndicators AnalysisProcessor.emotionalIndicators app In]
    in Hw.
  decompose [Logic.or] Hw; clear Hw; try contradiction; subst word; vm_compute; reflexivity.
Defined.

(* ================================================================== *)
(** * Part XVII. The singleton service *)
(* ================================================================== *)

Section SingletonParser.

Import SingletonAIService.

Lemma Qfloor_half_range c : (1 <= c <= 10)%Q -> (1 <= Qfloor (c + (1 # 2)) <= 10)%Z.
Proof.
  intros [H1 H10].
  assert (Hlo : (Qfloor 1 <= Qfloor (c + (1 # 2)))%Z) by (apply Qfloor_resp_le; lra).
  assert (Hhi : (Qfloor (c + (1 # 2)) <= Qfloor (10 + (1 # 2)))%Z)
    by (apply Qfloor_resp_le; lra).
  vm_compute in Hlo. vm_compute (Qfloor (10 + (1 # 2))) in Hhi.
  split; [exact Hlo | exact Hhi].
Qed.

(** The estimate of the fallback is an integer from 1 to 10, whatever
    the quotient of the two counts is. *)
Lemma estimate_range (x : number) :
  let avgWordsPerSentence := ToNumber (or (VNum x) (num 0)) in
  exists z,
    Num.round
      (Num.min (ofZ 10)
         (Num.max (ofZ 1)
            (Num.sub (ofZ 10) (Num.div (Num.sub avgWordsPerSentence (ofZ 15)) (ofZ 3)))))
    = ofZ z
    /\ (1 <= z <= 10)%Z.
Proof.
  cbv zeta. destruct x as [| |q|].
  - exists 10%Z. split; [vm_compute; reflexivity | lia].
  - exists 10%Z. split; [vm_compute; reflexivity | lia].
  - assert (Hfin : forall a : Q,
      exists z,
        Num.round
          (Num.min (ofZ 10)
             (Num.max (ofZ 1)
                (Num.sub (ofZ 10) (Num.div (Num.sub (Fin a) (ofZ 15)) (ofZ 3)))))
        = ofZ z
        /\ (1 <= z <= 10)%Z).
    { intros a. unfold ofZ.
      change (Num.sub (Fin a) (Fin (inject_Z 15))) with (Fin (a + - inject_Z 15)).
      change (Num.div (Fin (a + - inject_Z 15)) (Fin (inject_Z 3)))
        with (Fin ((a + - inject_Z 15) / inject_Z 3)).
      change (Num.sub (Fin (inject_Z 10)) (Fin ((a + - inject_Z 15) / inject_Z 3)))
        with (Fin (inject_Z 10 + - ((a + - inject_Z 15) / inject_Z 3))).
      set (v := (inject_Z 10 + - ((a + - inject_Z 15) / inject_Z 3))%Q).
      change (Num.max (Fin (inject_Z 1)) (Fin v))
        with (if Qltb (inject_Z 1) v then Fin v else Fin (inject_Z 1)).
      destruct (Qltb (inject_Z 1) v) eqn:H1.
      - change (Num.min (Fin (inject_Z 10)) (Fin v))
          with (if Qltb v (inject_Z 10) then Fin v else Fin (inject_Z 10)).
        destruct (Qltb v (inject_Z 10)) eqn:H10.
        + eexists. split; [reflexivity|]. apply Qfloor_half_range.
          apply Qltb_lt in H1, H10. change (inject_Z 1) with 1%Q in H1.
          change (inject_Z 10) with 10%Q in H10. lra.
        + exists 10%Z. split; [reflexivity | lia].
      - exists 1%Z. split; [reflexivity | lia]. }
    unfold or, ToBoolean. destruct (negb (Qeq_bool q 0)); cbn [ToNumber]; apply Hfin.
  - exists 1%Z. split; [vm_compute; reflexivity | lia].
Qed.

Lemma parseAnalysisResponse_fallback env analysisText originalContent :
  (exists e, JSON.parse analysisText = Throw e) \/ JSON.parse analysisText = Ok VNull ->
  exists z,
    (1 <= z <= 10)%Z
    /\ parseAnalysisResponse env analysisText originalContent
       = {| id := lit "analysis-" ++ decimal (dateNow env);
            postId := [];
            timestamp := newDate env;
            metrics := {| readabilityScore := num z;
                          clarityScore := num 7;
                          toneAnalysis := vstr "Unable to analyze tone";
                          targetAudience := vstr "General audience" |};
            suggestions := VArr [couldNotComplete];
            ambiguousPhrases := VArr [] |}.
Proof.
  intros H. unfold parseAnalysisResponse.
  match goal with
  | |- context [Num.div (ofNat ?w) (ofNat ?n)] =>
      destruct (estimate_range (Num.div (ofNat w) (ofNat n))) as (z & Hz & Hrange)
  end.
  exists z. split; [exact Hrange|].
  destruct H as [[e ->] | ->];
    lazy beta iota zeta delta [mbind result_bind bind get]; rewrite Hz; reflexivity.
Qed.

Lemma analyzeContent_outcome s env request content :
  match analyzeContent s env request content with
  | Ok r => success r = true /\ exists d, data r = Some d
  | Throw e => isAIServiceError e = true
  end.
Proof.
  unfold analyzeContent.
  destruct (negb (isConfigured s)); [reflexivity|].
  destruct (negb (AIService.truthy (trim content))); [reflexivity|].
  destruct request as [choices | e]; cbn.
  - destruct (negb _); cbn; [reflexivity | eauto].
  - destruct (isAIServiceError e) eqn:He; [exact He | reflexivity].
Qed.

End SingletonParser.

(** X12. When the reply of the provider is not JSON, or is the JSON
    [null], the parser of the singleton service does not fail: it returns
    an estimate whose readability score is an integer from 1 to 10, with
    clarity score 7, one suggestion saying that the analysis could not be
    completed, at position 0 to 0, and no ambiguous phrase. *)
Theorem unreadable_reply_gives_estimate (env : Env) (analysisText originalContent : str) :
  (exists e, JSON.parse analysisText = Throw e) \/ JSON.parse analysisText = Ok VNull ->
  exists z,
    (1 <= z <= 10)%Z
    /\ SingletonAIService.parseAnalysisResponse env analysisText originalContent
       = {| id := lit "analysis-" ++ decimal (dateNow env);
            postId := [];
            timestamp := newDate env;
            metrics := {| readabilityScore := num z;
                          clarityScore := num 7;
                          toneAnalysis := vstr "Unable to analyze tone";
                          targetAudience := vstr "General audience" |};
            suggestions := VArr [couldNotComplete];
            ambiguousPhrases := VArr [] |}.
Proof. apply parseAnalysisResponse_fallback. Qed.

Lemma unreadable_reply_gives_estimate_witness :
  exists z,
    (1 <= z <= 10)%Z
    /\ readabilityScore
         (metrics (SingletonAIService.parseAnalysisResponse Sample.env
                     (lit "Sorry, I cannot help with that.") Sample.content))
       = num z.
Proof.
  destruct (unreadable_reply_gives_estimate Sample.env
              (lit "Sorry, I cannot help with that.") Sample.content) as (z & Hz & Hr).
  - left. eexists. vm_compute. reflexivity.
  - exists z. split; [exact Hz|]. rewrite Hr. reflexivity.
Defined.

(** X13. The singleton service throws nothing but [AIServiceError]: one
    that the request was rejected with reaches the caller as it is, any
    other rejection is wrapped with the prefix "Analysis failed: ".  When
    it returns, [success] is true and [data] is set; so the orchestrator
    never raises its own "AI analysis failed", and every exception that
    sends it to the fallback is an [AIServiceError]. *)
Theorem singleton_throws_only_service_errors (w : ContentAnalyzer.World) (content : str) :
  let call request :=
    SingletonAIService.analyzeContent (ContentAnalyzer.aiService w)
      (ContentAnalyzer.providerEnv w) request content in
  (forall request,
     match call request with
     | Ok r => success r = true /\ exists d, data r = Some d
     | Throw e => isAIServiceError e = true
     end)
  /\ (SingletonAIService.isConfigured (ContentAnalyzer.aiService w) = true ->
      nonEmpty content = true ->
      forall e,
        call (Throw e)
        = Throw (if isAIServiceError e then e
                 else AIServiceError (lit "Analysis failed: " ++ messageOf e) None))
  /\ (forall e,
        ContentAnalyzer.providerData w content = Throw e -> isAIServiceError e = true).
Proof.
  cbv zeta. split; [intros request; apply analyzeContent_outcome|]. split.
  - intros Hc Hne e. unfold SingletonAIService.analyzeContent.
    unfold nonEmpty in Hne. rewrite Hc, Hne. cbn.
    destruct (isAIServiceError e); reflexivity.
  - intros e. unfold ContentAnalyzer.providerData.
    pose proof (analyzeContent_outcome (ContentAnalyzer.aiService w)
                  (ContentAnalyzer.providerEnv w) (ContentAnalyzer.request w) content) as H.
    destruct (SingletonAIService.analyzeContent _ _ _ _) as [r | e']; cbn.
    + destruct H as (-> & d & ->). discriminate.
    + intros [= <-]. exact H.
Qed.

Lemma singleton_throws_only_service_errors_witness :
  SingletonAIService.analyzeContent (Sample.service true) Sample.env
    (Throw (AIServiceError (lit "Rate limit reached") (Some (lit "429")))) Sample.content
  = Throw (AIServiceError (lit "Rate limit reached") (Some (lit "429")))
  /\ SingletonAIService.analyzeContent (Sample.service true) Sample.env
       (Throw (Error (lit "Connection error."))) Sample.content
     = Throw (AIServiceError (lit "Analysis failed: Connection error.") None).
Proof.
  split.
  - apply (proj1 (proj2 (singleton_throws_only_service_errors Sample.transportFailure
                           Sample.content)) eq_refl eq_refl
             (AIServiceError (lit "Rate limit reached") (Some (lit "429")))).
  - apply (proj1 (proj2 (singleton_throws_only_service_errors Sample.transportFailure
                           Sample.content)) eq_refl eq_refl
             (Error (lit "Connection error."))).
Defined.

Section Serialised.

Import SingletonAIService.

Lemma run_snoc events e :
  forall s s',
    run s (events ++ [e]) = Some s' ->
    exists s1, run s events = Some s1 /\ step s1 e = Some s'.
Proof.
  induction events as [|x l IH]; intros s s'; cbn.
  - destruct (step s e) as [s1|] eqn:Hs; [|discriminate]. intros [= <-]. eauto.
  - destruct (step s x) as [s1|]; [|discriminate]. apply IH.
Qed.

(** The drain loop, resumed when no request is running, keeps the state
    tied to the turns so far, provided a new request would start at least
    one interval after the latest settlement. *)
Lemma Serial_dispatch events now s :
  map fst (settled s) = map fst (dispatched s) ->
  map snd (settled s) = outcomes events ->
  length (settleTimes events) = length (settled s) ->
  (forall t, last (settleTimes events) = Some t -> lastRequestTime s = t) ->
  (forall k ts td,
     settleTimes events !! k = Some ts -> map snd (dispatched s) !! S k = Some td ->
     (ts + requestInterval <= td)%Z) ->
  (forall t, last (settleTimes events) = Some t -> (t + requestInterval <= now)%Z) ->
  Serial events (dispatch now s).
Proof.
  intros Hord Hout Hcount Hlast Hgap Hnow. unfold dispatch.
  destruct (rateLimitQueue s) as [|r q]; split; cbn; auto.
  - rewrite app_nil_r. exact Hord.
  - rewrite map_app, Hord. reflexivity.
  - intros k ts td Hts. rewrite map_app. cbn [map].
    assert (Hlen : length (map snd (dispatched s)) = length (settleTimes events)).
    { rewrite Hcount, <- (length_map fst (settled s)), Hord, !length_map. reflexivity. }
    destruct (Nat.lt_ge_cases (S k) (length (map snd (dispatched s)))) as [Hlt | Hge].
    + rewrite lookup_app_l by exact Hlt. apply Hgap. exact Hts.
    + rewrite lookup_app_r by exact Hge.
      pose proof (lookup_lt_Some _ _ _ Hts) as Hk.
      replace (S k - length (map snd (dispatched s)))%nat with 0%nat by lia.
      cbn. intros [= <-]. apply Hnow.
      rewrite last_lookup. replace (pred (length (settleTimes events))) with k by lia.
      exact Hts.
Qed.

Lemma Serial_loopHead events now s :
  map fst (settled s) = map fst (dispatched s) ->
  map snd (settled s) = outcomes events ->
  length (settleTimes events) = length (settled s) ->
  (forall t, last (settleTimes events) = Some t -> lastRequestTime s = t) ->
  (forall k ts td,
     settleTimes events !! k = Some ts -> map snd (dispatched s) !! S k = Some td ->
     (ts + requestInterval <= td)%Z) ->
  Serial events (loopHead now s).
Proof.
  intros Hord Hout Hcount Hlast Hgap. unfold loopHead.
  destruct (rateLimitQueue s) as [|r q] eqn:Hq.
  - split; cbn; auto. rewrite app_nil_r. exact Hord.
  - destruct (now - lastRequestTime s <? requestInterval)%Z eqn:Hwait.
    + split; cbn; auto. rewrite app_nil_r. exact Hord.
    + apply Serial_dispatch; auto.
      intros t Ht. apply Hlast in Ht. apply Z.ltb_ge in Hwait. lia.
Qed.

Lemma Serial_step events s e s' :
  Inv s -> Serial events s -> step s e = Some s' -> Serial (events ++ [e]) s'.
Proof.
  intros Hinv [Hord Hout Hcount Hlast Hgap]. unfold step.
  destruct (timeOf e <? clock s)%Z; [discriminate|].
  pose proof (inv_loop s Hinv) as Hloop.
  destruct e as [now r|now|now ok].
  - assert (Ht : settleTimes (events ++ [Enqueue now r]) = settleTimes events)
      by (unfold settleTimes; rewrite flat_map_app; apply app_nil_r).
    assert (Ho : outcomes (events ++ [Enqueue now r]) = outcomes events)
      by (unfold outcomes; rewrite flat_map_app; apply app_nil_r).
    intros [= <-]. unfold rateLimitedRequest, processQueue. cbn.
    rewrite length_app. cbn.
    replace (length (rateLimitQueue s) + 1 =? 0)%nat with false
      by (symmetry; apply Nat.eqb_neq; lia).
    rewrite orb_false_r. destruct (isProcessingQueue s) eqn:Hp.
    + split; cbn; rewrite ?Ht, ?Ho; auto.
    + assert (Hidle : loop s = Idle) by (destruct (loop s); intuition congruence).
      unfold inFlight in Hord. rewrite Hidle, app_nil_r in Hord.
      apply Serial_loopHead; cbn; rewrite ?Ht, ?Ho; auto.
  - assert (Ht : settleTimes (events ++ [TimerFires now]) = settleTimes events)
      by (unfold settleTimes; rewrite flat_map_app; apply app_nil_r).
    assert (Ho : outcomes (events ++ [TimerFires now]) = outcomes events)
      by (unfold outcomes; rewrite flat_map_app; apply app_nil_r).
    destruct (loop s) as [|wake|r] eqn:Hl; try discriminate.
    destruct (now <? wake)%Z eqn:Hw; [discriminate|]. apply Z.ltb_ge in Hw.
    intros [= <-]. destruct Hloop as (Hwake & _).
    unfold inFlight in Hord. rewrite Hl, app_nil_r in Hord.
    apply Serial_dispatch; cbn; rewrite ?Ht, ?Ho; auto.
    intros t Hlt. apply Hlast in Hlt. lia.
  - assert (Ht : settleTimes (events ++ [Settles now ok]) = settleTimes events ++ [now])
      by (unfold settleTimes; rewrite flat_map_app; reflexivity).
    assert (Ho : outcomes (events ++ [Settles now ok]) = outcomes events ++ [ok])
      by (unfold outcomes; rewrite flat_map_app; reflexivity).
    destruct (loop s) as [|wake|r] eqn:Hl; try discriminate.
    intros [= <-]. unfold inFlight in Hord. rewrite Hl in Hord.
    apply Serial_loopHead; cbn; rewrite ?Ht, ?Ho.
    + rewrite map_app. exact Hord.
    + rewrite map_app, Hout. reflexivity.
    + rewrite !length_app, Hcount. reflexivity.
    + intros t. rewrite last_snoc. intros [= <-]. reflexivity.
    + intros k ts td Hts Htd.
      assert (Hlen : length (map snd (dispatched s)) = S (length (settleTimes events))).
      { rewrite Hcount, <- (length_map fst (settled s)).
        rewrite length_map, <- (length_map fst (dispatched s)), <- Hord, length_app.
        cbn. lia. }
      pose proof (lookup_lt_Some _ _ _ Htd) as Hk. rewrite Hlen in Hk.
      rewrite lookup_app_l in Hts by lia.
      eapply Hgap; [exact Hts | exact Htd].
Qed.

Lemma run_Serial start events :
  forall s, run (initial start) events = Some s -> Serial events s.
Proof.
  induction events as [|e l IH] using rev_ind; intros s.
  - intros [= <-]. split; cbn; auto; [discriminate | intros k ts td H; discriminate H].
  - intros Hrun. apply run_snoc in Hrun. destruct Hrun as (s1 & Hrun & Hstep).
    eapply Serial_step; [|apply IH; exact Hrun | exact Hstep].
    eapply run_Inv; [apply initial_Inv | exact Hrun].
Qed.

End Serialised.

(** X14. The throttler runs one request at a time.  After any sequence of
    turns from the initial state: the requests that have settled, followed
    by the one still running if there is one, are the requests dispatched,
    in order; the caller of the k-th dispatched request got the outcome of
    the k-th settlement; and every request after the first was dispatched
    at least 1000 ms after the request before it settled. *)
Theorem throttler_runs_one_request_at_a_time
  (start : Z) (events : list SingletonAIService.event) (s : SingletonAIService.throttler) :
  SingletonAIService.run (SingletonAIService.initial start) events = Some s ->
  map fst (SingletonAIService.settled s) ++ inFlight s
  = map fst (SingletonAIService.dispatched s)
  /\ map snd (SingletonAIService.settled s) = outcomes events
  /\ (forall k settledAt dispatchedAt,
        settleTimes events !! k = Some settledAt ->
        map snd (SingletonAIService.dispatched s) !! S k = Some dispatchedAt ->
        (settledAt + 1000 <= dispatchedAt)%Z).
Proof.
  intros Hrun. destruct (run_Serial start events s Hrun) as [Hord Hout _ _ Hgap].
  split; [exact Hord|]. split; [exact Hout | exact Hgap].
Qed.

Lemma throttler_runs_one_request_at_a_time_witness :
  exists s,
    SingletonAIService.run (SingletonAIService.initial 5000) burst = Some s
    /\ SingletonAIService.settled s = [(1%nat, false); (2%nat, true)]
    /\ settleTimes burst = [5200; 6300]%Z
    /\ map fst (SingletonAIService.settled s) ++ inFlight s
       = map fst (SingletonAIService.dispatched s)
    /\ map snd (SingletonAIService.settled s) = outcomes burst
    /\ (forall k settledAt dispatchedAt,
          settleTimes burst !! k = Some settledAt ->
          map snd (SingletonAIService.dispatched s) !! S k = Some dispatchedAt ->
          (settledAt + 1000 <= dispatchedAt)%Z).
Proof.
  eexists. split; [vm_compute; reflexivity|].
  split; [reflexivity|]. split; [reflexivity|].
  apply (throttler_runs_one_request_at_a_time 5000 burst). vm_compute. reflexivity.
Defined.

(* ================================================================== *)
(** * Part XVIII. The provider client: errors, shape, configuration *)
(* ================================================================== *)

Section Provider.

Import AIService.

Lemma extractTextFromResponse_cases response :
  match extractTextFromResponse response with
  | Ok text => text = VStr [] \/ ToBoolean text = true
  | Throw e =>
      e = AIServiceError (lit "Invalid response format from AI provider") None
      /\ (nullish response = true
          \/ exists choices, get response "choices" = Ok choices /\ nullish choices = true)
  end.
Proof.
  unfold extractTextFromResponse.
  destruct (get response "choices") as [choices | e] eqn:Hc; cbn.
  - destruct (index0 choices) as [first | e] eqn:Hi; cbn.
    + unfold or. destruct (ToBoolean _) eqn:Hb; [right; exact Hb | left; reflexivity].
    + split; [reflexivity|]. right. exists choices. split; [reflexivity|].
      destruct choices; try discriminate; reflexivity.
  - split; [reflexivity|]. left. destruct response; try discriminate; reflexivity.
Qed.








End Provider.



(** X16. [generateSuggestion] throws nothing but an [AIServiceError]
    without code: the configuration error as it is, and every failure of
    the HTTP call or of the reading of its reply behind the prefix
    "Failed to generate suggestion: ", so that an [AIServiceError] of the
    call loses its status code.  When it returns, the text is the empty
    string or a value that counts as true, never [null] or [undefined]. *)
Theorem suggestion_errors_lose_their_code
  (config : AIService.AIProviderConfig)
  (makeAPICall : list AIService.message -> Z -> result value)
  (content : str) (context : option str) :
  let outcome := AIService.generateSuggestion config makeAPICall content context in
  (forall e, outcome = Throw e -> exists m, e = AIServiceError m None)
  /\ (forall text, outcome = Ok text -> text = VStr [] \/ ToBoolean text = true)
  /\ (AIService.isConfigured config = false ->
      outcome = Throw (AIServiceError (lit "AI service is not properly configured") None))
  /\ (AIService.isConfigured config = true ->
      forall e,
        makeAPICall (AIService.buildSuggestionPrompt content context) 200%Z = Throw e ->
        outcome
        = Throw (AIServiceError (lit "Failed to generate suggestion: " ++ messageOf e) None)).
Proof.
  cbv zeta. unfold AIService.generateSuggestion.
  destruct (AIService.isConfigured config); cbn.
  - destruct (makeAPICall _ _) as [response | e0]; cbn.
    + pose proof (extractTextFromResponse_cases response) as H.
      destruct (AIService.extractTextFromResponse response) as [text | e1].
      * repeat split; try discriminate. intros t [= <-]. exact H.
      * repeat split; try discriminate. intros e [= <-]. eauto.
    + repeat split; try discriminate.
      * intros e [= <-]. eauto.
      * intros _ e [= <-]. reflexivity.
  - repeat split; try discriminate. intros e [= <-]. eauto.
Qed.

Lemma suggestion_errors_lose_their_code_witness :
  AIService.generateSuggestion configured
    (failing (AIServiceError (lit "Rate limit reached") (Some (lit "429"))))
    Sample.content None
  = Throw (AIServiceError (lit "Failed to generate suggestion: Rate limit reached") None).
Proof.
  apply (proj2 (proj2 (proj2
           (suggestion_errors_lose_their_code configured
              (failing (AIServiceError (lit "Rate limit reached") (Some (lit "429"))))
              Sample.content None))) eq_refl
           (AIServiceError (lit "Rate limit reached") (Some (lit "429"))) eq_refl).
Defined.

(** X17. Reading the text of a reply fails exactly when the reply, or its
    [choices], is [null] or [undefined], and then with the
    [AIServiceError] "Invalid response format from AI provider"; any other
    reply, one with an empty [choices] array or without message content
    included, is read.  The text read is the empty string or a value that
    counts as true. *)
Theorem reply_text_is_read_leniently (response : value) :
  match AIService.extractTextFromResponse response with
  | Ok text => text = VStr [] \/ ToBoolean text = true
  | Throw e => e = AIServiceError (lit "Invalid response format from AI provider") None
  end
  /\ ((exists e, AIService.extractTextFromResponse response = Throw e)
      <-> nullish response = true
          \/ exists choices, get response "choices" = Ok choices /\ nullish choices = true).
Proof.
  pose proof (extractTextFromResponse_cases response) as H. split.
  - destruct (AIService.extractTextFromResponse response); [exact H | apply H].
  - split.
    + intros [e He]. rewrite He in H. apply H.
    + unfold AIService.extractTextFromResponse.
      intros [Hr | (choices & -> & Hc)].
      * destruct response; try discriminate; cbn; eauto.
      * destruct choices; try discriminate; cbn; eauto.
Qed.



(** X19. Validation and configuration.  [validateAIConfig] reports a
    configuration as valid exactly when it lists no error.  A valid
    configuration that is enabled and has an API key makes the service
    configured; a valid one has a base URL that parses, a model, and an
    API key unless the base URL contains "localhost".  So a valid, enabled
    configuration without API key, which only a localhost URL allows,
    leaves the service not configured.  Conversely the only errors a
    configured service can get from the validation are those about the
    URL format, the temperature and the token limit. *)
Theorem validation_and_configuration
  (parsesAsURL : str -> bool) (config : AIService.AIProviderConfig) :
  let valid := (AIService.validateAIConfig parsesAsURL config).1 in
  let errors := (AIService.validateAIConfig parsesAsURL config).2 in
  (valid = true <-> errors = [])
  /\ (valid = true ->
      AIService.baseUrl config <> [] /\ parsesAsURL (AIService.baseUrl config) = true
      /\ AIService.model config <> []
      /\ (AIService.apiKey config <> []
          \/ includes (AIService.baseUrl config) (lit "localhost") = true))
  /\ (valid = true -> AIService.enabled config = true ->
      (AIService.apiKey config <> [] -> AIService.isConfigured config = true)
      /\ (AIService.apiKey config = [] -> AIService.isConfigured config = false))
  /\ (AIService.isConfigured config = true -> forall e, In e errors -> In e rangeErrors).
Proof.
  cbv zeta. unfold AIService.validateAIConfig, AIService.isConfigured, AIService.truthy.
  cbv zeta. unfold rangeErrors.
  generalize (lit "Base URL is required") (lit "Invalid base URL format")
    (lit "Model name is required") (lit "API key is required for remote providers")
    (lit "Temperature must be between 0 and 2")
    (lit "Max tokens must be between 1 and 4000").
  intros s1 s2 s3 s4 s5 s6.
  destruct (AIService.enabled config);
    destruct (bool_decide_reflect (AIService.baseUrl config = [])) as [Hu | Hu];
    destruct (bool_decide_reflect (AIService.model config = [])) as [Hm | Hm];
    destruct (bool_decide_reflect (AIService.apiKey config = [])) as [Hk | Hk];
    destruct (parsesAsURL (AIService.baseUrl config));
    destruct (includes (AIService.baseUrl config) (lit "localhost"));
    destruct (Num.lt (AIService.temperature config) (ofZ 0) || _)%bool;
    destruct (Num.lt (AIService.maxTokens config) (ofZ 1) || _)%bool;
    cbn [negb andb app fst snd length Nat.eqb In];
    (split; [split; intros H; first [discriminate H | reflexivity]|]);
    (split; [intros H; first [discriminate H | tauto]|]);
    (split; [intros H He; first [discriminate H | discriminate He | tauto]|]);
    intros H; first [discriminate H | tauto].
Qed.

Lemma validation_and_configuration_witness :
  (AIService.validateAIConfig (fun _ => true) keyless).1 = true
  /\ AIService.isConfigured keyless = false
  /\ AIService.isConfigured configured = true.
Proof.
  split; [reflexivity|]. split.
  - apply (validation_and_configuration (fun _ => true) keyless); reflexivity.
  - apply (validation_and_configuration (fun _ => true) configured);
      [reflexivity | reflexivity | discriminate].
Defined.

(* ================================================================== *)
(** * Part XIX. The provider client: cleaning the reply *)
(* ================================================================== *)

Section Cleaning.

Import AIService.

(** ** Where a match is found *)

Lemma search_found r rs :
  forall pv i m,
    search r pv rs i = Some m ->
    exists prefix rs' pv',
      rs = prefix ++ rs' /\ matchAt r pv' rs' (i + length prefix) = Some m.
Proof.
  induction rs as [|c t IH]; intros pv i m; cbn [search].
  - destruct (matchAt r pv [] i) as [m'|] eqn:Hm; [|discriminate].
    intros [= <-]. exists [], [], pv. rewrite Nat.add_0_r. auto.
  - destruct (matchAt r pv (c :: t) i) as [m'|] eqn:Hm.
    + intros [= <-]. exists [], (c :: t), pv. rewrite Nat.add_0_r. auto.
    + intros H. apply IH in H. destruct H as (prefix & rs' & pv' & -> & H).
      exists (c :: prefix), rs', pv'. split; [reflexivity|].
      cbn [length]. rewrite Nat.add_succ_r. exact H.
Qed.

(** A pattern anchored at the start matches at index 0 only; what
    [replace] removes is a prefix. *)
Lemma replaceFirst_anchored r s :
  replaceFirst (Seq Bol r) s = s
  \/ exists w rest, s = w ++ rest /\ lang r w /\ replaceFirst (Seq Bol r) s = rest.
Proof.
  unfold replaceFirst, exec.
  destruct (search (Seq Bol r) None s 0) as [m|] eqn:Hs; [|left; reflexivity]. right.
  apply search_found in Hs. destruct Hs as (prefix & rs' & pv' & -> & Hm). cbn in Hm.
  pose proof (matchAt_sound _ _ _ _ _ Hm) as (w & Hw & Hr & Hi & He).
  assert (Hzero : length prefix = 0%nat).
  { revert Hm. unfold matchAt. cbn [mt pos].
    destruct (length prefix =? 0)%nat eqn:E; [|discriminate].
    intros _. apply Nat.eqb_eq. exact E. }
  destruct prefix; [|discriminate]. cbn [app length] in *.
  destruct Hw as (u & v & -> & -> & Hv). cbn [app] in *.
  exists v, (m_rest m). split; [exact Hr|]. split; [exact Hv|].
  rewrite Hi, He, Hr. cbn [firstn app]. apply drop_app_length.
Qed.

(** A pattern anchored at the end matches up to the end; what [replace]
    removes is a suffix. *)
Lemma replaceFirst_to_end a b s :
  replaceFirst (Seq a (Seq b Eol)) s = s
  \/ exists prefix w1 w2,
       s = prefix ++ w1 ++ w2 /\ lang a w1 /\ lang b w2
       /\ replaceFirst (Seq a (Seq b Eol)) s = prefix.
Proof.
  unfold replaceFirst, exec.
  destruct (search (Seq a (Seq b Eol)) None s 0) as [m|] eqn:Hs; [|left; reflexivity].
  right. apply search_found in Hs. destruct Hs as (prefix & rs' & pv' & -> & Hm).
  cbn in Hm. exists prefix. revert Hm. unfold matchAt.
  destruct (mt _ Some _) as [e|] eqn:He; [|discriminate]. intros [= <-]. cbn.
  change (mt (Seq a (Seq b Eol)) Some) with (mt a (mt b (mt Eol Some))) in He.
  apply (mt_sound a) in He. destruct He as (w1 & s1 & Hw1 & Hr1 & Hp1 & He).
  apply (mt_sound b) in He. destruct He as (w2 & s2 & Hw2 & Hr2 & Hp2 & He).
  cbn [mt] in He. destruct (rest s2) eqn:Hr; [|discriminate]. injection He as <-.
  cbn in Hr1, Hp1. rewrite Hr2, app_nil_r in Hr1. subst rs'.
  exists w1, w2. repeat split; auto.
  rewrite take_app_length. rewrite Hp2, Hp1.
  rewrite drop_ge by (rewrite !length_app; lia). apply app_nil_r.
Qed.

(** ** Parts without a brace *)

Lemma prefix_without c (w r1 pre r2 : str) :
  w ++ r1 = pre ++ c :: r2 -> without c w ->
  exists pre', pre = w ++ pre' /\ r1 = pre' ++ c :: r2.
Proof.
  revert pre. induction w as [|x w IH]; intros pre H Hw.
  - exists pre. auto.
  - apply Forall_cons in Hw as [Hx Hw]. destruct pre as [|y pre].
    + cbn in H. injection H as H _. contradiction.
    + cbn in H. injection H as <- H. destruct (IH pre H Hw) as (pre' & -> & ->).
      exists pre'. auto.
Qed.

Lemma without_rev c s : without c (rev s) <-> without c s.
Proof.
  unfold without. split; intros H.
  - rewrite <- (rev_involutive s). apply List.Forall_rev. exact H.
  - apply List.Forall_rev. exact H.
Qed.

Lemma suffix_without c (r1 w r2 post : str) :
  r1 ++ w = r2 ++ c :: post -> without c w ->
  exists post', post = post' ++ w /\ r1 = r2 ++ c :: post'.
Proof.
  intros H Hw. apply (f_equal (@rev N)) in H.
  rewrite !rev_app_distr in H. cbn in H. rewrite <- app_assoc in H. cbn in H.
  apply prefix_without in H; [|apply without_rev; exact Hw].
  destruct H as (x & Hx & Hr1).
  apply (f_equal (@rev N)) in Hx, Hr1.
  rewrite rev_involutive, rev_app_distr, ?rev_involutive in Hx.
  rewrite rev_involutive, rev_app_distr in Hr1. cbn in Hr1.
  rewrite rev_involutive, <- app_assoc in Hr1. cbn in Hr1.
  exists (rev x). auto.
Qed.

Lemma without_whitespace c w :
  isWhiteSpace c = false -> forallb isWhiteSpace w = true -> without c w.
Proof.
  intros Hc Hw. apply List.Forall_forall. intros x Hx ->.
  rewrite forallb_forall in Hw. apply Hw in Hx. congruence.
Qed.

Lemma without_forallb c s : forallb (fun x => negb (x =? c)%N) s = true -> without c s.
Proof.
  intros H. apply List.Forall_forall. intros x Hx ->.
  rewrite forallb_forall in H. apply H in Hx. rewrite N.eqb_refl in Hx. discriminate.
Qed.

Lemma without_app c a b : without c (a ++ b) <-> without c a /\ without c b.
Proof. apply Forall_app. Qed.

(** ** The steps of the cleaning keep the object in its frame *)

Lemma framed_prefix j w t :
  without 123 w -> framed j (w ++ t) -> head j = Some 123%N -> framed j t.
Proof.
  intros Hw (pre & post & H & Hpre & Hpost) Hj.
  destruct j as [|c j']; [discriminate|]. injection Hj as ->.
  cbn in H. apply prefix_without in H; [|exact Hw].
  destruct H as (pre' & -> & ->). apply without_app in Hpre as [_ Hpre].
  exists pre', post. auto.
Qed.

Lemma framed_suffix j w t :
  without 125 w -> framed j (t ++ w) -> last j = Some 125%N -> framed j t.
Proof.
  intros Hw (pre & post & H & Hpre & Hpost) Hj.
  destruct (rev j) as [|c j'] eqn:Hrev.
  { apply (f_equal (@rev N)) in Hrev. rewrite rev_involutive in Hrev. subst j.
    discriminate. }
  apply (f_equal (@rev N)) in Hrev. rewrite rev_involutive in Hrev. cbn in Hrev.
  subst j. rewrite last_snoc in Hj. injection Hj as ->.
  rewrite <- !app_assoc in H. cbn in H. rewrite app_assoc in H.
  apply suffix_without in H; [|exact Hw].
  destruct H as (post' & -> & ->). apply without_app in Hpost as [Hpost _].
  exists pre, post'. rewrite <- !app_assoc. auto.
Qed.

Lemma trimStart_prefix s : exists w, s = w ++ trimStart s /\ forallb isWhiteSpace w = true.
Proof.
  induction s as [|c t (w & Hw & Hws)]; cbn.
  - exists []. auto.
  - destruct (isWhiteSpace c) eqn:Hc.
    + exists (c :: w). cbn. rewrite Hc, Hws. split; [f_equal; exact Hw | reflexivity].
    + exists []. auto.
Qed.

Lemma trimEnd_suffix s : exists w, s = trimEnd s ++ w /\ forallb isWhiteSpace w = true.
Proof.
  unfold trimEnd. destruct (trimStart_prefix (rev s)) as (w & Hw & Hws).
  exists (rev w). split.
  - rewrite <- rev_app_distr, <- Hw, rev_involutive. reflexivity.
  - rewrite forallb_rev. exact Hws.
Qed.

Lemma framed_trim j t :
  head j = Some 123%N -> last j = Some 125%N -> framed j t -> framed j (trim t).
Proof.
  intros Hh Hl Hf. unfold trim.
  destruct (trimStart_prefix t) as (w & Hw & Hws).
  assert (Hf1 : framed j (trimStart t)).
  { apply (framed_prefix j w); [apply without_whitespace; auto | | exact Hh].
    rewrite <- Hw. exact Hf. }
  destruct (trimEnd_suffix (trimStart t)) as (w' & Hw' & Hws').
  apply (framed_suffix j w'); [apply without_whitespace; auto | | exact Hl].
  rewrite <- Hw'. exact Hf1.
Qed.

Lemma framed_opening fence j t :
  without 123 (lit fence) -> head j = Some 123%N -> framed j t ->
  framed j (replaceFirst (seqs [Bol; Lit fence; Star true Space]) t).
Proof.
  intros Hfence Hh Hf. cbn [seqs].
  destruct (replaceFirst_anchored (Seq (Lit fence) (Star true Space)) t)
    as [-> | (w & rest & Ht & Hw & ->)]; [exact Hf|].
  destruct Hw as (u & v & -> & Hu & Hv).
  apply lang_Lit in Hu. apply (lang_Star_Chr true isWhiteSpace) in Hv. subst u.
  apply (framed_prefix j (lit fence ++ v)); [| rewrite <- Ht; exact Hf | exact Hh].
  apply without_app. split; [exact Hfence | apply without_whitespace; auto].
Qed.

Lemma framed_closing j t :
  last j = Some 125%N -> framed j t ->
  framed j (replaceFirst (seqs [Star true Space; Lit "```"; Eol]) t).
Proof.
  intros Hl Hf. cbn [seqs].
  destruct (replaceFirst_to_end (Star true Space) (Lit "```") t)
    as [-> | (prefix & w1 & w2 & Ht & Hw1 & Hw2 & ->)]; [exact Hf|].
  apply (lang_Star_Chr true isWhiteSpace) in Hw1. apply lang_Lit in Hw2. subst w2.
  apply (framed_suffix j (w1 ++ lit "```")); [| rewrite <- Ht; exact Hf | exact Hl].
  apply without_app. split; [apply without_whitespace; auto|].
  repeat constructor; discriminate.
Qed.

(** ** From the first opening brace to the last closing brace *)

Lemma star_Any_step n k s c t :
  rest s = c :: t ->
  star true (mt Any) (S n) k s
  = match star true (mt Any) n k (MState (Some c) t (S (pos s)) (caps s)) with
    | Some e => Some e
    | None => k s
    end.
Proof.
  intros Hr. cbn [star]. unfold Any at 1. cbn [mt]. rewrite Hr. cbn [pos].
  replace (pos s <? S (pos s))%nat with true by (symmetry; apply Nat.ltb_lt; lia).
  reflexivity.
Qed.

Lemma star_Any_end n k s : rest s = [] -> star true (mt Any) n k s = k s.
Proof.
  intros Hr. destruct n; cbn [star]; [reflexivity|].
  unfold Any at 1. cbn [mt]. rewrite Hr. reflexivity.
Qed.

Lemma closing_brace_hit s t :
  rest s = 125%N :: t ->
  mt (C "}") Some s = Some (MState (Some 125%N) t (S (pos s)) (caps s)).
Proof. intros Hr. unfold C. cbn [mt]. rewrite Hr. reflexivity. Qed.

Lemma closing_brace_miss s :
  head (rest s) <> Some 125%N -> mt (C "}") Some s = None.
Proof.
  intros Hr. unfold C. cbn [mt]. destruct (rest s) as [|c t]; [reflexivity|].
  change (cu "}") with 125%N. destruct (N.eqb_spec c 125) as [-> | Hc]; [|reflexivity].
  contradiction Hr. reflexivity.
Qed.

Lemma star_Any_none fuel :
  forall s, without 125 (rest s) -> star true (mt Any) fuel (mt (C "}") Some) s = None.
Proof.
  induction fuel as [|n IH]; intros s Hs.
  - cbn [star]. apply closing_brace_miss.
    destruct (rest s); [discriminate|]. apply Forall_cons in Hs as [Hc _].
    cbn. congruence.
  - destruct (rest s) as [|c t] eqn:Hr.
    + rewrite star_Any_end by exact Hr. apply closing_brace_miss. rewrite Hr. discriminate.
    + rewrite (star_Any_step _ _ _ _ _ Hr). apply Forall_cons in Hs as [Hc Ht].
      rewrite IH by exact Ht. apply closing_brace_miss. rewrite Hr. cbn. congruence.
Qed.

Lemma star_Any_last u :
  forall fuel s post,
    rest s = u ++ 125%N :: post -> without 125 post -> (length (rest s) < fuel)%nat ->
    exists e,
      star true (mt Any) fuel (mt (C "}") Some) s = Some e
      /\ rest e = post /\ pos e = (pos s + length u + 1)%nat.
Proof.
  induction u as [|c u IH]; intros fuel s post Hr Hpost Hfuel;
    (destruct fuel as [|n]; [lia|]); cbn [app] in Hr; rewrite (star_Any_step _ _ _ _ _ Hr).
  - rewrite star_Any_none by exact Hpost. rewrite (closing_brace_hit _ _ Hr).
    eexists. split; [reflexivity|]. cbn. split; [reflexivity | lia].
  - edestruct (IH n (MState (Some c) (u ++ 125%N :: post) (S (pos s)) (caps s)) post)
      as (e & He & Hre & Hpe); [reflexivity | exact Hpost | | ].
    + rewrite Hr in Hfuel. cbn in Hfuel |- *. lia.
    + rewrite He. exists e. split; [reflexivity|]. split; [exact Hre|].
      rewrite Hpe. cbn. lia.
Qed.

Lemma object_at s u post :
  rest s = 123%N :: u ++ 125%N :: post -> without 125 post ->
  exists e,
    mt (seqs [C "{"; Star true Any; C "}"]) Some s = Some e
    /\ pos e = (pos s + length u + 2)%nat.
Proof.
  intros Hr Hpost.
  change (mt (seqs [C "{"; Star true Any; C "}"]) Some s)
    with (mt (C "{") (mt (Star true Any) (mt (C "}") Some)) s).
  unfold C at 1. cbn [mt]. rewrite Hr. change (cu "{") with 123%N. rewrite N.eqb_refl.
  cbn [rest].
  edestruct (star_Any_last u (S (length (u ++ 125%N :: post)))
               (MState (Some 123%N) (u ++ 125%N :: post) (S (pos s)) (caps s)) post)
    as (e & He & Hre & Hpe); [reflexivity | exact Hpost | cbn; lia |].
  exists e. split; [exact He|]. rewrite Hpe. cbn. lia.
Qed.

Lemma no_object_at s :
  head (rest s) <> Some 123%N -> mt (seqs [C "{"; Star true Any; C "}"]) Some s = None.
Proof.
  intros Hr.
  change (mt (seqs [C "{"; Star true Any; C "}"]) Some s)
    with (mt (C "{") (mt (Star true Any) (mt (C "}") Some)) s).
  unfold C at 1. cbn [mt]. destruct (rest s) as [|c t]; [reflexivity|].
  change (cu "{") with 123%N. destruct (N.eqb_spec c 123) as [-> | Hc]; [|reflexivity].
  contradiction Hr. reflexivity.
Qed.

Lemma search_object pre :
  forall pv i u post,
    without 123 pre -> without 125 post ->
    exists m,
      search (seqs [C "{"; Star true Any; C "}"]) pv (pre ++ 123%N :: u ++ 125%N :: post) i
      = Some m
      /\ m_index m = (i + length pre)%nat
      /\ m_end m = (i + length pre + length u + 2)%nat.
Proof.
  induction pre as [|c pre IH]; intros pv i u post Hpre Hpost; cbn [app search].
  - unfold matchAt.
    destruct (object_at (MState pv (123%N :: u ++ 125%N :: post) i []) u post)
      as (e & -> & Hpe); [reflexivity | exact Hpost |].
    eexists. split; [reflexivity|]. cbn. rewrite Hpe. cbn. lia.
  - apply Forall_cons in Hpre as [Hc Hpre]. unfold matchAt at 1.
    rewrite no_object_at by (cbn; congruence).
    destruct (IH (Some c) (S i) u post Hpre Hpost) as (m & Hm & Hi & He).
    exists m. split; [exact Hm|]. cbn [length]. lia.
Qed.

Lemma extract_framed u t :
  framed (123%N :: u ++ [125%N]) t ->
  match exec (seqs [C "{"; Star true Any; C "}"]) t with
  | Some m => matched t m
  | None => t
  end = 123%N :: u ++ [125%N].
Proof.
  intros (pre & post & -> & Hpre & Hpost). unfold exec.
  replace (pre ++ (123%N :: u ++ [125%N]) ++ post)
    with (pre ++ 123%N :: u ++ 125%N :: post)
    by (cbn; rewrite <- app_assoc; reflexivity).
  destruct (search_object pre None 0 u post Hpre Hpost) as (m & -> & Hi & He).
  unfold matched. rewrite Hi, He. cbn [Nat.add].
  replace (length pre + length u + 2)%nat
    with (length pre + length (123%N :: u ++ [125%N]))%nat
    by (cbn; rewrite length_app; cbn; lia).
  replace (pre ++ 123%N :: u ++ 125%N :: post)
    with (pre ++ (123%N :: u ++ [125%N]) ++ post)
    by (cbn; rewrite <- app_assoc; reflexivity).
  apply substring_at.
Qed.

Lemma cleanResponse_framed u content :
  framed (123%N :: u ++ [125%N]) content ->
  cleanResponse content = 123%N :: u ++ [125%N].
Proof.
  intros Hf. unfold cleanResponse. cbv zeta.
  assert (Hh : head (123%N :: u ++ [125%N]) = Some 123%N) by reflexivity.
  assert (Hl : last (123%N :: u ++ [125%N]) = Some 125%N).
  { change (123%N :: u ++ [125%N]) with ((123%N :: u) ++ [125%N]). apply last_snoc. }
  apply extract_framed.
  pose proof (framed_trim _ _ Hh Hl Hf) as Ht.
  destruct (startsWith (trim content) (lit "```json")).
  - apply framed_closing; [exact Hl|]. apply framed_opening; auto.
    repeat constructor; discriminate.
  - destruct (startsWith (trim content) (lit "```")); [|exact Ht].
    apply framed_closing; [exact Hl|]. apply framed_opening; auto.
    repeat constructor; discriminate.
Qed.

End Cleaning.

(** X20. Cleaning a reply extracts the text from its first opening brace
    to its last closing brace: whatever stands before an object
    [{ ... }], if it has no opening brace, and whatever stands after it,
    if it has no closing brace, is dropped, markdown fences and
    explanations included. *)
Theorem cleaning_extracts_the_object (pre u post : str) :
  without 123 pre -> without 125 post ->
  AIService.cleanResponse (pre ++ lit "{" ++ u ++ lit "}" ++ post) = lit "{" ++ u ++ lit "}".
Proof.
  intros Hpre Hpost. apply (cleanResponse_framed u).
  exists pre, post. split; [|auto].
  cbn. rewrite <- !app_assoc. reflexivity.
Qed.

Lemma cleaning_extracts_the_object_witness :
  AIService.cleanResponse
    (lit "Here is the analysis:" ++ [10%N] ++ lit "```json" ++ [10%N]
     ++ qlit "{'metrics': {'clarityScore': 7}, 'suggestions': []}" ++ [10%N] ++ lit "```"
     ++ [10%N] ++ lit "Let me know if you need more.")
  = qlit "{'metrics': {'clarityScore': 7}, 'suggestions': []}".
Proof.
  apply (cleaning_extracts_the_object
           (lit "Here is the analysis:" ++ [10%N] ++ lit "```json" ++ [10%N])
           (qlit "'metrics': {'clarityScore': 7}, 'suggestions': []")
           ([10%N] ++ lit "```" ++ [10%N] ++ lit "Let me know if you need more."));
    apply without_forallb; vm_compute; reflexivity.
Defined.

(* ================================================================== *)
(** * Part XX. The application state *)
(* ================================================================== *)

Section App.

Import ContentAnalyzer AppProvider.

(** ** The reducer *)

Lemma appReducer_inSync state action :
  inSync state -> resets action = false -> inSync (appReducer state action).
Proof.
  intros [Hp Hc] Hr. destruct action; try discriminate; split; cbn; auto.
  - intros post H. apply in_or_app. left. auto.
  - unfold isCurrentPost. destruct (currentPost state) as [cur|]; [|discriminate].
    specialize (Hp cur eq_refl). case_bool_decide as Hid.
    + intros post [= <-]. apply in_map_iff. exists cur.
      rewrite bool_decide_eq_true_2 by exact Hid. auto.
    + intros post [= <-]. apply in_map_iff. exists cur.
      rewrite bool_decide_eq_false_2 by exact Hid. auto.
  - unfold isCurrentPost. destruct (currentPost state) as [cur|]; [|discriminate].
    specialize (Hp cur eq_refl). case_bool_decide as Hid; [discriminate|].
    intros post [= <-]. apply filter_In. split; [exact Hp|].
    rewrite bool_decide_eq_false_2 by exact Hid. reflexivity.
  - intros conv H. apply in_or_app. left. auto.
  - unfold isCurrentConversation.
    destruct (currentConversation state) as [cur|]; [|discriminate].
    specialize (Hc cur eq_refl). case_bool_decide as Hid.
    + intros conv [= <-]. apply in_map_iff. exists cur.
      rewrite bool_decide_eq_true_2 by exact Hid. auto.
    + intros conv [= <-]. apply in_map_iff. exists cur.
      rewrite bool_decide_eq_false_2 by exact Hid. auto.
  - unfold isCurrentConversation.
    destruct (currentConversation state) as [cur|]; [|discriminate].
    specialize (Hc cur eq_refl). case_bool_decide as Hid; [discriminate|].
    intros conv [= <-]. apply filter_In. split; [exact Hc|].
    rewrite bool_decide_eq_false_2 by exact Hid. reflexivity.
  - destruct (currentPost state) as [cur|]; [|discriminate].
    specialize (Hp cur eq_refl). case_bool_decide as Hid.
    + intros post [= <-]. apply in_map_iff. exists cur.
      rewrite bool_decide_eq_true_2 by exact Hid. auto.
    + intros post [= <-]. apply in_map_iff. exists cur.
      rewrite bool_decide_eq_false_2 by exact Hid. auto.
Qed.

Lemma dispatchAll_inSync actions :
  forall state,
    inSync state -> Forall (fun action => resets action = false) actions ->
    inSync (dispatchAll state actions).
Proof.
  unfold dispatchAll. induction actions as [|a l IH]; intros state Hs Hl; [exact Hs|].
  apply Forall_cons in Hl as [Ha Hl]. cbn. apply IH; [|exact Hl].
  apply appReducer_inSync; assumption.
Qed.

Lemma appReducer_postIds state action :
  changesPosts action = false -> postIds (appReducer state action) = postIds state.
Proof.
  unfold postIds. intros Hc. destruct action; try discriminate; cbn; try reflexivity.
  - rewrite map_map. apply map_ext_in. intros post _.
    case_bool_decide as Hid; [symmetry; exact Hid | reflexivity].
  - rewrite map_map. apply map_ext_in. intros post _.
    case_bool_decide; reflexivity.
Qed.

Lemma update_unknown (payload : Post) (ps : list Post) :
  ~ In (post_id payload) (map post_id ps) ->
  map (fun post => if bool_decide (post_id post = post_id payload) then payload else post) ps
  = ps.
Proof.
  induction ps as [|p ps IH]; cbn; [reflexivity|]. intros Hn.
  rewrite bool_decide_eq_false_2 by (intros H; apply Hn; left; exact H).
  rewrite IH by (intros H; apply Hn; right; exact H). reflexivity.
Qed.

Lemma delete_unknown (id : str) (ps : list Post) :
  ~ In id (map post_id ps) ->
  List.filter (fun post => negb (bool_decide (post_id post = id))) ps = ps.
Proof.
  induction ps as [|p ps IH]; cbn; [reflexivity|]. intros Hn.
  rewrite bool_decide_eq_false_2 by (intros H; apply Hn; left; exact H). cbn.
  rewrite IH by (intros H; apply Hn; right; exact H). reflexivity.
Qed.

(** ** The [analyzeContent] action *)

Lemma recorded_postIds state postId result :
  map post_id (recorded state postId result) = postIds state.
Proof.
  unfold recorded, postIds. rewrite map_map. apply map_ext_in. intros post _.
  case_bool_decide; reflexivity.
Qed.

(** ** Excerpts and word counts *)

Lemma length_trimStart s : (length (trimStart s) <= length s)%nat.
Proof.
  destruct (trimStart_prefix s) as (w & Hw & _).
  rewrite Hw at 2. rewrite length_app. lia.
Qed.

Lemma length_trim s : (length (trim s) <= length s)%nat.
Proof.
  unfold trim. destruct (trimEnd_suffix (trimStart s)) as (w & Hw & _).
  pose proof (length_trimStart s) as H. rewrite Hw in H at 1.
  rewrite length_app in H. lia.
Qed.

Lemma without_trim c s : without c s -> without c (trim s).
Proof.
  intros H. unfold trim.
  destruct (trimStart_prefix s) as (w & Hw & _). rewrite Hw in H.
  apply without_app in H as [_ H].
  destruct (trimEnd_suffix (trimStart s)) as (w' & Hw' & _). rewrite Hw' in H.
  apply without_app in H as [H _]. exact H.
Qed.

Lemma matchAt_first p r pv rs q :
  match rs with c :: _ => p c = false | [] => True end ->
  matchAt (Seq (Chr p) r) pv rs q = None.
Proof.
  intros H. unfold matchAt. cbn [mt rest]. destruct rs as [|c t]; [reflexivity|].
  rewrite H. reflexivity.
Qed.

(** A pattern that starts with a code unit the subject does not have
    splits nothing off. *)
Lemma splitLoop_whole (c : N) r rs :
  forall fuel p cur pv q,
    without c rs -> (length rs < fuel)%nat ->
    splitLoop (Seq (Chr (fun x => (x =? c)%N)) r) fuel p cur pv rs q = [rev cur ++ rs].
Proof.
  induction rs as [|x t IH]; intros fuel p cur pv q Hrs Hfuel;
    (destruct fuel as [|n]; [lia|]); cbn [splitLoop].
  - rewrite app_nil_r. reflexivity.
  - apply Forall_cons in Hrs as [Hx Ht].
    rewrite matchAt_first by (apply N.eqb_neq; exact Hx).
    rewrite IH by (auto; cbn in Hfuel; lia). cbn [rev]. rewrite <- app_assoc. reflexivity.
Qed.

Lemma split_whole (c : N) r s :
  without c s -> split (Seq (Chr (fun x => (x =? c)%N)) r) s = [s].
Proof.
  intros Hs. unfold split. destruct s as [|x t].
  - rewrite matchAt_first by exact I. reflexivity.
  - rewrite splitLoop_whole by (auto; cbn; lia). reflexivity.
Qed.

End App.

(** X21. The reducer keeps the open items in the lists: when the open
    post is one of the posts and the open conversation one of the
    conversations, they still are after any sequence of actions other than
    those that replace a list or the open item by their payload
    ([SET_POSTS], [SET_CURRENT_POST], [SET_CONVERSATIONS],
    [SET_CURRENT_CONVERSATION]); an update, a deletion or a new analysis
    result reaches the open post along with the list. *)
Theorem reducer_keeps_open_items_listed
  (state : AppProvider.AppState) (actions : list AppProvider.AppAction) :
  inSync state ->
  Forall (fun action => resets action = false) actions ->
  inSync (AppProvider.dispatchAll state actions).
Proof. intros Hs Ha. apply dispatchAll_inSync; assumption. Qed.

Lemma reducer_keeps_open_items_listed_witness :
  inSync
    (AppProvider.dispatchAll oneOpenPost
       [AppProvider.SET_ANALYSIS_RESULT (lit "post-2") Sample.stored;
        AppProvider.ADD_POST Sample.post;
        AppProvider.DELETE_POST (lit "post-2")]).
Proof.
  apply reducer_keeps_open_items_listed.
  - split; cbn; [intros post [= <-]; left; reflexivity | discriminate].
  - repeat constructor.
Defined.

(** X22. The identifiers of the posts, in order, change with [SET_POSTS],
    [ADD_POST] and [DELETE_POST] only.  [DELETE_POST] removes every post
    with the identifier and closes the open post if it has it;
    [UPDATE_POST] for an identifier that no post has leaves the posts as
    they are (it does not add the post); adding a post with a new
    identifier and deleting it again restores the posts. *)
Theorem reducer_changes_posts_by_identifier
  (state : AppProvider.AppState) (action : AppProvider.AppAction) :
  (changesPosts action = false ->
   postIds (AppProvider.appReducer state action) = postIds state)
  /\ (forall id,
        let state' := AppProvider.appReducer state (AppProvider.DELETE_POST id) in
        ~ In id (postIds state')
        /\ AppProvider.isCurrentPost state' id = false
        /\ AppProvider.posts state'
           = List.filter (fun post => negb (bool_decide (ContentAnalyzer.post_id post = id)))
               (AppProvider.posts state))
  /\ (forall post,
        ~ In (ContentAnalyzer.post_id post) (postIds state) ->
        AppProvider.posts (AppProvider.appReducer state (AppProvider.UPDATE_POST post))
        = AppProvider.posts state
        /\ AppProvider.posts
             (AppProvider.dispatchAll state
                [AppProvider.ADD_POST post;
                 AppProvider.DELETE_POST (ContentAnalyzer.post_id post)])
           = AppProvider.posts state).
Proof.
  split; [apply appReducer_postIds|]. split.
  - intros id. cbv zeta. split; [|split; [|reflexivity]].
    + unfold postIds. cbn. intros H. apply in_map_iff in H.
      destruct H as (post & Hid & Hin). apply filter_In in Hin as [_ Hf].
      rewrite bool_decide_eq_true_2 in Hf by exact Hid. discriminate.
    + unfold AppProvider.isCurrentPost, AppProvider.appReducer, AppProvider.withPosts.
      cbn [AppProvider.currentPost]. unfold AppProvider.isCurrentPost.
      destruct (AppProvider.currentPost state) as [cur|]; [|reflexivity].
      case_bool_decide as Hid; [reflexivity|].
      apply bool_decide_eq_false_2. exact Hid.
  - intros post Hnew. split.
    + cbn. apply update_unknown. exact Hnew.
    + cbn. rewrite List.filter_app. cbn.
      rewrite bool_decide_eq_true_2 by reflexivity. cbn. rewrite app_nil_r.
      apply delete_unknown. exact Hnew.
Qed.

Lemma reducer_changes_posts_by_identifier_witness :
  postIds
    (AppProvider.appReducer oneOpenPost
       (AppProvider.SET_ANALYSIS_RESULT (lit "post-2") Sample.stored))
  = [lit "post-2"]
  /\ AppProvider.posts
       (AppProvider.appReducer AppProvider.initialState (AppProvider.UPDATE_POST Sample.post))
     = [].
Proof.
  split.
  - apply (reducer_changes_posts_by_identifier oneOpenPost
             (AppProvider.SET_ANALYSIS_RESULT (lit "post-2") Sample.stored)).
    reflexivity.
  - apply (reducer_changes_posts_by_identifier AppProvider.initialState
             (AppProvider.SET_POSTS []) ). cbn. tauto.
Defined.

(** X23. The [analyzeContent] action of the application.  For content
    that is blank or has fewer pieces between white space than the
    threshold it returns [null], reports "Content too short for analysis"
    and changes nothing else.  Otherwise, whatever the service and the
    storage do, [isAnalyzing] is false in the end; [null] is returned
    exactly when an error message is left in [aiError]; and the posts keep
    their identifiers.  Whenever the service returns a result, the result
    is appended to the history of the posts with the identifier, even if
    saving then fails and [null] is returned. *)
Theorem analysis_request_outcome
  (state : AppProvider.AppState) (service : AIService.AIProviderConfig) (env : Env)
  (api : result value) (savePost : ContentAnalyzer.Post -> result unit)
  (content postId : str) :
  let out := AppProvider.analyzeContent state service env api savePost content postId in
  let final := AppProvider.dispatchAll state out.2 in
  (tooShort state content = true ->
   out = (None, [AppProvider.SET_AI_ERROR (Some (lit "Content too short for analysis"))])
   /\ AppProvider.isAnalyzing final = AppProvider.isAnalyzing state
   /\ AppProvider.posts final = AppProvider.posts state)
  /\ (tooShort state content = false ->
      AppProvider.isAnalyzing final = false
      /\ forall result,
           AIService.analyzeContent service env api content postId = Ok result ->
           AppProvider.posts final = recorded state postId result)
  /\ (out.1 = None <-> AppProvider.aiError final <> None)
  /\ postIds final = postIds state.
Proof.
  cbv zeta. unfold AppProvider.analyzeContent, tooShort, nonEmpty.
  destruct (negb (AIService.truthy (trim content)) || _) eqn:Hgate.
  - cbn. repeat split; auto; try discriminate.
  - destruct (AIService.analyzeContent service env api content postId) as [result | e].
    + destruct (find _ (AppProvider.posts state)) as [post|].
      * destruct (savePost (AppProvider.withAnalysis post result)) as [u | e]; cbn.
        -- repeat split; try discriminate; try tauto.
           ++ intros r [= <-]. reflexivity.
           ++ apply recorded_postIds.
        -- repeat split; try discriminate; try tauto.
           ++ intros r [= <-]. reflexivity.
           ++ apply recorded_postIds.
      * cbn. repeat split; try discriminate; try tauto.
        -- intros r [= <-]. reflexivity.
        -- apply recorded_postIds.
    + cbn. repeat split; try discriminate; try tauto.
Qed.

Lemma analysis_request_outcome_witness :
  let out :=
    AppProvider.analyzeContent oneOpenPost configured Sample.env
      (Ok (reply "{'metrics': 1, 'suggestions': []}")) refusing Sample.content
      (lit "post-2") in
  let final := AppProvider.dispatchAll oneOpenPost out.2 in
  out.1 = None
  /\ AppProvider.aiError final = Some (lit "Failed to save post")
  /\ AppProvider.isAnalyzing final = false
  /\ map (fun post => length (ContentAnalyzer.analysisHistory post)) (AppProvider.posts final)
     = [1%nat].
Proof.
  cbv zeta. split; [vm_compute; reflexivity|]. split; [vm_compute; reflexivity|]. split.
  - apply (analysis_request_outcome oneOpenPost configured Sample.env
             (Ok (reply "{'metrics': 1, 'suggestions': []}")) refusing Sample.content
             (lit "post-2")).
    vm_compute. reflexivity.
  - vm_compute. reflexivity.
Defined.

(** X24. As shipped, no analysis reaches a provider: every default
    provider configuration is disabled, so with the service of any of
    them the [analyzeContent] action returns [null] for every content, and
    the message it leaves is "Content too short for analysis" or "AI
    service is not properly configured". *)
Theorem default_providers_never_analyse
  (state : AppProvider.AppState) (service : AIService.AIProviderConfig) (env : Env)
  (api : result value) (savePost : ContentAnalyzer.Post -> result unit)
  (content postId : str) :
  In service AIService.DEFAULT_AI_PROVIDERS ->
  let out := AppProvider.analyzeContent state service env api savePost content postId in
  AIService.isConfigured service = false
  /\ out.1 = None
  /\ (AppProvider.aiError (AppProvider.dispatchAll state out.2)
      = Some (lit "Content too short for analysis")
      \/ AppProvider.aiError (AppProvider.dispatchAll state out.2)
         = Some (lit "AI service is not properly configured")).
Proof.
  intros Hin. cbv zeta.
  assert (Hc : AIService.isConfigured service = false).
  { cbn in Hin. decompose [Logic.or] Hin; try contradiction; subst service; reflexivity. }
  split; [exact Hc|]. unfold AppProvider.analyzeContent.
  destruct (negb _ || _); [cbn; auto|].
  unfold AIService.analyzeContent. rewrite Hc. cbn. auto.
Qed.

Lemma default_providers_never_analyse_witness :
  let out :=
    AppProvider.analyzeContent AppProvider.initialState
      (AppProvider.aiProvider (AppProvider.settings AppProvider.initialState)) Sample.env
      (Ok (reply "{'metrics': 1, 'suggestions': []}")) (fun _ => Ok tt) Sample.content
      (lit "post-2") in
  out.1 = None.
Proof.
  cbv zeta.
  apply (default_providers_never_analyse AppProvider.initialState AIService.openai Sample.env
           (Ok (reply "{'metrics': 1, 'suggestions': []}")) (fun _ => Ok tt) Sample.content
           (lit "post-2")).
  left. reflexivity.
Defined.

(** X25. An excerpt is the content itself when that has at most
    [maxLength] code units; otherwise it is the first [maxLength] code
    units, trimmed, followed by three dots, so never longer than
    [maxLength + 3]. *)
Theorem excerpt_is_bounded (content : str) (maxLength : nat) :
  ((length content <= maxLength)%nat ->
   AppProvider.createExcerpt content maxLength = content)
  /\ ((maxLength < length content)%nat ->
      AppProvider.createExcerpt content maxLength
      = trim (firstn maxLength content) ++ lit "...")
  /\ (length (AppProvider.createExcerpt content maxLength) <= maxLength + 3)%nat.
Proof.
  unfold AppProvider.createExcerpt.
  destruct (Nat.leb_spec (length content) maxLength) as [Hle | Hgt].
  - repeat split; [lia | lia].
  - assert (Hsub : substring 0 maxLength content = firstn maxLength content)
      by (unfold substring; cbn [skipn]; rewrite Nat.sub_0_r; reflexivity).
    rewrite Hsub. split; [lia|]. split; [intros _; reflexivity|].
    rewrite length_app. pose proof (length_trim (firstn maxLength content)) as H.
    rewrite length_take in H. cbn. lia.
Qed.

Lemma excerpt_is_bounded_witness :
  AppProvider.createExcerpt (lit "Hello world.") 6 = lit "Hello..."
  /\ AppProvider.createExcerpt (lit "Hello world.") 150 = lit "Hello world.".
Proof.
  split.
  - etransitivity;
      [apply (excerpt_is_bounded (lit "Hello world.") 6); cbn; lia | reflexivity].
  - apply (excerpt_is_bounded (lit "Hello world.") 150). cbn. lia.
Defined.

(** X26. [countWords] does not count words: its pattern is a backslash
    followed by letters [s], so for a text without backslash the count is
    1 when the text is not blank and 0 when it is, however many words the
    text has. *)
Theorem countWords_without_backslash (text : str) :
  without 92 text ->
  AppProvider.countWords text = if nonEmpty text then 1%nat else 0%nat.
Proof.
  intros Hb. unfold AppProvider.countWords, C, nonEmpty, AIService.truthy.
  change (cu "\") with 92%N.
  rewrite split_whole by (apply without_trim; exact Hb).
  cbn [List.filter]. destruct (trim text) as [|c t]; reflexivity.
Qed.

Lemma countWords_without_backslash_witness :
  AppProvider.countWords (lit "The quick brown fox jumps over the lazy dog.") = 1%nat.
Proof.
  apply (countWords_without_backslash
           (lit "The quick brown fox jumps over the lazy dog.")).
  apply without_forallb. vm_compute. reflexivity.
Defined.

(* ================================================================== *)
(** * Part XXI. The heuristic analyzer: counting words *)
(* ================================================================== *)

Section Words.

Import AnalysisProcessor.

Lemma consume_bounds p rs :
  forall pv i cs,
    (i <= pos (consume p pv rs i cs))%nat
    /\ (length (rest (consume p pv rs i cs)) <= length rs)%nat.
Proof.
  induction rs as [|c t IH]; intros pv i cs; cbn; [lia|].
  destruct (p c); cbn; [|lia]. specialize (IH (Some c) (S i) cs). lia.
Qed.

(** A greedy repetition of a class before the end of the pattern takes
    the longest run. *)
Lemma star_class_greedy p fuel :
  forall s,
    (length (rest s) < fuel)%nat ->
    star true (mt (Chr p)) fuel Some s
    = Some (consume p (prev s) (rest s) (pos s) (caps s)).
Proof.
  induction fuel as [|n IH]; intros s Hfuel; [lia|].
  cbn [star mt]. destruct s as [pv rs i cs]. cbn [rest pos prev caps] in *.
  destruct rs as [|c t]; [reflexivity|]. cbn [consume]. destruct (p c); [|reflexivity].
  replace (i <? S i)%nat with true by (symmetry; apply Nat.ltb_lt; lia).
  rewrite IH by (cbn in Hfuel |- *; lia). reflexivity.
Qed.

Lemma matchAt_class_run p pv rs q :
  matchAt (Plus true (Chr p)) pv rs q
  = match rs with
    | c :: t =>
        if p c then
          let e := consume p (Some c) t (S q) [] in
          Some (RMatch q (pos e) (caps e) (prev e) (rest e))
        else None
    | [] => None
    end.
Proof.
  unfold matchAt, Plus.
  change (mt (Seq (Chr p) (Star true (Chr p))) Some (MState pv rs q []))
    with (match rs with
          | c :: t =>
              if p c
              then star true (mt (Chr p)) (S (length t)) Some (MState (Some c) t (S q) [])
              else None
          | [] => None
          end).
  destruct rs as [|c t]; [reflexivity|]. destruct (p c); [|reflexivity].
  rewrite star_class_greedy by (cbn; lia). reflexivity.
Qed.

Lemma runs_consume pv rs :
  forall i cs, runs false (rest (consume isWhiteSpace pv rs i cs)) = runs false rs.
Proof.
  revert pv. induction rs as [|c t IH]; intros pv i cs; cbn [consume]; [reflexivity|].
  destruct (isWhiteSpace c) eqn:Hc; cbn [rest runs]; rewrite ?Hc; [apply IH | reflexivity].
Qed.

(** The pieces between runs of white space that are not empty are as
    many as the words. *)
Lemma splitLoop_words fuel :
  forall rs p cur pv q,
    (length rs < fuel)%nat -> (p <= q)%nat ->
    length (List.filter (fun word => (0 <? length word)%nat)
              (splitLoop (Plus true Space) fuel p cur pv rs q))
    = ((if (0 <? length cur)%nat then 1 else 0)
       + runs (0 <? length cur)%nat rs)%nat.
Proof.
  unfold Space.
  induction fuel as [|n IH]; intros rs p cur pv q Hfuel Hpq; [lia|].
  cbn [splitLoop]. destruct rs as [|c t].
  - cbn [List.filter runs]. rewrite length_rev.
    destruct (0 <? length cur)%nat; reflexivity.
  - rewrite matchAt_class_run. cbn [runs].
    destruct (isWhiteSpace c) eqn:Hc.
    + cbv zeta. cbn [m_end m_rest m_prev].
      pose proof (consume_bounds isWhiteSpace t (Some c) (S q) []) as [Hpos Hlen].
      replace (pos (consume isWhiteSpace (Some c) t (S q) []) =? p)%nat with false
        by (symmetry; apply Nat.eqb_neq; lia).
      cbn [List.filter]. rewrite length_rev.
      assert (Hrest :
        length (List.filter (fun word => (0 <? length word)%nat)
                  (splitLoop (Plus true (Chr isWhiteSpace)) n
                     (pos (consume isWhiteSpace (Some c) t (S q) [])) []
                     (prev (consume isWhiteSpace (Some c) t (S q) []))
                     (rest (consume isWhiteSpace (Some c) t (S q) []))
                     (pos (consume isWhiteSpace (Some c) t (S q) []))))
        = runs false t).
      { rewrite IH by (cbn in Hfuel; lia). cbn. apply runs_consume. }
      destruct (0 <? length cur)%nat; cbn [length]; rewrite Hrest; reflexivity.
    + rewrite IH by (cbn in Hfuel; lia). cbn [length].
      destruct (0 <? length cur)%nat; reflexivity.
Qed.

Lemma split_words s :
  length (List.filter (fun word => (0 <? length word)%nat) (split (Plus true Space) s))
  = words s.
Proof.
  unfold split, words. destruct s as [|c t].
  - unfold Space. rewrite matchAt_class_run. reflexivity.
  - rewrite splitLoop_words by (cbn; lia). reflexivity.
Qed.

Lemma runs_leading w s : forallb isWhiteSpace w = true -> runs false (w ++ s) = runs false s.
Proof.
  induction w as [|c w IH]; cbn; [reflexivity|].
  destruct (isWhiteSpace c); [exact IH | discriminate].
Qed.

Lemma runs_trailing w s :
  forallb isWhiteSpace w = true -> forall b, runs b (s ++ w) = runs b s.
Proof.
  intros Hw. induction s as [|c s IH]; intros b; cbn.
  - induction w as [|x w IHw]; cbn; [reflexivity|]. cbn in Hw.
    destruct (isWhiteSpace x); [|discriminate].
    clear IHw. revert Hw. clear. intros Hw.
    induction w as [|y w IH]; cbn; [reflexivity|]. cbn in Hw.
    destruct (isWhiteSpace y); [apply IH; exact Hw | discriminate].
  - destruct (isWhiteSpace c); rewrite IH; reflexivity.
Qed.

Lemma words_trim s : words (trim s) = words s.
Proof.
  unfold words, trim.
  destruct (trimStart_prefix s) as (w & Hw & Hws).
  destruct (trimEnd_suffix (trimStart s)) as (w' & Hw' & Hws').
  rewrite Hw at 2. rewrite runs_leading by exact Hws.
  rewrite Hw' at 2. rewrite runs_trailing by exact Hws'. reflexivity.
Qed.

End Words.

(** X27. The word count of the heuristic analyzer is the number of words
    of the content: of its maximal runs of code units other than white
    space.  Leading, trailing and repeated white space do not change
    it. *)
Theorem wordCount_counts_words (content : str) :
  AnalysisProcessor.wordCount (AnalysisProcessor.calculateBasicMetrics content)
  = words content.
Proof.
  unfold AnalysisProcessor.calculateBasicMetrics. cbv zeta.
  cbn [AnalysisProcessor.wordCount]. rewrite split_words. apply words_trim.
Qed.

(* ================================================================== *)
(** * Part XXII. The singleton service: chat *)
(* ================================================================== *)

Section Chat.

Import SingletonAIService.

Lemma splitLoop_length r fuel :
  forall p cur pv rs q, (1 <= length (splitLoop r fuel p cur pv rs q))%nat.
Proof.
  induction fuel as [|n IH]; intros p cur pv rs q; cbn [splitLoop]; [cbn; lia|].
  destruct rs as [|c t]; [cbn; lia|].
  destruct (matchAt r pv (c :: t) q) as [m|]; [|apply IH].
  destruct (m_end m =? p)%nat; [apply IH | cbn [length]; lia].
Qed.

Lemma split_length s : (1 <= length (split (Plus true Space) s))%nat.
Proof.
  unfold split. destruct s as [|c t]; [|apply splitLoop_length].
  unfold Space. rewrite matchAt_class_run. cbn. lia.
Qed.

Lemma responseMessage_replies env text context stream :
  replies env
    {| chat_success := true;
       chat_data := Some (responseMessage env text context, stream) |}
    text context stream.
Proof.
  split; [reflexivity|].
  exists (responseMessage env text context),
         (length (split (Plus true Space) text)),
         (firstNow env - secondNow env)%Z.
  repeat split.
  - apply split_length.
  - rewrite <- split_words. apply List.filter_length_le.
  - lia.
Qed.

Lemma receive_deltas chunks :
  forall fullResponse calls,
    fold_left
      (fun '(fullResponse, calls) chunk =>
         let content := default [] (mjoin (head chunk)) in
         if AIService.truthy content then (fullResponse ++ content, calls ++ [content])
         else (fullResponse, calls))
      chunks (fullResponse, calls)
    = (fullResponse ++ concat (deltas chunks), calls ++ deltas chunks).
Proof.
  induction chunks as [|chunk chunks IH]; intros fullResponse calls; cbn [fold_left].
  - cbn. rewrite !app_nil_r. reflexivity.
  - unfold deltas. cbn [flat_map]. fold (deltas chunks).
    destruct chunk as [|[[|c t]|] others]; cbn -[deltas concat];
      rewrite IH; cbn [app concat]; rewrite ?concat_app, <- ?app_assoc; reflexivity.
Qed.

Lemma deltas_nonEmpty chunks : Forall (fun content => content <> []) (deltas chunks).
Proof.
  unfold deltas. apply Forall_flat_map, List.Forall_forall. intros chunk _.
  destruct chunk as [|[[|c t]|] others]; cbn; repeat constructor; discriminate.
Qed.

End Chat.

(** X28. A chat call throws nothing but [AIServiceError].  When it
    returns, the service is configured, the provider's first choice had
    a text that is not empty, and the response carries that text as a
    message of the assistant with the caller's context and no stream
    mark; its word count is at least one and at least the number of
    words of the text, and its processing time is not positive unless the
    clock ran backwards.  Of the earlier messages only the roles and the
    contents matter. *)
Theorem chat_reply_outcome (s : SingletonAIService.service)
  (env : SingletonAIService.ChatEnv)
  (request : list (str * str) -> result (list (option str)))
  (messages : list ChatMessage) (newMessage : str)
  (context : option (option str * option str)) :
  match SingletonAIService.sendChatMessage s env request messages newMessage context with
  | Ok r =>
      SingletonAIService.isConfigured s = true
      /\ exists choices text,
           request ([(lit "system", SingletonAIService.getChatSystemPrompt s)]
                    ++ sent messages ++ [(lit "user", newMessage)]) = Ok choices
           /\ head choices = Some (Some text) /\ text <> []
           /\ replies env r text context None
  | Throw e => isAIServiceError e = true
  end
  /\ forall messages',
       sent messages' = sent messages ->
       SingletonAIService.sendChatMessage s env request messages' newMessage context
       = SingletonAIService.sendChatMessage s env request messages newMessage context.
Proof.
  split.
  - unfold SingletonAIService.sendChatMessage, SingletonAIService.openAIMessages.
    fold (sent messages).
    destruct (SingletonAIService.isConfigured s); cbn [negb]; [|reflexivity].
    destruct (request _) as [choices | e]; cbn [mbind result_bind bind].
    + destruct choices as [|[[|c t]|] others];
        cbn [head mjoin option_join default AIService.truthy]; try reflexivity.
      split; [reflexivity|]. exists (Some (c :: t) :: others), (c :: t).
      repeat split; try discriminate. apply responseMessage_replies.
    + destruct e; reflexivity.
  - intros messages' Hsent.
    unfold SingletonAIService.sendChatMessage, SingletonAIService.openAIMessages.
    fold (sent messages) (sent messages'). rewrite Hsent. reflexivity.
Qed.

Lemma chat_reply_outcome_witness :
  SingletonAIService.sendChatMessage (Sample.service true)
    {| SingletonAIService.chat_env := Sample.env;
       SingletonAIService.firstNow := 10; SingletonAIService.secondNow := 11 |}
    (fun _ => Ok [Some (lit "Use shorter sentences.")])
    [{| message_id := lit "1"; message_role := lit "user";
        message_content := lit "How do I write clearly?"; message_timestamp := 5;
        message_context := None; message_metadata := None |}]
    (lit "And then?") None
  = SingletonAIService.sendChatMessage (Sample.service true)
      {| SingletonAIService.chat_env := Sample.env;
         SingletonAIService.firstNow := 10; SingletonAIService.secondNow := 11 |}
      (fun _ => Ok [Some (lit "Use shorter sentences.")])
      [{| message_id := lit "2"; message_role := lit "user";
          message_content := lit "How do I write clearly?"; message_timestamp := 7;
          message_context := Some (Some (lit "post"), None); message_metadata := None |}]
      (lit "And then?") None.
Proof.
  symmetry.
  apply (proj2 (chat_reply_outcome (Sample.service true) _ _
                  [{| message_id := lit "2"; message_role := lit "user";
                      message_content := lit "How do I write clearly?";
                      message_timestamp := 7;
                      message_context := Some (Some (lit "post"), None);
                      message_metadata := None |}]
                  (lit "And then?") None)).
  reflexivity.
Defined.

(** X29. A streamed chat hands [onChunk] the delta contents of the first
    choices that are not empty, in order, and nothing else.  When the
    stream ends normally the call succeeds, also with no text at all, and
    the message it returns is the concatenation of what was handed out,
    marked as streamed.  When the stream breaks off, what was handed out
    before stays handed out and the call throws an [AIServiceError]. *)
Theorem stream_returns_what_it_handed_out (s : SingletonAIService.service)
  (env : SingletonAIService.ChatEnv)
  (request : list (str * str) -> result (list (list (option str)) * option error))
  (messages : list ChatMessage) (newMessage : str)
  (context : option (option str * option str))
  (chunks : list (list (option str))) (failure : option error) :
  SingletonAIService.isConfigured s = true ->
  request ([(lit "system", SingletonAIService.getChatSystemPrompt s)]
           ++ sent messages ++ [(lit "user", newMessage)]) = Ok (chunks, failure) ->
  let outcome :=
    SingletonAIService.streamChatMessage s env request messages newMessage context in
  snd outcome = deltas chunks
  /\ Forall (fun content => content <> []) (snd outcome)
  /\ match failure, fst outcome with
     | None, Ok r => replies env r (concat (snd outcome)) context (Some true)
     | Some e, Throw e' =>
         e' = (if isAIServiceError e then e
               else AIServiceError (lit "Streaming chat failed: " ++ messageOf e) None)
     | _, _ => False
     end.
Proof.
  intros Hc Hrequest. cbv zeta.
  unfold SingletonAIService.streamChatMessage, SingletonAIService.openAIMessages.
  fold (sent messages). rewrite Hc, Hrequest. cbn [negb].
  unfold SingletonAIService.receive. rewrite receive_deltas. cbn [app].
  destruct failure as [e|]; cbn [fst snd].
  - split; [reflexivity|]. split; [apply deltas_nonEmpty|].
    destruct (isAIServiceError e); reflexivity.
  - split; [reflexivity|]. split; [apply deltas_nonEmpty|].
    apply responseMessage_replies.
Qed.

Lemma stream_returns_what_it_handed_out_witness :
  snd (SingletonAIService.streamChatMessage (Sample.service true)
         {| SingletonAIService.chat_env := Sample.env;
            SingletonAIService.firstNow := 10; SingletonAIService.secondNow := 11 |}
         (fun _ => Ok ([[Some (lit "Use ")]; [None]; []; [Some (lit "verbs.")]],
                       Some (Error (lit "terminated"))))
         [] (lit "And then?") None)
  = [lit "Use "; lit "verbs."]
  /\ fst (SingletonAIService.streamChatMessage (Sample.service true)
            {| SingletonAIService.chat_env := Sample.env;
               SingletonAIService.firstNow := 10; SingletonAIService.secondNow := 11 |}
            (fun _ => Ok ([[Some (lit "Use ")]; [None]; []; [Some (lit "verbs.")]],
                          Some (Error (lit "terminated"))))
            [] (lit "And then?") None)
     = Throw (AIServiceError (lit "Streaming chat failed: terminated") None).
Proof.
  pose proof (stream_returns_what_it_handed_out (Sample.service true)
                {| SingletonAIService.chat_env := Sample.env;
                   SingletonAIService.firstNow := 10; SingletonAIService.secondNow := 11 |}
                (fun _ => Ok ([[Some (lit "Use ")]; [None]; []; [Some (lit "verbs.")]],
                              Some (Error (lit "terminated"))))
                [] (lit "And then?") None
                [[Some (lit "Use ")]; [None]; []; [Some (lit "verbs.")]]
                (Some (Error (lit "terminated"))) eq_refl eq_refl) as (Hcalls & _ & Hout).
  split; [exact Hcalls|].
  destruct (fst _) as [r | e'] in Hout |- *; [destruct Hout | rewrite Hout; reflexivity].
Defined.

(* ================================================================== *)
(** * Part XXIII. The heuristic analyzer: sentences, paragraphs, scores *)
(* ================================================================== *)

Section Counts.

Import AnalysisProcessor.

Lemma nonBlank_forallb s : nonBlank s = negb (forallb isWhiteSpace s).
Proof.
  unfold nonBlank. destruct (forallb isWhiteSpace s) eqn:H.
  - apply trim_nil in H. rewrite H. reflexivity.
  - destruct (trim s) as [|c t] eqn:Ht; [|reflexivity].
    apply trim_nil in Ht. congruence.
Qed.

(** A code unit more in the piece under way. *)
Lemma nonBlank_snoc cur c :
  nonBlank (rev (c :: cur)) = nonBlank (rev cur) || negb (isWhiteSpace c).
Proof.
  rewrite !nonBlank_forallb, !forallb_rev. cbn [forallb].
  destruct (isWhiteSpace c), (forallb isWhiteSpace cur); reflexivity.
Qed.

Lemma nonBlank_nil : nonBlank (rev []) = false.
Proof. reflexivity. Qed.

(** ** Sentences *)

Lemma stretches_consume pv rs :
  forall i cs, stretches false (rest (consume isTerminator pv rs i cs)) = stretches false rs.
Proof.
  revert pv. induction rs as [|c t IH]; intros pv i cs; cbn [consume]; [reflexivity|].
  destruct (isTerminator c) eqn:Hc; cbn [rest stretches]; rewrite ?Hc; [apply IH | reflexivity].
Qed.

(** The pieces between runs of sentence marks that are not blank are as
    many as the sentences. *)
Lemma splitLoop_sentences fuel :
  forall rs p cur pv q,
    (length rs < fuel)%nat -> (p <= q)%nat ->
    length (List.filter nonBlank (splitLoop (Plus true (Chr isTerminator)) fuel p cur pv rs q))
    = ((if nonBlank (rev cur) then 1 else 0) + stretches (nonBlank (rev cur)) rs)%nat.
Proof.
  induction fuel as [|n IH]; intros rs p cur pv q Hfuel Hpq; [lia|].
  cbn [splitLoop]. destruct rs as [|c t].
  - cbn [List.filter stretches]. destruct (nonBlank (rev cur)); reflexivity.
  - rewrite matchAt_class_run. cbn [stretches].
    destruct (isTerminator c) eqn:Hc.
    + cbv zeta. cbn [m_end m_rest m_prev].
      pose proof (consume_bounds isTerminator t (Some c) (S q) []) as [Hpos Hlen].
      replace (pos (consume isTerminator (Some c) t (S q) []) =? p)%nat with false
        by (symmetry; apply Nat.eqb_neq; lia).
      cbn [List.filter].
      assert (Hrest :
        length (List.filter nonBlank
                  (splitLoop (Plus true (Chr isTerminator)) n
                     (pos (consume isTerminator (Some c) t (S q) [])) []
                     (prev (consume isTerminator (Some c) t (S q) []))
                     (rest (consume isTerminator (Some c) t (S q) []))
                     (pos (consume isTerminator (Some c) t (S q) []))))
        = stretches false t).
      { rewrite IH by (cbn in Hfuel; lia). rewrite nonBlank_nil. cbn [Nat.add].
        apply stretches_consume. }
      destruct (nonBlank (rev cur)); cbn [length]; rewrite Hrest; reflexivity.
    + rewrite IH by (cbn in Hfuel; lia). rewrite nonBlank_snoc.
      destruct (nonBlank (rev cur)), (isWhiteSpace c); reflexivity.
Qed.

Lemma split_sentences s :
  length (List.filter nonBlank (split (Plus true (OneOf ".!?")) s)) = sentences s.
Proof.
  change (OneOf ".!?") with (Chr isTerminator).
  unfold split, sentences. destruct s as [|c t].
  - rewrite matchAt_class_run. reflexivity.
  - rewrite splitLoop_sentences by (cbn; lia). reflexivity.
Qed.

(** ** Paragraphs *)

Lemma feed_isWhiteSpace c : (c =? 10)%N = true -> isWhiteSpace c = true.
Proof. intros H. apply N.eqb_eq in H. subst c. reflexivity. Qed.

(** White space, greedily, and then a line feed: the repetition gives
    back what it took down to the last line feed. *)
Lemma star_feed fuel :
  forall s,
    (length (rest s) < fuel)%nat ->
    star true (mt (Chr isWhiteSpace)) fuel (mt (C "010") Some) s
    = afterLastFeed (prev s) (rest s) (pos s) (caps s).
Proof.
  induction fuel as [|n IH]; intros s Hfuel; [lia|].
  cbn [star]. destruct s as [pv rs i cs]. cbn [rest pos prev caps] in *.
  destruct rs as [|c t]; [reflexivity|].
  cbn [mt C rest pos caps afterLastFeed].
  destruct (isWhiteSpace c) eqn:Hw.
  - replace (i <? S i)%nat with true by (symmetry; apply Nat.ltb_lt; lia).
    rewrite IH by (cbn in Hfuel |- *; lia). cbn [rest pos prev caps].
    destruct (afterLastFeed (Some c) t (S i) cs); reflexivity.
  - destruct (c =? cu "010")%N eqn:Hc; [|reflexivity].
    apply feed_isWhiteSpace in Hc. congruence.
Qed.

Lemma matchAt_paragraph pv rs q :
  matchAt (seqs [C "010"; Star true Space; C "010"]) pv rs q
  = match rs with
    | c :: t =>
        if (c =? 10)%N then
          match afterLastFeed (Some c) t (S q) [] with
          | Some e => Some (RMatch q (pos e) (caps e) (prev e) (rest e))
          | None => None
          end
        else None
    | [] => None
    end.
Proof.
  unfold matchAt, Space.
  change (mt (seqs [C "010"; Star true (Chr isWhiteSpace); C "010"]) Some (MState pv rs q []))
    with (match rs with
          | c :: t =>
              if (c =? 10)%N
              then star true (mt (Chr isWhiteSpace)) (S (length t)) (mt (C "010") Some)
                     (MState (Some c) t (S q) [])
              else None
          | [] => None
          end).
  destruct rs as [|c t]; [reflexivity|]. destruct (c =? 10)%N; [|reflexivity].
  rewrite star_feed by (cbn; lia). reflexivity.
Qed.

Lemma afterLastFeed_bounds rs :
  forall pv i cs e,
    afterLastFeed pv rs i cs = Some e ->
    (i < pos e)%nat /\ (length (rest e) < length rs)%nat.
Proof.
  induction rs as [|c t IH]; intros pv i cs e; cbn [afterLastFeed]; [discriminate|].
  destruct (isWhiteSpace c); [|discriminate].
  destruct (afterLastFeed (Some c) t (S i) cs) as [e'|] eqn:He'.
  - intros [= <-]. apply IH in He'. cbn [length]. lia.
  - destruct (c =? 10)%N; [|discriminate]. intros [= <-]. cbn. lia.
Qed.

Lemma afterLastFeed_noFeed rs :
  forall pv i cs, afterLastFeed pv rs i cs = None <-> noFeed rs = true.
Proof.
  induction rs as [|c t IH]; intros pv i cs; cbn [afterLastFeed noFeed]; [tauto|].
  destruct (isWhiteSpace c); [|tauto].
  specialize (IH (Some c) (S i) cs).
  destruct (afterLastFeed (Some c) t (S i) cs) as [e'|].
  - split; [discriminate|]. intros H. apply andb_true_iff in H. destruct H as [_ H].
    apply IH in H. discriminate H.
  - destruct (c =? 10)%N; cbn [negb andb]; [split; discriminate|].
    split; intros _; [apply IH|]; reflexivity.
Qed.

(** Once a block is closed, or none is open, the next word starts one. *)
Lemma blocks_closed s :
  forall open feeds,
    open = false \/ (2 <= feeds)%nat -> blocks open feeds s = blocks false 0 s.
Proof.
  induction s as [|c t IH]; intros open feeds H; cbn [blocks]; [reflexivity|].
  destruct (isWhiteSpace c).
  - rewrite (IH open) by (destruct H; [left; assumption | right; destruct (c =? 10)%N; lia]).
    symmetry. apply IH. left. reflexivity.
  - replace (open && (feeds <? 2)%nat) with false; [reflexivity|].
    destruct H as [-> | H]; [reflexivity|].
    replace (feeds <? 2)%nat with false by (symmetry; apply Nat.ltb_ge; lia).
    symmetry. apply andb_false_r.
Qed.

(** White space with a line feed in it, after a line feed, closes the
    block. *)
Lemma blocks_afterLastFeed rs :
  forall pv i cs e open feeds,
    afterLastFeed pv rs i cs = Some e -> (1 <= feeds)%nat ->
    blocks open feeds rs = blocks false 0 (rest e).
Proof.
  induction rs as [|c t IH]; intros pv i cs e open feeds; cbn [afterLastFeed]; [discriminate|].
  destruct (isWhiteSpace c) eqn:Hw; [|discriminate]. cbn [blocks]. rewrite Hw.
  destruct (afterLastFeed (Some c) t (S i) cs) as [e'|] eqn:He'.
  - intros [= <-] Hf. eapply IH; [exact He'|]. destruct (c =? 10)%N; lia.
  - destruct (c =? 10)%N; [|discriminate]. intros [= <-] Hf. cbn [rest].
    apply blocks_closed. right. lia.
Qed.

(** The pieces between separators of paragraphs that are not blank are
    as many as the blocks of words. *)
Lemma splitLoop_paragraphs fuel :
  forall rs p cur pv q feeds,
    (length rs < fuel)%nat -> (p <= q)%nat ->
    feeds = 0%nat \/ (feeds = 1%nat /\ noFeed rs = true) ->
    length (List.filter nonBlank
              (splitLoop (seqs [C "010"; Star true Space; C "010"]) fuel p cur pv rs q))
    = ((if nonBlank (rev cur) then 1 else 0) + blocks (nonBlank (rev cur)) feeds rs)%nat.
Proof.
  induction fuel as [|n IH]; intros rs p cur pv q feeds Hfuel Hpq Hfeeds; [lia|].
  cbn [splitLoop]. destruct rs as [|c t].
  - cbn [List.filter blocks]. destruct (nonBlank (rev cur)); reflexivity.
  - rewrite matchAt_paragraph. cbn [blocks].
    destruct (c =? 10)%N eqn:Hc.
    + rewrite (feed_isWhiteSpace c Hc).
      assert (Hzero : feeds = 0%nat).
      { destruct Hfeeds as [H | [_ H]]; [exact H|]. cbn [noFeed] in H.
        rewrite (feed_isWhiteSpace c Hc), Hc in H. discriminate H. }
      subst feeds.
      destruct (afterLastFeed (Some c) t (S q) []) as [e|] eqn:He.
      * cbn [m_end m_rest m_prev].
        pose proof (afterLastFeed_bounds _ _ _ _ _ He) as [Hpos Hlen].
        replace (pos e =? p)%nat with false by (symmetry; apply Nat.eqb_neq; lia).
        cbn [List.filter].
        assert (Hrest :
          length (List.filter nonBlank
                    (splitLoop (seqs [C "010"; Star true Space; C "010"]) n
                       (pos e) [] (prev e) (rest e) (pos e)))
          = blocks false 0 (rest e)).
        { rewrite (IH _ _ _ _ _ 0%nat) by (cbn in Hfuel; first [lia | left; reflexivity]).
          rewrite nonBlank_nil. reflexivity. }
        rewrite (blocks_afterLastFeed _ _ _ _ _ (nonBlank (rev cur)) 1%nat He) by lia.
        destruct (nonBlank (rev cur)); cbn [length]; rewrite Hrest; reflexivity.
      * apply afterLastFeed_noFeed in He.
        rewrite (IH _ _ _ _ _ 1%nat) by (cbn in Hfuel; first [lia | right; split; auto]).
        rewrite nonBlank_snoc, (feed_isWhiteSpace c Hc). cbn [negb]. rewrite orb_false_r.
        reflexivity.
    + destruct (isWhiteSpace c) eqn:Hw.
      * rewrite (IH _ _ _ _ _ feeds)
          by (cbn in Hfuel; first [lia
               | destruct Hfeeds as [H | [H1 H2]]; [left; exact H|]; right; split; [exact H1|];
                 cbn [noFeed] in H2; rewrite Hw, Hc in H2; exact H2]).
        rewrite nonBlank_snoc, Hw. cbn [negb]. rewrite orb_false_r. reflexivity.
      * rewrite (IH _ _ _ _ _ 0%nat) by (cbn in Hfuel; first [lia | left; reflexivity]).
        rewrite nonBlank_snoc, Hw. cbn [negb]. rewrite orb_true_r.
        replace (feeds <? 2)%nat with true
          by (symmetry; apply Nat.ltb_lt; destruct Hfeeds as [-> | [-> _]]; lia).
        destruct (nonBlank (rev cur)); reflexivity.
Qed.

Lemma split_paragraphs s :
  length (List.filter nonBlank (split (seqs [C "010"; Star true Space; C "010"]) s))
  = paragraphs s.
Proof.
  unfold split, paragraphs. destruct s as [|c t].
  - rewrite matchAt_paragraph. reflexivity.
  - rewrite (splitLoop_paragraphs _ _ _ _ _ _ 0%nat) by (cbn; first [lia | left; reflexivity]).
    reflexivity.
Qed.

(** ** The counts and the averages of [calculateBasicMetrics] *)

Lemma calculateBasicMetrics_counts content :
  wordCount (calculateBasicMetrics content) = words content
  /\ sentenceCount (calculateBasicMetrics content) = sentences content
  /\ paragraphCount (calculateBasicMetrics content) = paragraphs content.
Proof.
  unfold calculateBasicMetrics. cbv zeta.
  cbn [wordCount sentenceCount paragraphCount].
  rewrite split_words, words_trim, split_sentences, split_paragraphs. repeat split.
Qed.

Lemma calculateBasicMetrics_averages content :
  avgWordsPerSentence (calculateBasicMetrics content)
  = average (words content) (sentences content)
  /\ avgSentencesPerParagraph (calculateBasicMetrics content)
     = average (sentences content) (paragraphs content).
Proof.
  unfold calculateBasicMetrics, average. cbv zeta.
  cbn [avgWordsPerSentence avgSentencesPerParagraph].
  rewrite split_words, words_trim, split_sentences, split_paragraphs. split; reflexivity.
Qed.

Lemma calculateBasicMetrics_readability content :
  readabilityScore (calculateBasicMetrics content)
  = ofZ (readabilityOf (avgWordsPerSentence (calculateBasicMetrics content))).
Proof.
  unfold readabilityOf, exceeded, calculateBasicMetrics. cbv zeta.
  cbn [readabilityScore avgWordsPerSentence List.filter].
  match goal with |- context [Num.gt ?a (ofZ 20)] => generalize a end. intros avg.
  destruct (Num.gt avg (ofZ 20)), (Num.gt avg (ofZ 25)), (Num.gt avg (ofZ 30));
    reflexivity.
Qed.

Lemma calculateBasicMetrics_clarity content :
  clarityScore (calculateBasicMetrics content)
  = ofZ (clarityOf (avgSentencesPerParagraph (calculateBasicMetrics content))
           (paragraphCount (calculateBasicMetrics content))
           (sentenceCount (calculateBasicMetrics content))).
Proof.
  unfold clarityOf, calculateBasicMetrics. cbv zeta.
  cbn [clarityScore avgSentencesPerParagraph paragraphCount sentenceCount].
  match goal with |- context [Num.gt ?a (ofZ 5)] => generalize a end. intros avg.
  match goal with |- context [((?p =? 1)%nat && (10 <? ?s)%nat)%bool] =>
    generalize ((p =? 1)%nat && (10 <? s)%nat)%bool end. intros single.
  destruct (Num.gt avg (ofZ 5)), single; reflexivity.
Qed.

Lemma readabilityOf_range avg : (1 <= readabilityOf avg <= 10)%Z.
Proof.
  unfold readabilityOf, exceeded. cbn [List.filter].
  destruct (Num.gt avg (ofZ 20)), (Num.gt avg (ofZ 25)), (Num.gt avg (ofZ 30)); cbn; lia.
Qed.

Lemma clarityOf_range avg p s : (1 <= clarityOf avg p s <= 10)%Z.
Proof.
  unfold clarityOf.
  destruct (Num.gt avg (ofZ 5)), ((p =? 1)%nat && (10 <? s)%nat)%bool; cbn; lia.
Qed.

End Counts.

(** C7. For every content, the counts of the heuristic analyzer are
    counts of the content: its words (maximal runs of code units other
    than white space), its sentences (stretches without full stop,
    exclamation mark and question mark that are not blank) and its
    paragraphs (blocks of words that white space with two or more line
    feeds separates).  The readability score is ten minus two for each of
    the thresholds 20, 25, 30 that the average sentence length (words
    over sentences, zero without sentences) strictly exceeds; the clarity
    score is eight, minus one if the average number of sentences per
    paragraph exceeds five, minus one more if the text is a single
    paragraph of more than ten sentences; both are floored at one and lie
    between 1 and 10; the analysis result carries them. *)
Theorem heuristic_scores (env : Env) (content : str) (postId : option str) :
  let m := AnalysisProcessor.calculateBasicMetrics content in
  let r := AnalysisProcessor.createBasicAnalysis env content postId in
  let avgWords := average (words content) (sentences content) in
  let avgSentences := average (sentences content) (paragraphs content) in
  let readability := readabilityOf avgWords in
  let clarity := clarityOf avgSentences (paragraphs content) (sentences content) in
  AnalysisProcessor.wordCount m = words content
  /\ AnalysisProcessor.sentenceCount m = sentences content
  /\ AnalysisProcessor.paragraphCount m = paragraphs content
  /\ AnalysisProcessor.avgWordsPerSentence m = avgWords
  /\ AnalysisProcessor.avgSentencesPerParagraph m = avgSentences
  /\ AnalysisProcessor.readabilityScore m = ofZ readability
  /\ AnalysisProcessor.clarityScore m = ofZ clarity
  /\ (1 <= readability <= 10)%Z
  /\ (1 <= clarity <= 10)%Z
  /\ readabilityScore (metrics r) = num readability
  /\ clarityScore (metrics r) = num clarity.
Proof.
  cbv zeta.
  destruct (calculateBasicMetrics_counts content) as (Hw & Hs & Hp).
  destruct (calculateBasicMetrics_averages content) as (Haw & Has).
  pose proof (calculateBasicMetrics_readability content) as Hr.
  pose proof (calculateBasicMetrics_clarity content) as Hc.
  rewrite Haw in Hr. rewrite Has, Hp, Hs in Hc.
  repeat (split; [first [assumption | apply readabilityOf_range | apply clarityOf_range]|]).
  unfold AnalysisProcessor.createBasicAnalysis. cbn [metrics readabilityScore clarityScore].
  rewrite Hr, Hc. split; reflexivity.
Qed.

Lemma heuristic_scores_witness :
  (words fortyWords = 40 /\ sentences fortyWords = 1 /\ paragraphs fortyWords = 1)%nat
  /\ readabilityScore
       (metrics (AnalysisProcessor.createBasicAnalysis Sample.env fortyWords None))
     = num 4
  /\ (words twelveSentences = 24 /\ sentences twelveSentences = 12
      /\ paragraphs twelveSentences = 1)%nat
  /\ clarityScore
       (metrics (AnalysisProcessor.createBasicAnalysis Sample.env twelveSentences None))
     = num 6
  /\ AnalysisProcessor.sentenceCount (AnalysisProcessor.calculateBasicMetrics twoParagraphs)
     = 2%nat
  /\ AnalysisProcessor.paragraphCount (AnalysisProcessor.calculateBasicMetrics twoParagraphs)
     = 2%nat.
Proof.
  pose proof (heuristic_scores Sample.env fortyWords None) as H40.
  pose proof (heuristic_scores Sample.env twelveSentences None) as H12.
  pose proof (heuristic_scores Sample.env twoParagraphs None) as H2.
  cbv zeta in H40, H12, H2.
  destruct H40 as (_ & _ & _ & _ & _ & _ & _ & _ & _ & Hr & _).
  destruct H12 as (_ & _ & _ & _ & _ & _ & _ & _ & _ & _ & Hc).
  destruct H2 as (_ & Hs & Hp & _).
  split; [vm_compute; repeat split|].
  split; [rewrite Hr; vm_compute; reflexivity|].
  split; [vm_compute; repeat split|].
  split; [rewrite Hc; vm_compute; reflexivity|].
  split; [rewrite Hs | rewrite Hp]; vm_compute; reflexivity.
Defined.
